(** * Streamable-HTTP transport of mcp-go: a shallow embedding

  Source: [server/streamable_http.go].  The three handlers
  ([handlePost], [handleGet], [handleDelete]), the per-session stores,
  the ephemeral session object and the two built-in session id
  managers are transcribed as Rocq functions.  The goroutines of
  [handlePost] and [handleGet] are labelled transition systems whose
  actions are the atomic steps of the Go code (channel operations,
  mutex operations, critical sections).  The packages the file imports
  (uuid, mcp, encoding/json, mime) and the engine are parameters. *)

From Stdlib Require Import ZArith String Ascii List Bool Lia.
From stdpp Require Import base option list gmap strings.

Open Scope string_scope.
Open Scope Z_scope.

(* ===================================================================== *)
(** * Go strings                                                          *)
(* ===================================================================== *)

Module GoString.

(** [s[n:]] for [n <= len(s)]. *)
Fixpoint drop (n : nat) (s : string) : string :=
  match n, s with
  | O, _ => s
  | S n', String _ s' => drop n' s'
  | S _, EmptyString => EmptyString
  end.

(** [s[:n]] for [n <= len(s)]. *)
Fixpoint take (n : nat) (s : string) : string :=
  match n, s with
  | O, _ => EmptyString
  | S n', String c s' => String c (take n' s')
  | S _, EmptyString => EmptyString
  end.

(** [strings.HasPrefix]:
    [len(s) >= len(prefix) && s[:len(prefix)] == prefix]. *)
Definition HasPrefix (s pre : string) : bool :=
  (String.length pre <=? String.length s)%nat
  && String.eqb (take (String.length pre) s) pre.

(** [strings.TrimLeft(s, string(c))] for a byte [c] below [utf8.RuneSelf]. *)
Fixpoint trimLeftByte (s : string) (c : ascii) : string :=
  match s with
  | String x s' => if Ascii.eqb x c then trimLeftByte s' c else s
  | EmptyString => s
  end.

(** [strings.TrimRight(s, string(c))] for such a byte. *)
Fixpoint trimRightByte (s : string) (c : ascii) : string :=
  match s with
  | EmptyString => EmptyString
  | String x s' =>
      match trimRightByte s' c with
      | EmptyString => if Ascii.eqb x c then EmptyString else String x EmptyString
      | t => String x t
      end
  end.

(** [strings.Trim(s, cutset)] for a cutset of one such byte. *)
Definition Trim (s : string) (c : ascii) : string :=
  trimLeftByte (trimRightByte s c) c.

(** [strings.Repeat(string(c), n)] *)
Fixpoint Repeat (c : ascii) (n : nat) : string :=
  match n with
  | O => EmptyString
  | S n' => String c (Repeat c n')
  end.

(** The last byte of a string. *)
Fixpoint lastByte (s : string) : option ascii :=
  match s with
  | EmptyString => None
  | String x EmptyString => Some x
  | String _ s' => lastByte s'
  end.

Definition firstByte (s : string) : option ascii :=
  match s with
  | EmptyString => None
  | String x _ => Some x
  end.

End GoString.

(* ===================================================================== *)
(** * The uuid library (github.com/google/uuid)                          *)
(* ===================================================================== *)

(** The transport uses two functions of the external uuid package:
    [uuid.New().String()] and [uuid.Parse].  The development is
    parametric in them (class [GoLibs] below); [GoogleUUID] follows the
    package's behaviour and serves to evaluate the results on an
    instance. *)

Module GoogleUUID.

(** [type UUID [16]byte] *)
Definition UUID : Type := { l : list ascii | length l = 16%nat }.

Definition hexdigits : list ascii := list_ascii_of_string "0123456789abcdef".

Definition hexdigit (n : N) : ascii :=
  nth (N.to_nat n) hexdigits "0"%char.

(** [hex.Encode] of one byte: two lower-case digits. *)
Definition hex2 (b : ascii) : list ascii :=
  let n := N_of_ascii b in [hexdigit (n / 16); hexdigit (n mod 16)]%N.

Definition hexs (bs : list ascii) : list ascii := flat_map hex2 bs.

(** [encodeHex]: 8-4-4-4-12. *)
Definition encodeHex (l : list ascii) : list ascii :=
  hexs (firstn 4 l) ++ "-"%char ::
  hexs (firstn 2 (skipn 4 l)) ++ "-"%char ::
  hexs (firstn 2 (skipn 6 l)) ++ "-"%char ::
  hexs (firstn 2 (skipn 8 l)) ++ "-"%char ::
  hexs (skipn 10 l).

(** [UUID.String] *)
Definition String (u : UUID) : string :=
  string_of_list_ascii (encodeHex (proj1_sig u)).

(** [xvalues]: value of a hexadecimal digit, 255 when the byte is none. *)
Definition xvalue (c : ascii) : N :=
  let n := N_of_ascii c in
  if ((48 <=? n) && (n <=? 57))%N then (n - 48)%N
  else if ((97 <=? n) && (n <=? 102))%N then (n - 87)%N
  else if ((65 <=? n) && (n <=? 70))%N then (n - 55)%N
  else 255%N.

(** [xtob]: two hexadecimal digits to a byte. *)
Definition xtob (x1 x2 : ascii) : option ascii :=
  let b1 := xvalue x1 in
  let b2 := xvalue x2 in
  if (negb (b1 =? 255) && negb (b2 =? 255))%N
  then Some (ascii_of_N (N.lor (N.shiftl b1 4) b2))
  else None.

Definition at_ (s : list ascii) (i : nat) : ascii := nth i s zero.

Fixpoint xtobs (s : list ascii) (offs : list nat) : option (list ascii) :=
  match offs with
  | [] => Some []
  | x :: offs' =>
      match xtob (at_ s x) (at_ s (S x)) with
      | Some v => option_map (cons v) (xtobs s offs')
      | None => None
      end
  end.

Definition seal (l : list ascii) : option UUID :=
  match decide (length l = 16%nat) with
  | left H => Some (exist _ l H)
  | right _ => None
  end.

(** The tail of [uuid.Parse], on the 36 bytes that must have the form
    [xxxxxxxx-xxxx-xxxx-xxxx-xxxxxxxxxxxx]. *)
Definition parse36 (s : list ascii) : option UUID :=
  if negb (Ascii.eqb (at_ s 8) "-") || negb (Ascii.eqb (at_ s 13) "-")
     || negb (Ascii.eqb (at_ s 18) "-") || negb (Ascii.eqb (at_ s 23) "-")
  then None
  else
    match xtobs s [0; 2; 4; 6; 9; 11; 14; 16; 19; 21;
                   24; 26; 28; 30; 32; 34]%nat with
    | Some l => seal l
    | None => None
    end.

Definition lower (c : ascii) : ascii :=
  let n := N_of_ascii c in
  if ((65 <=? n) && (n <=? 90))%N then ascii_of_N (n + 32) else c.

(** [strings.EqualFold] on ASCII text. *)
Definition EqualFold (a b : list ascii) : bool :=
  bool_decide (map lower a = map lower b).

(** [uuid.Parse]: the standard form, the same with a [urn:uuid:] prefix,
    the same between two arbitrary bytes (braces), or 32 digits. *)
Definition Parse (str : string) : option UUID :=
  let s := list_ascii_of_string str in
  match length s with
  | 36%nat => parse36 s
  | 45%nat =>
      if EqualFold (firstn 9 s) (list_ascii_of_string "urn:uuid:")
      then parse36 (skipn 9 s) else None
  | 38%nat => parse36 (skipn 1 s)
  | 32%nat =>
      match xtobs s (map (fun i => 2 * i)%nat (seq 0 16)) with
      | Some l => seal l
      | None => None
      end
  | _ => None
  end.

End GoogleUUID.

(** The textual forms of a UUID, written as patterns: in a pattern [x]
    stands for one hexadecimal digit of either case and [?] for any one
    byte; every other byte stands for itself, letters in either case. *)
Module UUIDText.

Definition is_hex (c : ascii) : bool :=
  let n := N_of_ascii c in
  ((48 <=? n) && (n <=? 57) || (97 <=? n) && (n <=? 102)
   || (65 <=? n) && (n <=? 70))%N.

Definition matches_byte (p c : ascii) : bool :=
  if Ascii.eqb p "x" then is_hex c
  else if Ascii.eqb p "?" then true
  else Ascii.eqb (GoogleUUID.lower c) p.

Fixpoint matches (pat s : list ascii) : bool :=
  match pat, s with
  | [], [] => true
  | p :: pat', c :: s' => matches_byte p c && matches pat' s'
  | _, _ => false
  end.

(** The hyphenated form, as a pattern. *)
Definition pat36 : list ascii :=
  list_ascii_of_string "xxxxxxxx-xxxx-xxxx-xxxx-xxxxxxxxxxxx".

Definition has_form (forms : list string) (s : string) : bool :=
  existsb (fun pat => matches (list_ascii_of_string pat)
                        (list_ascii_of_string s)) forms.

(** A syntactically valid UUID, read generously: the form of RFC 4122,
    the same as a URN, the same in braces, or the 32 digits alone. *)
Definition syntactically_valid : string -> bool :=
  has_form ["xxxxxxxx-xxxx-xxxx-xxxx-xxxxxxxxxxxx";
            "urn:uuid:xxxxxxxx-xxxx-xxxx-xxxx-xxxxxxxxxxxx";
            "{xxxxxxxx-xxxx-xxxx-xxxx-xxxxxxxxxxxx}";
            "xxxxxxxxxxxxxxxxxxxxxxxxxxxxxxxx"].

(** The forms [uuid.Parse] decodes: of a text of 38 bytes it examines the
    36 in the middle only. *)
Definition decoded : string -> bool :=
  has_form ["xxxxxxxx-xxxx-xxxx-xxxx-xxxxxxxxxxxx";
            "urn:uuid:xxxxxxxx-xxxx-xxxx-xxxx-xxxxxxxxxxxx";
            "?xxxxxxxx-xxxx-xxxx-xxxx-xxxxxxxxxxxx?";
            "xxxxxxxxxxxxxxxxxxxxxxxxxxxxxxxx"].

End UUIDText.

(* ===================================================================== *)
(** * External collaborators                                              *)
(* ===================================================================== *)

(** Go's [error]: [None] is [nil], [Some msg] an error with that text. *)
Abbreviation error := (option string).

(** The line feed, the escape [\n] of the source. *)
Definition LF : string := String (ascii_of_nat 10) EmptyString.

(** What the transport hands to [json.Marshal]:
    a notification read from the session channel, the engine's response,
    the heartbeat's [mcp.JSONRPCRequest{JSONRPC: "2.0", ID: id,
    Request: {Method: m}}], and the value of [createErrorResponse]. *)
Inductive Payload (N R : Type) : Type :=
| PNotification (n : N)
| PResponse (r : R)
| PRequest (id : Z) (method : string)
| PError (id : option string) (code : Z) (message : string).

Arguments PNotification {N R} n.
Arguments PResponse {N R} r.
Arguments PRequest {N R} id method.
Arguments PError {N R} id code message.

(** The packages the transport is linked against.  Nothing is assumed of
    them beyond their types: [uuid.UUID] of google/uuid with its printer
    and parser, the types [mcp.JSONRPCNotification] and (non-nil)
    [mcp.JSONRPCMessage] of package [mcp] with [encoding/json] on them, and
    [mime]. *)
Class GoLibs (UUID Notification Response : Type) : Type := {
  uuid_String : UUID -> string;                 (* UUID.String *)
  uuid_Parse : string -> option UUID;           (* uuid.Parse; None on error *)
  json_Marshal : Payload Notification Response -> option string;
  (* json.Unmarshal(rawData, &baseMessage): the Method field, None on error *)
  json_Unmarshal_Method : string -> option string;
  (* mime.ParseMediaType: the media type, None on error *)
  mime_ParseMediaType : string -> option string;
}.

(** Modelled from the spec: constant [mcp.PARSE_ERROR] of package [mcp],
    which is not among the sources; the spec gives the parse error the
    code -32700. *)
Definition PARSE_ERROR : Z := -32700.

(** Modelled from the spec: constant [mcp.MethodInitialize] of package
    [mcp], which is not among the sources; the spec classifies a message
    as initialize when its method is "initialize". *)
Definition MethodInitialize : string := "initialize".

(** Modelled from the spec: constant [mcp.LoggingLevelError] of package
    [mcp], which is not among the sources; the spec has reads of a missing
    log level return "error". *)
Definition LoggingLevelError : string := "error".

(** Status codes of [net/http]. *)
Definition StatusOK : Z := 200.
Definition StatusAccepted : Z := 202.
Definition StatusBadRequest : Z := 400.
Definition StatusNotFound : Z := 404.
Definition StatusMethodNotAllowed : Z := 405.
Definition StatusInternalServerError : Z := 500.

(* ===================================================================== *)
(** * net/http: requests and response writers                             *)
(* ===================================================================== *)

(** [http.Header] with canonical keys. *)
Definition Header_Get (h : gmap string (list string)) (k : string) : string :=
  match h !! k with
  | Some (v :: _) => v
  | _ => ""
  end.

Record Request : Type := {
  Method : string;
  Header : gmap string (list string);
  (** [io.ReadAll(r.Body)]: the bytes, or the read error *)
  Body : string + string;
  (** [r.URL.Query()]: every key has at least one value *)
  Query : gmap string (string * list string);
}.

(** A [http.ResponseWriter]: the header map the handler edits, what went
    out with the status line, and the [Write] calls in order.  Every
    [Write] is taken to succeed; the handlers only log a failed one. *)
Record ResponseWriter : Type := {
  header : gmap string string;
  wroteHeader : bool;
  status : Z;
  sentHeader : gmap string string;
  body : list string;
  (** how many of the writes [Flush] has pushed to the client *)
  flushed : nat;
  (** whether the writer implements [http.Flusher] *)
  isFlusher : bool;
}.

Definition newResponseWriter (fl : bool) : ResponseWriter :=
  {| header := ∅; wroteHeader := false; status := 0; sentHeader := ∅;
     body := []; flushed := 0; isFlusher := fl |}.

(** [w.Header().Set(k, v)] *)
Definition Header_Set (k v : string) (w : ResponseWriter) : ResponseWriter :=
  {| header := <[k := v]> (header w); wroteHeader := wroteHeader w;
     status := status w; sentHeader := sentHeader w; body := body w;
     flushed := flushed w; isFlusher := isFlusher w |}.

(** [w.WriteHeader(code)]: only the first call has an effect. *)
Definition WriteHeader (code : Z) (w : ResponseWriter) : ResponseWriter :=
  if wroteHeader w then w
  else {| header := header w; wroteHeader := true; status := code;
          sentHeader := header w; body := body w;
          flushed := flushed w; isFlusher := isFlusher w |}.

(** [w.Write(data)]: sends the header with status 200 when none was sent. *)
Definition Write (data : string) (w : ResponseWriter) : ResponseWriter :=
  let w := WriteHeader StatusOK w in
  {| header := header w; wroteHeader := wroteHeader w; status := status w;
     sentHeader := sentHeader w; body := body w ++ [data];
     flushed := flushed w; isFlusher := isFlusher w |}.

(** [flusher.Flush()] *)
Definition Flush (w : ResponseWriter) : ResponseWriter :=
  let w := WriteHeader StatusOK w in
  {| header := header w; wroteHeader := wroteHeader w; status := status w;
     sentHeader := sentHeader w; body := body w;
     flushed := length (body w); isFlusher := isFlusher w |}.

(** [http.Error(w, msg, code)]: a plain-text reply, the message followed by
    a line feed. *)
Definition http_Error (w : ResponseWriter) (msg : string) (code : Z)
  : ResponseWriter :=
  let w := Header_Set "Content-Type" "text/plain; charset=utf-8" w in
  let w := Header_Set "X-Content-Type-Options" "nosniff" w in
  let w := WriteHeader code w in
  Write (msg +:+ LF) w.

Definition headerKeySessionID : string := "Mcp-Session-Id".

(* ===================================================================== *)
(** * Session id managers                                                 *)
(* ===================================================================== *)

(** [type SessionIdManager interface].  An implementation may keep state
    ([S]); [Generate] may draw random bits (the [UUID] argument). *)
Record SessionIdManager (UUID S : Type) : Type := {
  Generate : S -> UUID -> string * S;
  (** [(isTerminated, err)] *)
  Validate : S -> string -> (bool * error) * S;
  (** [(isNotAllowed, err)] *)
  Terminate : S -> string -> (bool * error) * S;
}.

Arguments Generate {UUID S} _ _ _.
Arguments Validate {UUID S} _ _ _.
Arguments Terminate {UUID S} _ _ _.

Section Managers.
Context {UUID Notification Response : Type}
  {libs : GoLibs UUID Notification Response}.

Definition StatelessSessionIdManager : SessionIdManager UUID unit := {|
  Generate := fun s _ => ("", s);
  Validate := fun s sessionID => ((false, None), s);
  Terminate := fun s sessionID => ((false, None), s);
|}.

Definition idPrefix : string := "mcp-session-".

Definition InsecureStateful_Generate (u : UUID) : string :=
  idPrefix +:+ uuid_String u.

Definition InsecureStateful_Validate (sessionID : string) : bool * error :=
  if negb (GoString.HasPrefix sessionID idPrefix)
  then (false, Some ("invalid session id: " +:+ sessionID))
  else
    match uuid_Parse (GoString.drop (String.length idPrefix) sessionID) with
    | None => (false, Some ("invalid session id: " +:+ sessionID))
    | Some _ => (false, None)
    end.

Definition InsecureStatefulSessionIdManager : SessionIdManager UUID unit := {|
  Generate := fun s u => (InsecureStateful_Generate u, s);
  Validate := fun s sessionID => (InsecureStateful_Validate sessionID, s);
  Terminate := fun s sessionID => ((false, None), s);
|}.

End Managers.

(* ===================================================================== *)
(** * Sessions, stores and the server                                     *)
(* ===================================================================== *)

Section Transport.
Context {UUID Notification Response : Type}
  {libs : GoLibs UUID Notification Response}.
(** [server.ServerTool] *)
Context {ServerTool : Type}.

Abbreviation Msg := (Payload Notification Response).

(** [streamableHttpSession]: the fields fixed at construction.  The
    notification channel and the [upgradeToSSE] flag change while a handler
    runs and live in the handler's state; [tools] and [logLevels] point to
    the stores of the server. *)
Record streamableHttpSession : Type := {
  sessionID : string;
  params : gmap string string;
}.

(** The request context given to the engine: the session bound by
    [WithContext] and the headers stored under [requestHeader]. *)
Record Context : Type := {
  ctxSession : streamableHttpSession;
  ctxRequestHeader : option (gmap string (list string));
}.

(** What the engine does to the session of a POST while [HandleMessage]
    runs. *)
Inductive EngineAct : Type :=
| Notify (nt : Notification)   (* session.NotificationChannel() <- nt *)
| Upgrade.                     (* session.UpgradeToSSEWhenReceiveNotification() *)

(** The engine ([*MCPServer]), an external collaborator: for a context and
    a raw message, the actions on the session and the response ([None] is
    [nil]); and the verdict of [RegisterSession]. *)
Record MCPServer : Type := {
  HandleMessage : Context -> string -> list EngineAct * option Response;
  RegisterSession : streamableHttpSession -> error;
}.

Record StreamableHTTPServer (S : Type) : Type := {
  server : MCPServer;
  (** sessionID -> toolName -> tool; [Some None] is a stored nil map *)
  sessionTools : gmap string (option (gmap string ServerTool));
  (** sessionId -> last requestID, an int64 *)
  sessionRequestIDs : gmap string Z;
  contextFunc : option (Context -> Request -> Context);
  sessionIdManager : SessionIdManager UUID S;
  (** the state behind the manager *)
  managerState : S;
  listenHeartbeatInterval : Z;
  sessionLogLevels : gmap string string;
}.

Arguments server {S} _.
Arguments sessionTools {S} _.
Arguments sessionRequestIDs {S} _.
Arguments contextFunc {S} _.
Arguments sessionIdManager {S} _.
Arguments managerState {S} _.
Arguments listenHeartbeatInterval {S} _.
Arguments sessionLogLevels {S} _.

Section Server.
Context {S : Type}.
Implicit Types s : StreamableHTTPServer S.

Definition set_sessionTools (f : gmap string (option (gmap string ServerTool)) ->
                           gmap string (option (gmap string ServerTool))) s
  : StreamableHTTPServer S :=
  {| server := server s; sessionTools := f (sessionTools s);
     sessionRequestIDs := sessionRequestIDs s; contextFunc := contextFunc s;
     sessionIdManager := sessionIdManager s; managerState := managerState s;
     listenHeartbeatInterval := listenHeartbeatInterval s;
     sessionLogLevels := sessionLogLevels s |}.

Definition set_sessionRequestIDs (f : gmap string Z -> gmap string Z) s
  : StreamableHTTPServer S :=
  {| server := server s; sessionTools := sessionTools s;
     sessionRequestIDs := f (sessionRequestIDs s); contextFunc := contextFunc s;
     sessionIdManager := sessionIdManager s; managerState := managerState s;
     listenHeartbeatInterval := listenHeartbeatInterval s;
     sessionLogLevels := sessionLogLevels s |}.

Definition set_sessionLogLevels (f : gmap string string -> gmap string string) s
  : StreamableHTTPServer S :=
  {| server := server s; sessionTools := sessionTools s;
     sessionRequestIDs := sessionRequestIDs s; contextFunc := contextFunc s;
     sessionIdManager := sessionIdManager s; managerState := managerState s;
     listenHeartbeatInterval := listenHeartbeatInterval s;
     sessionLogLevels := f (sessionLogLevels s) |}.

Definition set_managerState (ms : S) s : StreamableHTTPServer S :=
  {| server := server s; sessionTools := sessionTools s;
     sessionRequestIDs := sessionRequestIDs s; contextFunc := contextFunc s;
     sessionIdManager := sessionIdManager s; managerState := ms;
     listenHeartbeatInterval := listenHeartbeatInterval s;
     sessionLogLevels := sessionLogLevels s |}.

(** ** [sessionLogLevelsStore] *)

Definition sessionLogLevelsStore_get (logs : gmap string string)
  (sessionID : string) : string :=
  match logs !! sessionID with
  | None => LoggingLevelError
  | Some val => val
  end.

Definition sessionLogLevelsStore_set (sessionID level : string)
  (logs : gmap string string) : gmap string string :=
  <[sessionID := level]> logs.

Definition sessionLogLevelsStore_delete (sessionID : string)
  (logs : gmap string string) : gmap string string :=
  delete sessionID logs.

(** ** [sessionToolsStore] *)

(** [s.tools[sessionID]]: the nil map when there is no entry. *)
Definition sessionToolsStore_get
  (tools : gmap string (option (gmap string ServerTool)))
  (sessionID : string) : option (gmap string ServerTool) :=
  match tools !! sessionID with
  | None => None
  | Some t => t
  end.

Definition sessionToolsStore_set (sessionID : string)
  (t : option (gmap string ServerTool))
  (tools : gmap string (option (gmap string ServerTool)))
  : gmap string (option (gmap string ServerTool)) :=
  <[sessionID := t]> tools.

Definition sessionToolsStore_delete (sessionID : string)
  (tools : gmap string (option (gmap string ServerTool)))
  : gmap string (option (gmap string ServerTool)) :=
  delete sessionID tools.

(** ** Methods of [streamableHttpSession] *)

Definition newStreamableHttpSession (sessionID : string)
  (params : gmap string string) : streamableHttpSession :=
  {| sessionID := sessionID; params := params |}.

Definition SessionID (ss : streamableHttpSession) : string := sessionID ss.

Definition Initialized (ss : streamableHttpSession) : bool := true.

Definition SetLogLevel (ss : streamableHttpSession) (level : string) s
  : StreamableHTTPServer S :=
  set_sessionLogLevels (sessionLogLevelsStore_set (sessionID ss) level) s.

Definition GetLogLevel (ss : streamableHttpSession) s : string :=
  sessionLogLevelsStore_get (sessionLogLevels s) (sessionID ss).

Definition GetSessionTools (ss : streamableHttpSession) s
  : option (gmap string ServerTool) :=
  sessionToolsStore_get (sessionTools s) (sessionID ss).

Definition SetSessionTools (ss : streamableHttpSession)
  (tools : option (gmap string ServerTool)) s : StreamableHTTPServer S :=
  set_sessionTools (sessionToolsStore_set (sessionID ss) tools) s.

(** ** [nextRequestID] *)

(** An int64 after an addition: two's complement wrap-around. *)
Definition wrap64 (z : Z) : Z := (z + 2^63) mod 2^64 - 2^63.

(** [LoadOrStore(sessionID, new(atomic.Int64))] then [counter.Add(1)], on
    the map [s.sessionRequestIDs]: the value returned and the map after
    the call. *)
Definition sessionRequestIDs_next (sessionID : string) (ids : gmap string Z)
  : Z * gmap string Z :=
  let counter :=
    match ids !! sessionID with
    | Some c => c
    | None => 0
    end in
  let v := wrap64 (counter + 1) in
  (v, <[sessionID := v]> ids).

Definition nextRequestID (sessionID : string) s : Z * StreamableHTTPServer S :=
  let '(v, ids) := sessionRequestIDs_next sessionID (sessionRequestIDs s) in
  (v, set_sessionRequestIDs (fun _ => ids) s).

(** ** Writing messages *)

Definition sseFrame (jsonData : string) : string :=
  "event: message" +:+ LF +:+ "data: " +:+ jsonData +:+ LF +:+ LF.

Definition writeSSEEvent (w : ResponseWriter) (data : Msg)
  : ResponseWriter * error :=
  match json_Marshal data with
  | None => (w, Some "failed to marshal data")
  | Some jsonData => (Write (sseFrame jsonData) w, None)
  end.

(** [json.NewEncoder(w).Encode(v)]: the encoding and a line feed, in one
    write. *)
Definition json_Encode (w : ResponseWriter) (v : Msg) : ResponseWriter * error :=
  match json_Marshal v with
  | None => (w, Some "json: unsupported value")
  | Some jsonData => (Write (jsonData +:+ LF) w, None)
  end.

(** Modelled from the spec: [createErrorResponse] of package [server],
    which is not among the sources; the spec's error envelope carries the
    given id ([null] for nil), code and message. *)
Definition createErrorResponse (id : option string) (code : Z)
  (message : string) : Msg :=
  PError id code message.

(** The writer and what [s.logger.Errorf] received. *)
Definition writeJSONRPCError (w : ResponseWriter) (id : option string)
  (code : Z) (message : string) : ResponseWriter * list string :=
  let response := createErrorResponse id code message in
  let w := Header_Set "Content-Type" "application/json" w in
  let w := WriteHeader StatusBadRequest w in
  match json_Encode w response with
  | (w, Some err) => (w, ["Failed to write JSONRPCError: " +:+ err])
  | (w, None) => (w, [])
  end.

Definition sseHeaders (w : ResponseWriter) : ResponseWriter :=
  let w := Header_Set "Content-Type" "text/event-stream" w in
  let w := Header_Set "Connection" "keep-alive" w in
  let w := Header_Set "Cache-Control" "no-cache" w in
  WriteHeader StatusOK w.


(* ===================================================================== *)
(** * [handlePost]                                                        *)
(* ===================================================================== *)

(** Calls on the collaborators, in the order they are made. *)
Inductive Call : Type :=
| CallGenerate
| CallValidate (sessionID : string)
| CallTerminate (sessionID : string)
| CallHandleMessage (rawData : string)
| CallRegisterSession (sessionID : string)
| CallUnregisterSession (sessionID : string).

(** ** The two goroutines of a POST

    From line 276 on, [handlePost] runs two goroutines over shared
    variables: the handler itself, inside [HandleMessage] and then in the
    final write, and the reader of the notification channel. *)

(** Where the handler goroutine stands. *)
Inductive MainPc : Type :=
| MEngine (script : list EngineAct) (response : option Response)
    (* inside s.server.HandleMessage: what the engine still does, and
       what it returns *)
| MWaitLock (response : Response)   (* at mu.Lock() *)
| MLocked (response : Response)     (* mutex held, before ctx.Err() *)
| MCloseDone                        (* deferred close(done) to run *)
| MUnlock                           (* deferred mu.Unlock() to run *)
| MReturned.                        (* handlePost has returned *)

(** Where the notification reader stands. *)
Inductive ReaderPc : Type :=
| RSelect                           (* at the select of the for loop *)
| RWaitLock (nt : Notification)     (* received nt, at mu.Lock() *)
| RLocked (nt : Notification)       (* mutex held *)
| RReturned.                        (* the goroutine has returned *)

Inductive Holder : Type := HMain | HReader.

Record PostState : Type := {
  w : ResponseWriter;
  mainPc : MainPc;
  readerPc : ReaderPc;
  (** [session.notificationChannel], capacity 100, oldest first *)
  notificationChannel : list Notification;
  (** [mu] *)
  mu : option Holder;
  (** whether [done] is closed *)
  done : bool;
  (** [ctx.Err() != nil], the same as [ctx.Done()] being closed *)
  ctxErr : bool;
  (** [session.upgradeToSSE] *)
  upgradeToSSE : bool;
  upgradedHeader : bool;
  (** what [s.logger.Errorf] received *)
  logged : list string;
  isInitializeRequest : bool;
  postSessionID : string;
}.

Definition set_w (x : ResponseWriter) (st : PostState) : PostState :=
  {| w := x; mainPc := mainPc st; readerPc := readerPc st;
     notificationChannel := notificationChannel st; mu := mu st;
     done := done st; ctxErr := ctxErr st; upgradeToSSE := upgradeToSSE st;
     upgradedHeader := upgradedHeader st; logged := logged st;
     isInitializeRequest := isInitializeRequest st;
     postSessionID := postSessionID st |}.

Definition set_mainPc (x : MainPc) (st : PostState) : PostState :=
  {| w := w st; mainPc := x; readerPc := readerPc st;
     notificationChannel := notificationChannel st; mu := mu st;
     done := done st; ctxErr := ctxErr st; upgradeToSSE := upgradeToSSE st;
     upgradedHeader := upgradedHeader st; logged := logged st;
     isInitializeRequest := isInitializeRequest st;
     postSessionID := postSessionID st |}.

Definition set_readerPc (x : ReaderPc) (st : PostState) : PostState :=
  {| w := w st; mainPc := mainPc st; readerPc := x;
     notificationChannel := notificationChannel st; mu := mu st;
     done := done st; ctxErr := ctxErr st; upgradeToSSE := upgradeToSSE st;
     upgradedHeader := upgradedHeader st; logged := logged st;
     isInitializeRequest := isInitializeRequest st;
     postSessionID := postSessionID st |}.

Definition set_notificationChannel (x : list Notification) (st : PostState)
  : PostState :=
  {| w := w st; mainPc := mainPc st; readerPc := readerPc st;
     notificationChannel := x; mu := mu st;
     done := done st; ctxErr := ctxErr st; upgradeToSSE := upgradeToSSE st;
     upgradedHeader := upgradedHeader st; logged := logged st;
     isInitializeRequest := isInitializeRequest st;
     postSessionID := postSessionID st |}.

Definition set_mu (x : option Holder) (st : PostState) : PostState :=
  {| w := w st; mainPc := mainPc st; readerPc := readerPc st;
     notificationChannel := notificationChannel st; mu := x;
     done := done st; ctxErr := ctxErr st; upgradeToSSE := upgradeToSSE st;
     upgradedHeader := upgradedHeader st; logged := logged st;
     isInitializeRequest := isInitializeRequest st;
     postSessionID := postSessionID st |}.

Definition set_done (x : bool) (st : PostState) : PostState :=
  {| w := w st; mainPc := mainPc st; readerPc := readerPc st;
     notificationChannel := notificationChannel st; mu := mu st;
     done := x; ctxErr := ctxErr st; upgradeToSSE := upgradeToSSE st;
     upgradedHeader := upgradedHeader st; logged := logged st;
     isInitializeRequest := isInitializeRequest st;
     postSessionID := postSessionID st |}.

Definition set_ctxErr (x : bool) (st : PostState) : PostState :=
  {| w := w st; mainPc := mainPc st; readerPc := readerPc st;
     notificationChannel := notificationChannel st; mu := mu st;
     done := done st; ctxErr := x; upgradeToSSE := upgradeToSSE st;
     upgradedHeader := upgradedHeader st; logged := logged st;
     isInitializeRequest := isInitializeRequest st;
     postSessionID := postSessionID st |}.

Definition set_upgradeToSSE (x : bool) (st : PostState) : PostState :=
  {| w := w st; mainPc := mainPc st; readerPc := readerPc st;
     notificationChannel := notificationChannel st; mu := mu st;
     done := done st; ctxErr := ctxErr st; upgradeToSSE := x;
     upgradedHeader := upgradedHeader st; logged := logged st;
     isInitializeRequest := isInitializeRequest st;
     postSessionID := postSessionID st |}.

Definition set_upgradedHeader (x : bool) (st : PostState) : PostState :=
  {| w := w st; mainPc := mainPc st; readerPc := readerPc st;
     notificationChannel := notificationChannel st; mu := mu st;
     done := done st; ctxErr := ctxErr st; upgradeToSSE := upgradeToSSE st;
     upgradedHeader := x; logged := logged st;
     isInitializeRequest := isInitializeRequest st;
     postSessionID := postSessionID st |}.

Definition add_logged (x : list string) (st : PostState) : PostState :=
  {| w := w st; mainPc := mainPc st; readerPc := readerPc st;
     notificationChannel := notificationChannel st; mu := mu st;
     done := done st; ctxErr := ctxErr st; upgradeToSSE := upgradeToSSE st;
     upgradedHeader := upgradedHeader st; logged := logged st ++ x;
     isInitializeRequest := isInitializeRequest st;
     postSessionID := postSessionID st |}.

(** Lines 287-313: the reader's critical section for one notification,
    with the mutex held; the deferred flush runs whenever [done] was
    open. *)
Definition reader_section (nt : Notification) (st : PostState) : PostState :=
  if done st then st
  else
    let w1 := if upgradedHeader st then w st else sseHeaders (w st) in
    let st := set_upgradedHeader true st in
    let '(w2, err) := writeSSEEvent w1 (PNotification nt) in
    let st :=
      match err with
      | Some e => add_logged ["Failed to write SSE event: " +:+ e] st
      | None => st
      end in
    let w3 := if isFlusher w2 then Flush w2 else w2 in
    set_w w3 st.

(** Lines 336-362: the final write of the handler, with the mutex held. *)
Definition final_section (response : Response) (st : PostState) : PostState :=
  if ctxErr st then st
  else if upgradeToSSE st then
    let w1 := if upgradedHeader st then w st else sseHeaders (w st) in
    let st := set_upgradedHeader true st in
    match writeSSEEvent w1 (PResponse response) with
    | (w2, Some e) =>
        add_logged ["Failed to write final SSE response event: " +:+ e]
          (set_w w2 st)
    | (w2, None) => set_w w2 st
    end
  else
    let w1 := Header_Set "Content-Type" "application/json" (w st) in
    let w1 :=
      if isInitializeRequest st && negb (String.eqb (postSessionID st) "")
      then Header_Set headerKeySessionID (postSessionID st) w1
      else w1 in
    let w1 := WriteHeader StatusOK w1 in
    match json_Encode w1 (PResponse response) with
    | (w2, Some e) =>
        add_logged ["Failed to write response: " +:+ e] (set_w w2 st)
    | (w2, None) => set_w w2 st
    end.

(** The atomic steps of the two goroutines and of their environment.  The
    engine's send waits while the channel holds 100 notifications; an
    engine that drops a notification instead does nothing to the
    session. *)
Inductive Action : Type :=
| AEngine          (* the engine performs the next action of its script *)
| AEngineReturn    (* HandleMessage returns; a nil response is answered 202 *)
| AMainLock        (* mu.Lock() of the handler succeeds *)
| AMainWrite       (* the final write *)
| AMainCloseDone   (* the deferred close(done) *)
| AMainUnlock      (* the deferred mu.Unlock(), and return *)
| AReaderRecv      (* select takes a notification from the channel *)
| AReaderDone      (* select takes <-done *)
| AReaderCtxDone   (* select takes <-ctx.Done() *)
| AReaderLock      (* mu.Lock() of the reader succeeds *)
| AReaderWrite     (* the reader's critical section and mu.Unlock() *)
| ACancel.         (* the request context is cancelled *)

(** One step; [None] when the action cannot be taken in the state. *)
Definition post_step (a : Action) (st : PostState) : option PostState :=
  match a, mainPc st, readerPc st with
  | AEngine, MEngine (Notify nt :: script) response, _ =>
      if bool_decide (length (notificationChannel st) < 100)%nat
      then Some (set_mainPc (MEngine script response)
                   (set_notificationChannel (notificationChannel st ++ [nt]) st))
      else None
  | AEngine, MEngine (Upgrade :: script) response, _ =>
      Some (set_mainPc (MEngine script response) (set_upgradeToSSE true st))
  | AEngineReturn, MEngine [] None, _ =>
      Some (set_mainPc MReturned (set_w (WriteHeader StatusAccepted (w st)) st))
  | AEngineReturn, MEngine [] (Some response), _ =>
      Some (set_mainPc (MWaitLock response) st)
  | AMainLock, MWaitLock response, _ =>
      match mu st with
      | None => Some (set_mainPc (MLocked response) (set_mu (Some HMain) st))
      | Some _ => None
      end
  | AMainWrite, MLocked response, _ =>
      Some (set_mainPc MCloseDone (final_section response st))
  | AMainCloseDone, MCloseDone, _ =>
      Some (set_mainPc MUnlock (set_done true st))
  | AMainUnlock, MUnlock, _ =>
      Some (set_mainPc MReturned (set_mu None st))
  | AReaderRecv, _, RSelect =>
      match notificationChannel st with
      | nt :: rest =>
          Some (set_readerPc (RWaitLock nt) (set_notificationChannel rest st))
      | [] => None
      end
  | AReaderDone, _, RSelect =>
      if done st then Some (set_readerPc RReturned st) else None
  | AReaderCtxDone, _, RSelect =>
      if ctxErr st then Some (set_readerPc RReturned st) else None
  | AReaderLock, _, RWaitLock nt =>
      match mu st with
      | None => Some (set_readerPc (RLocked nt) (set_mu (Some HReader) st))
      | Some _ => None
      end
  | AReaderWrite, _, RLocked nt =>
      Some (set_readerPc RSelect (set_mu None (reader_section nt st)))
  | ACancel, _, _ => Some (set_ctxErr true st)
  | _, _, _ => None
  end.

(** A schedule, action by action. *)
Fixpoint post_run (acts : list Action) (st : PostState) : option PostState :=
  match acts with
  | [] => Some st
  | a :: acts' =>
      match post_step a st with
      | Some st' => post_run acts' st'
      | None => None
      end
  end.

(** The state at line 324: the reader is started and the engine entered. *)
Definition post_start (w0 : ResponseWriter) (isInit : bool)
  (sid : string) (run : list EngineAct * option Response) : PostState :=
  {| w := w0; mainPc := MEngine (fst run) (snd run); readerPc := RSelect;
     notificationChannel := []; mu := None; done := false; ctxErr := false;
     upgradeToSSE := false; upgradedHeader := false; logged := [];
     isInitializeRequest := isInit; postSessionID := sid |}.

(** ** The handler up to the engine *)

Inductive PostOutcome : Type :=
| PostReturned (w : ResponseWriter) (logged : list string)
    (* the handler returned before line 267 *)
| PostDispatched (st : PostState).
    (* the handler reached HandleMessage, in this state *)

Definition handlePost s (u : UUID) (w0 : ResponseWriter) (r : Request)
  : PostOutcome * StreamableHTTPServer S * list Call :=
  let contentType := Header_Get (Header r) "Content-Type" in
  let badType :=
    (PostReturned
       (http_Error w0 "Invalid content type: must be 'application/json'"
          StatusBadRequest) [], s, []) in
  match mime_ParseMediaType contentType with
  | None => badType
  | Some mediaType =>
  if negb (String.eqb mediaType "application/json") then badType else
  match Body r with
  | inr err =>
      let '(w1, l) := writeJSONRPCError w0 None PARSE_ERROR
                        ("read request body error: " +:+ err) in
      (PostReturned w1 l, s, [])
  | inl rawData =>
  match json_Unmarshal_Method rawData with
  | None =>
      let '(w1, l) := writeJSONRPCError w0 None PARSE_ERROR
                        "request body is not valid json" in
      (PostReturned w1 l, s, [])
  | Some method =>
  let isInitializeRequest := String.eqb method MethodInitialize in
  let params : gmap string string := fst <$> Query r in
  let dispatch (sessionID : string) (s : StreamableHTTPServer S)
               (calls : list Call) :=
    let session := newStreamableHttpSession sessionID params in
    let ctx := {| ctxSession := session; ctxRequestHeader := None |} in
    let ctx := match contextFunc s with
               | Some fn => fn ctx r
               | None => ctx
               end in
    let ctx := {| ctxSession := ctxSession ctx;
                  ctxRequestHeader := Some (Header r) |} in
    (PostDispatched
       (post_start w0 isInitializeRequest sessionID
          (HandleMessage (server s) ctx rawData)),
     s, (calls ++ [CallHandleMessage rawData])%list) in
  if isInitializeRequest then
    let '(sessionID, ms) := Generate (sessionIdManager s) (managerState s) u in
    dispatch sessionID (set_managerState ms s) [CallGenerate]
  else
    let sessionID := Header_Get (Header r) headerKeySessionID in
    let '((isTerminated, err), ms) :=
      Validate (sessionIdManager s) (managerState s) sessionID in
    let s := set_managerState ms s in
    match err with
    | Some _ =>
        (PostReturned (http_Error w0 "Invalid session ID" StatusBadRequest) [],
         s, [CallValidate sessionID])
    | None =>
        if isTerminated then
          (PostReturned (http_Error w0 "Session terminated" StatusNotFound) [],
           s, [CallValidate sessionID])
        else dispatch sessionID s [CallValidate sessionID]
    end
  end end end.


(* ===================================================================== *)
(** * [handleGet]                                                         *)
(* ===================================================================== *)

(** ** The three goroutines of a listening stream *)

Inductive ForwarderPc : Type :=
| FSelect                       (* at the outer select *)
| FSend (nt : Notification)     (* at the select sending &nt to writeChan *)
| FReturned.

Inductive PingerPc : Type :=
| PNotStarted                   (* listenHeartbeatInterval <= 0 *)
| PTick                         (* at the outer select, waiting for a tick *)
| PSend (message : Msg)         (* at the select sending the ping *)
| PReturned.

Inductive GetMainPc : Type :=
| GLoop                         (* at the select of the final for loop *)
| GReturned.                    (* handleGet has returned *)

Record GetState : Type := {
  gw : ResponseWriter;
  (** [s.sessionRequestIDs], shared with the other requests *)
  requestIDs : gmap string Z;
  gsessionID : string;
  (** [session.notificationChannel], capacity 100 *)
  gchannel : list Notification;
  (** [writeChan], capacity 16 *)
  writeChan : list Msg;
  forwarderPc : ForwarderPc;
  pingerPc : PingerPc;
  getMainPc : GetMainPc;
  (** whether [done] is closed *)
  gdone : bool;
  (** whether [r.Context().Done()] is closed *)
  gctxDone : bool;
  glogged : list string;
  (** calls made since the stream opened *)
  gcalls : list Call;
}.

Definition set_gw (x : ResponseWriter) (st : GetState) : GetState :=
  {| gw := x; requestIDs := requestIDs st; gsessionID := gsessionID st;
     gchannel := gchannel st; writeChan := writeChan st;
     forwarderPc := forwarderPc st; pingerPc := pingerPc st;
     getMainPc := getMainPc st; gdone := gdone st; gctxDone := gctxDone st;
     glogged := glogged st; gcalls := gcalls st |}.

Definition set_requestIDs (x : gmap string Z) (st : GetState) : GetState :=
  {| gw := gw st; requestIDs := x; gsessionID := gsessionID st;
     gchannel := gchannel st; writeChan := writeChan st;
     forwarderPc := forwarderPc st; pingerPc := pingerPc st;
     getMainPc := getMainPc st; gdone := gdone st; gctxDone := gctxDone st;
     glogged := glogged st; gcalls := gcalls st |}.

Definition set_gchannel (x : list Notification) (st : GetState) : GetState :=
  {| gw := gw st; requestIDs := requestIDs st; gsessionID := gsessionID st;
     gchannel := x; writeChan := writeChan st;
     forwarderPc := forwarderPc st; pingerPc := pingerPc st;
     getMainPc := getMainPc st; gdone := gdone st; gctxDone := gctxDone st;
     glogged := glogged st; gcalls := gcalls st |}.

Definition set_writeChan (x : list Msg) (st : GetState) : GetState :=
  {| gw := gw st; requestIDs := requestIDs st; gsessionID := gsessionID st;
     gchannel := gchannel st; writeChan := x;
     forwarderPc := forwarderPc st; pingerPc := pingerPc st;
     getMainPc := getMainPc st; gdone := gdone st; gctxDone := gctxDone st;
     glogged := glogged st; gcalls := gcalls st |}.

Definition set_forwarderPc (x : ForwarderPc) (st : GetState) : GetState :=
  {| gw := gw st; requestIDs := requestIDs st; gsessionID := gsessionID st;
     gchannel := gchannel st; writeChan := writeChan st;
     forwarderPc := x; pingerPc := pingerPc st;
     getMainPc := getMainPc st; gdone := gdone st; gctxDone := gctxDone st;
     glogged := glogged st; gcalls := gcalls st |}.

Definition set_pingerPc (x : PingerPc) (st : GetState) : GetState :=
  {| gw := gw st; requestIDs := requestIDs st; gsessionID := gsessionID st;
     gchannel := gchannel st; writeChan := writeChan st;
     forwarderPc := forwarderPc st; pingerPc := x;
     getMainPc := getMainPc st; gdone := gdone st; gctxDone := gctxDone st;
     glogged := glogged st; gcalls := gcalls st |}.

Definition set_gctxDone (x : bool) (st : GetState) : GetState :=
  {| gw := gw st; requestIDs := requestIDs st; gsessionID := gsessionID st;
     gchannel := gchannel st; writeChan := writeChan st;
     forwarderPc := forwarderPc st; pingerPc := pingerPc st;
     getMainPc := getMainPc st; gdone := gdone st; gctxDone := x;
     glogged := glogged st; gcalls := gcalls st |}.

(** The return of [handleGet] from the loop: the deferred [close(done)],
    then the deferred [UnregisterSession]. *)
Definition get_return (l : list string) (st : GetState) : GetState :=
  {| gw := gw st; requestIDs := requestIDs st; gsessionID := gsessionID st;
     gchannel := gchannel st; writeChan := writeChan st;
     forwarderPc := forwarderPc st; pingerPc := pingerPc st;
     getMainPc := GReturned; gdone := true; gctxDone := gctxDone st;
     glogged := glogged st ++ l;
     gcalls := gcalls st ++ [CallUnregisterSession (gsessionID st)] |}.

Inductive GetAction : Type :=
| GNotify (nt : Notification)  (* the engine sends nt to the session *)
| GFwdRecv        (* the forwarder takes a notification *)
| GFwdSend        (* the forwarder puts it on writeChan *)
| GFwdDone        (* the forwarder takes <-done *)
| GTick           (* the pinger takes a tick and calls nextRequestID *)
| GPingSend       (* the pinger puts the ping on writeChan *)
| GPingDone       (* the pinger takes <-done *)
| GMainWrite      (* the loop takes an item of writeChan and writes it *)
| GMainCtxDone    (* the loop takes <-r.Context().Done() *)
| GCancel         (* the client goes away *)
| GOtherNext (sessionID : string)
                  (* another goroutine calls nextRequestID(sessionID) *)
| GOtherDelete (sessionID : string).
                  (* a DELETE removes the counter of sessionID *)

Definition get_step (a : GetAction) (st : GetState) : option GetState :=
  match a with
  | GNotify nt =>
      if bool_decide (length (gchannel st) < 100)%nat
      then Some (set_gchannel (gchannel st ++ [nt]) st) else None
  | GFwdRecv =>
      match forwarderPc st, gchannel st with
      | FSelect, nt :: rest =>
          Some (set_forwarderPc (FSend nt) (set_gchannel rest st))
      | _, _ => None
      end
  | GFwdSend =>
      match forwarderPc st with
      | FSend nt =>
          if bool_decide (length (writeChan st) < 16)%nat
          then Some (set_forwarderPc FSelect
                       (set_writeChan (writeChan st ++ [PNotification nt]) st))
          else None
      | _ => None
      end
  | GFwdDone =>
      match forwarderPc st with
      | FSelect | FSend _ =>
          if gdone st then Some (set_forwarderPc FReturned st) else None
      | _ => None
      end
  | GTick =>
      match pingerPc st with
      | PTick =>
          let '(id, ids) :=
            sessionRequestIDs_next (gsessionID st) (requestIDs st) in
          Some (set_pingerPc (PSend (PRequest id "ping"))
                  (set_requestIDs ids st))
      | _ => None
      end
  | GPingSend =>
      match pingerPc st with
      | PSend message =>
          if bool_decide (length (writeChan st) < 16)%nat
          then Some (set_pingerPc PTick
                       (set_writeChan (writeChan st ++ [message]) st))
          else None
      | _ => None
      end
  | GPingDone =>
      match pingerPc st with
      | PTick | PSend _ =>
          if gdone st then Some (set_pingerPc PReturned st) else None
      | _ => None
      end
  | GMainWrite =>
      match getMainPc st, writeChan st with
      | GLoop, data :: rest =>
          let st := set_writeChan rest st in
          match writeSSEEvent (gw st) data with
          | (w1, Some e) =>
              Some (get_return ["Failed to write SSE event: " +:+ e]
                      (set_gw w1 st))
          | (w1, None) => Some (set_gw (Flush w1) st)
          end
      | _, _ => None
      end
  | GMainCtxDone =>
      match getMainPc st with
      | GLoop => if gctxDone st then Some (get_return [] st) else None
      | _ => None
      end
  | GCancel => Some (set_gctxDone true st)
  | GOtherNext sid =>
      Some (set_requestIDs (snd (sessionRequestIDs_next sid (requestIDs st))) st)
  | GOtherDelete sid =>
      Some (set_requestIDs (delete sid (requestIDs st)) st)
  end.

Fixpoint get_run (acts : list GetAction) (st : GetState) : option GetState :=
  match acts with
  | [] => Some st
  | a :: acts' =>
      match get_step a st with
      | Some st' => get_run acts' st'
      | None => None
      end
  end.

(** ** The handler up to the loop *)

Inductive GetOutcome : Type :=
| GetReturned (w : ResponseWriter)   (* returned before the stream opened *)
| GetStreaming (st : GetState).      (* the goroutines are started *)

Definition handleGet s (u : UUID) (w0 : ResponseWriter) (r : Request)
  : GetOutcome * list Call :=
  let sessionID := Header_Get (Header r) headerKeySessionID in
  let sessionID :=
    if String.eqb sessionID "" then uuid_String u else sessionID in
  let params : gmap string string := fst <$> Query r in
  let session := newStreamableHttpSession sessionID params in
  match RegisterSession (server s) session with
  | Some err =>
      (GetReturned
         (http_Error w0 ("Session registration failed: " +:+ err)
            StatusBadRequest),
       [CallRegisterSession sessionID])
  | None =>
      let w1 := Header_Set "Content-Type" "text/event-stream" w0 in
      let w1 := Header_Set "Cache-Control" "no-cache" w1 in
      let w1 := Header_Set "Connection" "keep-alive" w1 in
      let w1 := WriteHeader StatusOK w1 in
      if negb (isFlusher w1) then
        (GetReturned
           (http_Error w1 "Streaming unsupported" StatusInternalServerError),
         [CallRegisterSession sessionID; CallUnregisterSession sessionID])
      else
        (GetStreaming
           {| gw := Flush w1; requestIDs := sessionRequestIDs s;
              gsessionID := sessionID;
              gchannel := []; writeChan := [];
              forwarderPc := FSelect;
              pingerPc := if bool_decide (0 < listenHeartbeatInterval s)
                          then PTick else PNotStarted;
              getMainPc := GLoop; gdone := false; gctxDone := false;
              glogged := []; gcalls := [] |},
         [CallRegisterSession sessionID])
  end.

(* ===================================================================== *)
(** * [handleDelete] and [ServeHTTP]                                      *)
(* ===================================================================== *)

Definition handleDelete s (w0 : ResponseWriter) (r : Request)
  : ResponseWriter * StreamableHTTPServer S * list Call :=
  let sessionID := Header_Get (Header r) headerKeySessionID in
  let '((notAllowed, err), ms) :=
    Terminate (sessionIdManager s) (managerState s) sessionID in
  let s := set_managerState ms s in
  match err with
  | Some e =>
      (http_Error w0 ("Session termination failed: " +:+ e)
         StatusInternalServerError, s, [CallTerminate sessionID])
  | None =>
      if notAllowed then
        (http_Error w0 "Session termination not allowed"
           StatusMethodNotAllowed, s, [CallTerminate sessionID])
      else
        let s := set_sessionTools (sessionToolsStore_delete sessionID) s in
        let s := set_sessionLogLevels (sessionLogLevelsStore_delete sessionID) s in
        let s := set_sessionRequestIDs (delete sessionID) s in
        (WriteHeader StatusOK w0, s, [CallTerminate sessionID])
  end.

Inductive Served : Type :=
| ServedPost (o : PostOutcome)
| ServedGet (o : GetOutcome)
| ServedDelete (w : ResponseWriter)
| ServedNotFound (w : ResponseWriter).

Definition ServeHTTP s (u : UUID) (w0 : ResponseWriter) (r : Request)
  : Served * StreamableHTTPServer S * list Call :=
  if String.eqb (Method r) "POST" then
    let '(o, s', calls) := handlePost s u w0 r in (ServedPost o, s', calls)
  else if String.eqb (Method r) "GET" then
    let '(o, calls) := handleGet s u w0 r in (ServedGet o, s, calls)
  else if String.eqb (Method r) "DELETE" then
    let '(w1, s', calls) := handleDelete s w0 r in (ServedDelete w1, s', calls)
  else
    (ServedNotFound (http_Error w0 "404 page not found" StatusNotFound), s, []).

End Server.
End Transport.

Arguments server {UUID Notification Response ServerTool S} _.
Arguments sessionTools {UUID Notification Response ServerTool S} _.
Arguments sessionRequestIDs {UUID Notification Response ServerTool S} _.
Arguments contextFunc {UUID Notification Response ServerTool S} _.
Arguments sessionIdManager {UUID Notification Response ServerTool S} _.
Arguments managerState {UUID Notification Response ServerTool S} _.
Arguments listenHeartbeatInterval {UUID Notification Response ServerTool S} _.
Arguments sessionLogLevels {UUID Notification Response ServerTool S} _.

(* ===================================================================== *)
(** * Observations on the run of a POST                                   *)
(* ===================================================================== *)

Section PostObservations.
Context {UUID Notification Response : Type}
  {libs : GoLibs UUID Notification Response}.

(** The notifications an engine script sends, in order. *)
Fixpoint script_notifications (script : list (EngineAct (Notification := Notification))) : list Notification :=
  match script with
  | [] => []
  | Notify nt :: script' => nt :: script_notifications script'
  | Upgrade :: script' => script_notifications script'
  end.

(** The frames [writeSSEEvent] writes for a list of notifications: one for
    each that [json.Marshal] accepts. *)
Definition notification_frames (nts : list Notification) : list string :=
  omap (fun nt => sseFrame <$> json_Marshal (PNotification nt)) nts.

(** The notifications the engine has yet to send. *)
Definition unsent (pc : MainPc (Notification := Notification) (Response := Response)) : list Notification :=
  match pc with
  | MEngine script _ => script_notifications script
  | _ => []
  end.

(** The notification the reader has received and not yet handled. *)
Definition in_hand (pc : ReaderPc (Notification := Notification)) : list Notification :=
  match pc with
  | RWaitLock nt | RLocked nt => [nt]
  | _ => []
  end.

Definition main_holds (pc : MainPc (Notification := Notification) (Response := Response)) : Prop :=
  match pc with
  | MLocked _ | MCloseDone | MUnlock => True
  | _ => False
  end.

Definition reader_holds (pc : ReaderPc (Notification := Notification)) : Prop :=
  match pc with
  | RLocked _ => True
  | _ => False
  end.

(** The handler has not reached its final write. *)
Definition before_final (pc : MainPc (Notification := Notification) (Response := Response)) : Prop :=
  match pc with
  | MEngine _ _ | MWaitLock _ | MLocked _ => True
  | _ => False
  end.

(** The response the handler holds is the one the engine returned. *)
Definition carries (pc : MainPc (Notification := Notification) (Response := Response)) (resp : option Response) : Prop :=
  match pc with
  | MEngine _ r => r = resp
  | MWaitLock r | MLocked r => resp = Some r
  | _ => True
  end.

(** The status line and header of an event stream have been sent. *)
Definition sse_sent (fl : bool) (w : ResponseWriter) : Prop :=
  wroteHeader w = true /\ status w = StatusOK
  /\ sentHeader w = header (sseHeaders (newResponseWriter fl)).

(** What a state reached from [post_start (newResponseWriter fl) _ _
    (script, resp)] satisfies, with [E] the notifications of [script]. *)
Record post_inv (fl : bool) (E : list Notification) (resp : option Response)
  (st : PostState (Notification := Notification) (Response := Response))
  : Prop := {
  inv_mu_main : mu st = Some HMain <-> main_holds (mainPc st);
  inv_mu_reader : mu st = Some HReader <-> reader_holds (readerPc st);
  inv_done : done st = true -> mainPc st = MUnlock \/ mainPc st = MReturned;
  inv_unlock : mainPc st = MUnlock -> done st = true;
  inv_carries : carries (mainPc st) resp;
  inv_body :
    exists (k : nat) (fin : list string),
      body (w st) = (notification_frames (take k E) ++ fin)%list
      /\ (done st = false ->
          (take k E ++ in_hand (readerPc st) ++ notificationChannel st
             ++ unsent (mainPc st))%list = E)
      /\ (fin = []
          \/ ((mainPc st = MCloseDone \/ done st = true)
              /\ exists r j, resp = Some r
                   /\ json_Marshal (PResponse r) = Some j
                   /\ (fin = [sseFrame j] \/ fin = [j +:+ LF])));
  inv_header :
    before_final (mainPc st) ->
    if upgradedHeader st then sse_sent fl (w st)
    else w st = newResponseWriter fl;
}.

End PostObservations.

(* ===================================================================== *)
(** * Observations on a listening stream                                  *)
(* ===================================================================== *)

Section GetObservations.
Context {UUID Notification Response : Type}
  {libs : GoLibs UUID Notification Response}.

(** The ids of the requests among messages, in order. *)
Definition request_ids (ms : list (Payload Notification Response)) : list Z :=
  omap (fun m => match m with
                 | PRequest id _ => Some id
                 | _ => None
                 end) ms.

(** The frames of messages that [json.Marshal] accepts. *)
Definition frames (ms : list (Payload Notification Response)) : list string :=
  omap (fun m => sseFrame <$> json_Marshal m) ms.

(** The ping the pinger has made and not yet put on [writeChan]. *)
Definition ping_in_hand (pc : PingerPc (Notification := Notification)
                                (Response := Response))
  : list (Payload Notification Response) :=
  match pc with
  | PSend message => [message]
  | _ => []
  end.

(** The value of the counter of a session, 0 when there is none. *)
Definition counter_at (ids : gmap string Z) (sessionID : string) : Z :=
  match ids !! sessionID with
  | Some c => c
  | None => 0
  end.

(** The action is not an access of another goroutine to the counter of
    [sessionID]. *)
Definition foreign (sessionID : string)
  (a : GetAction (Notification := Notification)) : bool :=
  match a with
  | GOtherNext x | GOtherDelete x => negb (String.eqb x sessionID)
  | _ => true
  end.

(** The state of the stream [handleGet] opened, if it did. *)
Definition streaming (o : GetOutcome (Notification := Notification)
                             (Response := Response))
  : option GetState :=
  match o with
  | GetStreaming st => Some st
  | GetReturned _ => None
  end.

(** What a listening stream of the session [sid] satisfies after at most
    [m] steps without foreign access to the counter, which stood at [c0]
    when the stream opened. *)
Record get_inv (sid : string) (c0 : Z) (m : nat)
  (st : GetState (Notification := Notification) (Response := Response))
  : Prop := {
  ginv_sid : gsessionID st = sid;
  ginv_done : gdone st = true -> getMainPc st = GReturned;
  ginv_pings :
    exists (written : list (Payload Notification Response))
           (rest : list Z) (n : nat),
      body (gw st) = frames written
      /\ (request_ids written ++ rest)%list = seqZ (c0 + 1) (Z.of_nat n)
      /\ counter_at (requestIDs st) sid = c0 + Z.of_nat n
      /\ (n <= m)%nat
      /\ (getMainPc st = GLoop ->
          rest = (request_ids (writeChan st)
                  ++ request_ids (ping_in_hand (pingerPc st)))%list);
}.

End GetObservations.

(* ===================================================================== *)
(** * Further observations on the run of a POST                           *)
(* ===================================================================== *)

Section PostInvariants.
Context {UUID Notification Response : Type}
  {libs : GoLibs UUID Notification Response}.
Context {ServerTool S : Type}.

(** Lines 267-280: the context [handlePost] gives to the engine for the
    session id it has settled on. *)
Definition post_context
  (s : @StreamableHTTPServer UUID Notification Response ServerTool S)
  (r : Request) (sessionID : string) : Context :=
  let session := newStreamableHttpSession sessionID (fst <$> Query r) in
  let ctx := {| ctxSession := session; ctxRequestHeader := None |} in
  let ctx := match contextFunc s with
             | Some fn => fn ctx r
             | None => ctx
             end in
  {| ctxSession := ctxSession ctx; ctxRequestHeader := Some (Header r) |}.


(** The body holds frames of notifications and nothing else. *)
Definition only_notifications (E : list Notification)
  (st : PostState (Notification := Notification) (Response := Response))
  : Prop :=
  exists k : nat,
    body (w st) = notification_frames (take k E)
    /\ (done st = false ->
        (take k E ++ in_hand (readerPc st) ++ notificationChannel st
           ++ unsent (mainPc st))%list = E).

(** A header map carries Mcp-Session-Id only for an initialize request
    with a non-empty session id, and then this id. *)
Definition session_header_ok (isInit : bool) (sid : string)
  (h : gmap string string) : Prop :=
  match h !! headerKeySessionID with
  | None => True
  | Some v => isInit = true /\ v = sid /\ sid <> ""
  end.

Definition writer_ok (isInit : bool) (sid : string) (w : ResponseWriter)
  : Prop :=
  session_header_ok isInit sid (header w)
  /\ session_header_ok isInit sid (sentHeader w).

Record header_inv (isInit : bool) (sid : string)
  (st : PostState (Notification := Notification) (Response := Response))
  : Prop := {
  h_init : isInitializeRequest st = isInit;
  h_sid : postSessionID st = sid;
  h_writer : writer_ok isInit sid (w st);
}.

End PostInvariants.

(* ===================================================================== *)
(** * Further observations on a listening stream                          *)
(* ===================================================================== *)

Section StreamInvariants.
Context {UUID Notification Response : Type}
  {libs : GoLibs UUID Notification Response}.

(** The notifications among messages, in order. *)
Definition notifications_of (ms : list (Payload Notification Response))
  : list Notification :=
  omap (fun m => match m with
                 | PNotification nt => Some nt
                 | _ => None
                 end) ms.

(** The notification the forwarder has taken and not yet put on
    [writeChan]. *)
Definition fwd_in_hand (pc : ForwarderPc (Notification := Notification))
  : list Notification :=
  match pc with
  | FSend nt => [nt]
  | _ => []
  end.

(** The notifications the engine sends in a schedule, in order. *)
Definition notified (acts : list (GetAction (Notification := Notification)))
  : list Notification :=
  omap (fun a => match a with
                 | GNotify nt => Some nt
                 | _ => None
                 end) acts.

(** The messages are notifications. *)
Definition all_notifications (ms : list (Payload Notification Response))
  : Prop :=
  Forall (fun m => exists nt, m = PNotification nt) ms.

(** What a listening stream satisfies when the engine has sent [sent] to
    the session. *)
Record order_inv (sent : list Notification)
  (st : GetState (Notification := Notification) (Response := Response))
  : Prop := {
  o_done : gdone st = true -> getMainPc st = GReturned;
  o_ping : forall m, pingerPc st = PSend m -> exists id, m = PRequest id "ping";
  o_body :
    exists (written : list (Payload Notification Response))
           (rest : list Notification),
      body (gw st) = frames written
      /\ (notifications_of written ++ rest)%list = sent
      /\ (getMainPc st = GLoop ->
          rest = (notifications_of (writeChan st)
                  ++ fwd_in_hand (forwarderPc st) ++ gchannel st)%list)
      /\ (pingerPc st = PNotStarted ->
          all_notifications written /\ all_notifications (writeChan st));
}.

(** The life of a listening stream of the session [sid]: its calls and
    its [done] channel. *)
Record life_inv (sid : string)
  (st : GetState (Notification := Notification) (Response := Response))
  : Prop := {
  l_sid : gsessionID st = sid;
  l_loop : getMainPc st = GLoop -> gcalls st = [] /\ gdone st = false;
  l_ret : getMainPc st = GReturned ->
          gcalls st = [CallUnregisterSession sid] /\ gdone st = true;
  l_fwd : forwarderPc st = FReturned -> gdone st = true;
  l_pinger : pingerPc st = PReturned -> gdone st = true;
}.

(** A schedule that ends a stream: the client goes away, the loop
    returns, and the two helpers take [done]. *)
Definition closing_schedule
  (st : GetState (Notification := Notification) (Response := Response))
  : list (GetAction (Notification := Notification)) :=
  (match getMainPc st with
   | GLoop => [GCancel; GMainCtxDone]
   | GReturned => []
   end
   ++ match forwarderPc st with
      | FSelect | FSend _ => [GFwdDone]
      | FReturned => []
      end
   ++ match pingerPc st with
      | PTick | PSend _ => [GPingDone]
      | PNotStarted | PReturned => []
      end)%list.

End StreamInvariants.

(* ===================================================================== *)
(** * Options, construction, [Start] and [Shutdown]                       *)
(* ===================================================================== *)

Section Lifecycle.
Context {UUID Notification Response : Type}
  {libs : GoLibs UUID Notification Response}.
Context {ServerTool : Type}.
(** [util.Logger] and [http.Handler] *)
Context {Logger Handler : Type}.

(** A value of the interface [SessionIdManager]: an implementation with
    the state behind it. *)
Record ManagerValue : Type := {
  mvState : Type;
  mvManager : SessionIdManager UUID mvState;
  mvInit : mvState;
}.

(** What a [http.Server] serves: the mux [Start] builds, which routes one
    pattern to the transport, or the handler of a server the caller
    brought. *)
Inductive ServerHandler : Type :=
| MuxTo (pattern : string)
| Given (h : Handler).

(** [http.Server]: the fields the transport touches. *)
Record HttpServer : Type := {
  Addr : string;
  SrvHandler : ServerHandler;
}.

(** The whole struct [StreamableHTTPServer]: the fields the handlers use
    ([handlers], with the type of the manager's state) and those of the
    life cycle. *)
Record Transport : Type := {
  stateType : Type;
  handlers : @StreamableHTTPServer UUID Notification Response ServerTool stateType;
  httpServer : option HttpServer;
  (** [mu] is held for writing *)
  serverMu : bool;
  endpointPath : string;
  logger : Logger;
}.

Definition set_endpointPath (x : string) (s : Transport) : Transport :=
  {| stateType := stateType s; handlers := handlers s;
     httpServer := httpServer s; serverMu := serverMu s;
     endpointPath := x; logger := logger s |}.

Definition set_httpServer (x : option HttpServer) (s : Transport) : Transport :=
  {| stateType := stateType s; handlers := handlers s;
     httpServer := x; serverMu := serverMu s;
     endpointPath := endpointPath s; logger := logger s |}.

Definition set_serverMu (x : bool) (s : Transport) : Transport :=
  {| stateType := stateType s; handlers := handlers s;
     httpServer := httpServer s; serverMu := x;
     endpointPath := endpointPath s; logger := logger s |}.

Definition set_logger (x : Logger) (s : Transport) : Transport :=
  {| stateType := stateType s; handlers := handlers s;
     httpServer := httpServer s; serverMu := serverMu s;
     endpointPath := endpointPath s; logger := x |}.

Definition set_handlers {S : Type}
  (x : @StreamableHTTPServer UUID Notification Response ServerTool S)
  (s : Transport) : Transport :=
  {| stateType := S; handlers := x;
     httpServer := httpServer s; serverMu := serverMu s;
     endpointPath := endpointPath s; logger := logger s |}.

(** [s.sessionIdManager = manager] *)
Definition set_sessionIdManager {S : Type} (m : ManagerValue)
  (h : @StreamableHTTPServer UUID Notification Response ServerTool S)
  : @StreamableHTTPServer UUID Notification Response ServerTool (mvState m) :=
  {| server := server h; sessionTools := sessionTools h;
     sessionRequestIDs := sessionRequestIDs h; contextFunc := contextFunc h;
     sessionIdManager := mvManager m; managerState := mvInit m;
     listenHeartbeatInterval := listenHeartbeatInterval h;
     sessionLogLevels := sessionLogLevels h |}.

Definition set_listenHeartbeatInterval {S : Type} (x : Z)
  (h : @StreamableHTTPServer UUID Notification Response ServerTool S)
  : @StreamableHTTPServer UUID Notification Response ServerTool S :=
  {| server := server h; sessionTools := sessionTools h;
     sessionRequestIDs := sessionRequestIDs h; contextFunc := contextFunc h;
     sessionIdManager := sessionIdManager h; managerState := managerState h;
     listenHeartbeatInterval := x;
     sessionLogLevels := sessionLogLevels h |}.

Definition set_contextFunc {S : Type}
  (x : option (Context -> Request -> Context))
  (h : @StreamableHTTPServer UUID Notification Response ServerTool S)
  : @StreamableHTTPServer UUID Notification Response ServerTool S :=
  {| server := server h; sessionTools := sessionTools h;
     sessionRequestIDs := sessionRequestIDs h; contextFunc := x;
     sessionIdManager := sessionIdManager h; managerState := managerState h;
     listenHeartbeatInterval := listenHeartbeatInterval h;
     sessionLogLevels := sessionLogLevels h |}.

(** The manager of a transport, as an interface value. *)
Definition managerOf (s : Transport) : ManagerValue :=
  {| mvState := stateType s; mvManager := sessionIdManager (handlers s);
     mvInit := managerState (handlers s) |}.

(** [&StatelessSessionIdManager{}] and [&InsecureStatefulSessionIdManager{}] *)
Definition statelessValue : ManagerValue :=
  {| mvState := unit; mvManager := StatelessSessionIdManager; mvInit := tt |}.

Definition insecureStatefulValue : ManagerValue :=
  {| mvState := unit; mvManager := InsecureStatefulSessionIdManager;
     mvInit := tt |}.

(** [type StreamableHTTPOption]: a function on the server being built. *)
Definition StreamableHTTPOption : Type := Transport -> Transport.

Definition WithEndpointPath (endpointPath : string) : StreamableHTTPOption :=
  fun s =>
    let normalizedPath := "/" +:+ GoString.Trim endpointPath "/" in
    set_endpointPath normalizedPath s.

Definition WithStateLess (stateLess : bool) : StreamableHTTPOption :=
  fun s =>
    if stateLess
    then set_handlers (set_sessionIdManager statelessValue (handlers s)) s
    else s.

Definition WithSessionIdManager (manager : ManagerValue) : StreamableHTTPOption :=
  fun s => set_handlers (set_sessionIdManager manager (handlers s)) s.

Definition WithHeartbeatInterval (interval : Z) : StreamableHTTPOption :=
  fun s => set_handlers (set_listenHeartbeatInterval interval (handlers s)) s.

Definition WithHTTPContextFunc (fn : option (Context -> Request -> Context))
  : StreamableHTTPOption :=
  fun s => set_handlers (set_contextFunc fn (handlers s)) s.

Definition WithStreamableHTTPServer (srv : option HttpServer)
  : StreamableHTTPOption :=
  fun s => set_httpServer srv s.

Definition WithLogger (l : Logger) : StreamableHTTPOption :=
  fun s => set_logger l s.

(** The options this file provides. *)
Inductive provided : StreamableHTTPOption -> Prop :=
| provided_WithEndpointPath p : provided (WithEndpointPath p)
| provided_WithStateLess b : provided (WithStateLess b)
| provided_WithSessionIdManager m : provided (WithSessionIdManager m)
| provided_WithHeartbeatInterval i : provided (WithHeartbeatInterval i)
| provided_WithHTTPContextFunc fn : provided (WithHTTPContextFunc fn)
| provided_WithStreamableHTTPServer srv : provided (WithStreamableHTTPServer srv)
| provided_WithLogger l : provided (WithLogger l).

(** [util.DefaultLogger()] *)
Variable DefaultLogger : Logger.

Definition NewStreamableHTTPServer (e : MCPServer)
  (opts : list StreamableHTTPOption) : Transport :=
  let s :=
    {| stateType := unit;
       handlers :=
         {| server := e; sessionTools := ∅; sessionRequestIDs := ∅;
            contextFunc := None;
            sessionIdManager := InsecureStatefulSessionIdManager;
            managerState := tt; listenHeartbeatInterval := 0;
            sessionLogLevels := ∅ |};
       httpServer := None; serverMu := false;
       endpointPath := "/mcp"; logger := DefaultLogger |} in
  fold_left (fun s opt => opt s) opts s.

(** How a call of [Start] ends. *)
Inductive StartResult : Type :=
| StartBlocked                  (* s.mu.Lock() does not return *)
| StartConflict (configured requested : string)
                                (* the error of line 185 is returned *)
| StartServing (srv : HttpServer).
                                (* the result of srv.ListenAndServe() is returned *)

Definition Start (addr : string) (s : Transport) : StartResult * Transport :=
  if serverMu s then (StartBlocked, s) else
  let s := set_serverMu true s in
  match httpServer s with
  | None =>
      let srv := {| Addr := addr; SrvHandler := MuxTo (endpointPath s) |} in
      let s := set_httpServer (Some srv) s in
      (StartServing srv, set_serverMu false s)
  | Some srv0 =>
      if String.eqb (Addr srv0) "" then
        let srv := {| Addr := addr; SrvHandler := SrvHandler srv0 |} in
        let s := set_httpServer (Some srv) s in
        (StartServing srv, set_serverMu false s)
      else if negb (String.eqb (Addr srv0) addr) then
        (StartConflict (Addr srv0) addr, s)
      else
        (StartServing srv0, set_serverMu false s)
  end.

(** How a call of [Shutdown] ends. *)
Inductive ShutdownResult : Type :=
| ShutdownBlocked               (* s.mu.RLock() does not return *)
| ShutdownNil                   (* nil is returned *)
| ShutdownServer (srv : HttpServer).
                                (* the result of srv.Shutdown(ctx) is returned *)

Definition Shutdown (s : Transport) : ShutdownResult :=
  if serverMu s then ShutdownBlocked else
  match httpServer s with
  | Some srv => ShutdownServer srv
  | None => ShutdownNil
  end.

(** A transport without session state, around the engine [e]. *)
Definition fresh (e : MCPServer) s : Prop :=
  server (handlers s) = e
  /\ sessionTools (handlers s) = ∅
  /\ sessionLogLevels (handlers s) = ∅
  /\ sessionRequestIDs (handlers s) = ∅
  /\ serverMu s = false.

End Lifecycle.

(* ===================================================================== *)
(** * A concrete instance                                                 *)
(* ===================================================================== *)

(** Libraries, an engine and requests on which the results below are
    evaluated: the uuid package as modelled in [GoogleUUID], messages
    that are their own JSON text, and readers of the flat JSON objects and
    parameter-less media types that occur in the requests. *)

Module Sample.

Definition DQ : string := String (ascii_of_nat 34) EmptyString.

Definition quoted (s : string) : string := DQ +:+ s +:+ DQ.

Fixpoint digits (fuel : nat) (n : N) (acc : string) : string :=
  match fuel with
  | O => acc
  | Datatypes.S fuel' =>
      let acc' := String (ascii_of_N (48 + n mod 10)) acc in
      if (n <? 10)%N then acc' else digits fuel' (n / 10)%N acc'
  end.

Definition decimal (z : Z) : string :=
  let n := Z.to_N (Z.abs z) in
  (if z <? 0 then "-" else "") +:+ digits (Datatypes.S (N.to_nat (N.log2 n))) n "".

Definition marshal (p : Payload string string) : option string :=
  match p with
  | PNotification n => Some n
  | PResponse r => Some r
  | PRequest id m =>
      Some ("{" +:+ quoted "jsonrpc" +:+ ":" +:+ quoted "2.0" +:+ ","
            +:+ quoted "id" +:+ ":" +:+ decimal id +:+ ","
            +:+ quoted "method" +:+ ":" +:+ quoted m +:+ "}")
  | PError id code message =>
      Some ("{" +:+ quoted "jsonrpc" +:+ ":" +:+ quoted "2.0" +:+ ","
            +:+ quoted "id" +:+ ":"
            +:+ match id with Some i => i | None => "null" end +:+ ","
            +:+ quoted "error" +:+ ":{" +:+ quoted "code" +:+ ":"
            +:+ decimal code +:+ "," +:+ quoted "message" +:+ ":"
            +:+ quoted message +:+ "}}")
  end.

(** The [method] member of a flat JSON object; an error on text that does
    not start with a brace. *)
Definition unmarshal_method (raw : string) : option string :=
  match raw with
  | String "{" _ =>
      let key := quoted "method" +:+ ":" +:+ DQ in
      match String.index 0 key raw with
      | None => Some ""
      | Some i =>
          let rest := GoString.drop (i + String.length key) raw in
          match String.index 0 DQ rest with
          | Some j => Some (GoString.take j rest)
          | None => None
          end
      end
  | _ => None
  end.

(** [mime.ParseMediaType] on a lower-case value without parameters: the
    value itself, and an error on the empty string. *)
Definition parseMediaType (v : string) : option string :=
  if String.eqb v "" then None else Some v.

Definition libs : GoLibs GoogleUUID.UUID string string := {|
  uuid_String := GoogleUUID.String;
  uuid_Parse := GoogleUUID.Parse;
  json_Marshal := marshal;
  json_Unmarshal_Method := unmarshal_method;
  mime_ParseMediaType := parseMediaType;
|}.

(** The UUID of sixteen zero bytes. *)
Definition uuid0 : GoogleUUID.UUID := exist _ (repeat zero 16) eq_refl.

(** ["00000000-0000-0000-0000-000000000000"] *)
Definition uuid0_text : string := "00000000-0000-0000-0000-000000000000".

(** The actions of an engine on the session. *)
Definition notify (nt : string) : @EngineAct string := Notify nt.
Definition upgrade : @EngineAct string := Upgrade.

(** An engine that answers every message the same way and registers every
    session. *)
Definition engine (script : list (@EngineAct string))
  (response : option string) : @MCPServer string string :=
  {| HandleMessage := fun _ _ => (script, response);
     RegisterSession := fun _ => None |}.

Definition newServer {S : Type} (m : SessionIdManager GoogleUUID.UUID S)
  (ms : S) (e : @MCPServer string string) (heartbeat : Z)
  : @StreamableHTTPServer GoogleUUID.UUID string string string S :=
  {| server := e; sessionTools := ∅; sessionRequestIDs := ∅;
     contextFunc := None; sessionIdManager := m; managerState := ms;
     listenHeartbeatInterval := heartbeat; sessionLogLevels := ∅ |}.

Definition headers (contentType sessionID : string) : gmap string (list string) :=
  let h : gmap string (list string) :=
    if String.eqb contentType "" then ∅
    else {[ "Content-Type" := [contentType] ]} in
  if String.eqb sessionID "" then h
  else <[ "Mcp-Session-Id" := [sessionID] ]> h.

Definition request (method contentType sessionID body : string) : Request :=
  {| Method := method; Header := headers contentType sessionID;
     Body := inl body; Query := ∅ |}.

(** [{"jsonrpc":"2.0","id":1,"method":"initialize","params":{}}] *)
Definition initialize_body : string :=
  "{" +:+ quoted "jsonrpc" +:+ ":" +:+ quoted "2.0" +:+ ","
  +:+ quoted "id" +:+ ":1," +:+ quoted "method" +:+ ":"
  +:+ quoted "initialize" +:+ "," +:+ quoted "params" +:+ ":{}}".

(** [{"jsonrpc":"2.0","id":7,"method":"tools/call","params":{"name":"noop"}}] *)
Definition call_body : string :=
  "{" +:+ quoted "jsonrpc" +:+ ":" +:+ quoted "2.0" +:+ ","
  +:+ quoted "id" +:+ ":7," +:+ quoted "method" +:+ ":"
  +:+ quoted "tools/call" +:+ "," +:+ quoted "params" +:+ ":{"
  +:+ quoted "name" +:+ ":" +:+ quoted "noop" +:+ "}}".

(** [{"jsonrpc":"2.0","id":7,"result":{}}] *)
Definition result7 : string :=
  "{" +:+ quoted "jsonrpc" +:+ ":" +:+ quoted "2.0" +:+ ","
  +:+ quoted "id" +:+ ":7," +:+ quoted "result" +:+ ":{}}".

(** [{"jsonrpc":"2.0","method":"notifications/progress"}] *)
Definition progress : string :=
  "{" +:+ quoted "jsonrpc" +:+ ":" +:+ quoted "2.0" +:+ ","
  +:+ quoted "method" +:+ ":" +:+ quoted "notifications/progress" +:+ "}".

(** A manager that reports every id as terminated and refuses termination
    of the id ["locked"]. *)
Definition strictManager : SessionIdManager GoogleUUID.UUID unit := {|
  Generate := fun s _ => ("sid", s);
  Validate := fun s sessionID => ((true, None), s);
  Terminate := fun s sessionID =>
    ((String.eqb sessionID "locked", None), s);
|}.

(** An engine that refuses every registration. *)
Definition closedEngine : @MCPServer string string :=
  {| HandleMessage := fun _ _ => ([], None);
     RegisterSession := fun _ => Some "server is full" |}.

End Sample.

(** Closed statements below are about this instance. *)
#[global] Existing Instance Sample.libs.

Example sample_unmarshal_initialize :
  Sample.unmarshal_method Sample.initialize_body = Some "initialize".
Proof. vm_compute. reflexivity. Qed.

Example sample_unmarshal_call :
  Sample.unmarshal_method Sample.call_body = Some "tools/call".
Proof. vm_compute. reflexivity. Qed.

Example sample_decimal : Sample.decimal (-32700) = "-32700".
Proof. vm_compute. reflexivity. Qed.

Example sample_uuid0 : GoogleUUID.String Sample.uuid0 = Sample.uuid0_text.
Proof. vm_compute. reflexivity. Qed.

Example sample_parse_uuid0 :
  GoogleUUID.Parse Sample.uuid0_text = Some Sample.uuid0.
Proof. vm_compute. reflexivity. Qed.

(* ===================================================================== *)
(** * Facts about the string and uuid primitives                          *)
(* ===================================================================== *)

Module GoStringFacts.
Import GoString.

Lemma app_cons (c : ascii) (a b : string) :
  String c a +:+ b = String c (a +:+ b).
Proof. reflexivity. Qed.

Lemma app_nil (b : string) : "" +:+ b = b.
Proof. reflexivity. Qed.

Lemma take_app (p r : string) : take (String.length p) (p +:+ r) = p.
Proof.
  induction p as [|c p IH]; [by destruct r|].
  rewrite app_cons. cbn [String.length take]. by rewrite IH.
Qed.

Lemma drop_app (p r : string) : drop (String.length p) (p +:+ r) = r.
Proof.
  induction p as [|c p IH]; [done|].
  rewrite app_cons. cbn [String.length drop]. exact IH.
Qed.

Lemma take_drop (n : nat) (s : string) : take n s +:+ drop n s = s.
Proof.
  revert s; induction n as [|n IH]; intros [|c s]; try done.
  cbn [take drop]. by rewrite app_cons, IH.
Qed.

Lemma length_app (p r : string) :
  String.length (p +:+ r) = (String.length p + String.length r)%nat.
Proof.
  induction p as [|c p IH]; [done|].
  rewrite app_cons. cbn [String.length Nat.add]. by rewrite IH.
Qed.

Lemma HasPrefix_app (p r : string) : HasPrefix (p +:+ r) p = true.
Proof.
  unfold HasPrefix. rewrite take_app, String.eqb_refl, length_app.
  rewrite andb_true_r. apply Nat.leb_le. lia.
Qed.

Lemma HasPrefix_inv (s p : string) :
  HasPrefix s p = true -> s = p +:+ drop (String.length p) s.
Proof.
  unfold HasPrefix. intros [_ H]%andb_true_iff.
  apply String.eqb_eq in H.
  rewrite <- H at 1. by rewrite take_drop.
Qed.

End GoStringFacts.

Module GoogleUUIDFacts.
Import GoogleUUID.

Lemma xtob_hex2 (b : ascii) :
  xtob (hexdigit (N_of_ascii b / 16)) (hexdigit (N_of_ascii b mod 16)) = Some b.
Proof. destruct b as [[] [] [] [] [] [] [] []]; vm_compute; reflexivity. Qed.

Lemma seal_16 (l : list ascii) : length l = 16%nat -> is_Some (seal l).
Proof. intros H. unfold seal. destruct (decide _); [eauto | done]. Qed.

(** Every rendered UUID parses. *)
Lemma Parse_String (u : UUID) : is_Some (Parse (String u)).
Proof.
  destruct u as [l Hl].
  do 17 (destruct l as [|? l]; try discriminate Hl).
  unfold String, Parse; cbn [proj1_sig].
  rewrite list_ascii_of_string_of_list_ascii.
  cbn [encodeHex firstn skipn hexs flat_map hex2 app length].
  unfold parse36.
  cbn [at_ nth Ascii.eqb Bool.eqb negb orb xtobs].
  rewrite !xtob_hex2. cbn [option_map].
  apply seal_16. reflexivity.
Qed.

End GoogleUUIDFacts.

(** [uuid.Parse] against the textual forms. *)
Module UUIDTextFacts.
Import GoogleUUID UUIDText.

Lemma xvalue_is_hex (c : ascii) : (xvalue c =? 255)%N = negb (is_hex c).
Proof. destruct c as [[] [] [] [] [] [] [] []]; vm_compute; reflexivity. Qed.

Lemma xtob_is_hex (a b : ascii) :
  xtob a b = if is_hex a && is_hex b
             then Some (ascii_of_N (N.lor (N.shiftl (xvalue a) 4) (xvalue b)))
             else None.
Proof.
  unfold xtob. cbv zeta. rewrite !xvalue_is_hex, !negb_involutive. done.
Qed.

Lemma lower_hyphen (c : ascii) : Ascii.eqb (lower c) "-" = Ascii.eqb c "-".
Proof. destruct c as [[] [] [] [] [] [] [] []]; vm_compute; reflexivity. Qed.

Lemma matches_length (pat s : list ascii) :
  matches pat s = true -> length s = length pat.
Proof.
  revert s. induction pat as [|p pat IH]; intros [|c s]; cbn; try done.
  intros [_ H]%andb_true_iff. by rewrite (IH s H).
Qed.

Lemma matches_app (p q s : list ascii) :
  matches (p ++ q) s
  = matches p (firstn (length p) s) && matches q (skipn (length p) s).
Proof.
  revert s. induction p as [|a p IH]; intros s.
  - cbn. by rewrite drop_0.
  - destruct s as [|c s]; [done|]. cbn. by rewrite IH, andb_assoc.
Qed.

Lemma xtobs_length (s : list ascii) (offs : list nat) (l : list ascii) :
  xtobs s offs = Some l -> length l = length offs.
Proof.
  revert l. induction offs as [|x offs IH]; intros l; cbn.
  - by intros [= <-].
  - destruct (xtob _ _); [|done].
    destruct (xtobs s offs) as [l'|]; [|done].
    cbn. intros [= <-]. cbn. by rewrite (IH l').
Qed.

Lemma xtobs_is_Some (s : list ascii) (offs : list nat) :
  is_Some (xtobs s offs)
  <-> forallb (fun x => is_hex (at_ s x) && is_hex (at_ s (S x))) offs = true.
Proof.
  induction offs as [|x offs IH]; cbn.
  - split; [done | eauto].
  - rewrite xtob_is_hex.
    destruct (is_hex (at_ s x) && is_hex (at_ s (S x))); cbn.
    + rewrite <- IH. destruct (xtobs s offs); cbn; split; eauto.
      all: intros [? ?]; done.
    + split; [intros [? ?]; done | done].
Qed.

Lemma seal_xtobs (s : list ascii) (offs : list nat) :
  length offs = 16%nat ->
  is_Some (match xtobs s offs with Some l => seal l | None => None end)
  <-> is_Some (xtobs s offs).
Proof.
  intros Hlen. destruct (xtobs s offs) as [l|] eqn:Hx; [|done].
  split; [eauto|]. intros _. apply GoogleUUIDFacts.seal_16.
  by rewrite (xtobs_length _ _ _ Hx).
Qed.

(** [parse36] examines the first 36 bytes. *)
Lemma parse36_matches (s : list ascii) :
  (36 <= length s)%nat ->
  is_Some (parse36 s) <-> matches pat36 (firstn 36 s) = true.
Proof.
  intros Hlen.
  do 36 (destruct s as [|? s]; [cbn in Hlen; lia|]). clear Hlen.
  unfold parse36.
  cbn [at_ nth].
  destruct (negb _ || _ || _ || _) eqn:Hh.
  - split; [intros [? ?]; done|]. intros Hm. exfalso.
    cbn in Hm. unfold matches_byte in Hm. cbn in Hm.
    rewrite !lower_hyphen in Hm.
    rewrite !andb_true_iff in Hm.
    destruct Hm as (_&_&_&_&_&_&_&_&H8&_&_&_&_&H13&_&_&_&_&H18&_&_&_&_&H23&_).
    rewrite H8, H13, H18, H23 in Hh. done.
  - rewrite seal_xtobs by reflexivity. rewrite xtobs_is_Some.
    rewrite !orb_false_iff, !negb_false_iff in Hh.
    destruct Hh as (((H8 & H13) & H18) & H23).
    cbn. unfold matches_byte. cbn. rewrite !lower_hyphen.
    rewrite H8, H13, H18, H23. cbn.
    rewrite !andb_true_iff. tauto.
Qed.

Lemma hex32_matches (s : list ascii) :
  length s = 32%nat ->
  is_Some (match xtobs s (map (fun i => 2 * i)%nat (seq 0 16)) with
           | Some l => seal l
           | None => None
           end)
  <-> matches (list_ascii_of_string "xxxxxxxxxxxxxxxxxxxxxxxxxxxxxxxx") s = true.
Proof.
  intros Hlen.
  do 33 (destruct s as [|? s]; try discriminate Hlen). clear Hlen.
  rewrite seal_xtobs by reflexivity. rewrite xtobs_is_Some.
  cbn. unfold matches_byte. cbn.
  rewrite !andb_true_iff. tauto.
Qed.

Lemma EqualFold_matches (p a : list ascii) :
  Forall (fun q => lower q = q /\ Ascii.eqb q "x" = false
                   /\ Ascii.eqb q "?" = false) p ->
  EqualFold a p = matches p a.
Proof.
  intros Hp. revert a. induction Hp as [|q p (Hq & Hx & Hw) _ IH]; intros [|c a].
  - done.
  - unfold EqualFold. cbn. by case_bool_decide.
  - unfold EqualFold. cbn. by case_bool_decide.
  - cbn [matches]. unfold matches_byte. rewrite Hx, Hw, <- IH.
    unfold EqualFold. cbn [map]. rewrite Hq.
    apply Bool.eq_iff_eq_true.
    rewrite andb_true_iff, !bool_decide_eq_true, Ascii.eqb_eq.
    split; [intros [= -> ->]; done | intros [-> ->]; done].
Qed.

Lemma Parse_other_length (str : string) :
  let n := length (list_ascii_of_string str) in
  n <> 36%nat -> n <> 45%nat -> n <> 38%nat -> n <> 32%nat ->
  Parse str = None.
Proof.
  intros n H36 H45 H38 H32. unfold Parse. fold n.
  do 46 (destruct n as [|n]; [done|]). done.
Qed.

(** [uuid.Parse] succeeds exactly on the forms of [decoded]. *)
Lemma Parse_decoded (str : string) :
  is_Some (Parse str) <-> decoded str = true.
Proof.
  set (s := list_ascii_of_string str).
  assert (forall pat, length s <> length pat -> matches pat s = false) as Hno.
  { intros pat Hne. destruct (matches pat s) eqn:Hm; [|done].
    by apply matches_length in Hm. }
  unfold decoded, has_form. cbn [existsb]. fold s. rewrite orb_false_r.
  destruct (decide (length s = 36%nat)) as [H36|H36].
  { unfold Parse. fold s. rewrite H36.
    rewrite (Hno (list_ascii_of_string "urn:uuid:xxxxxxxx-xxxx-xxxx-xxxx-xxxxxxxxxxxx"))
      by (rewrite H36; cbn; lia).
    rewrite (Hno (list_ascii_of_string "?xxxxxxxx-xxxx-xxxx-xxxx-xxxxxxxxxxxx?"))
      by (rewrite H36; cbn; lia).
    rewrite (Hno (list_ascii_of_string "xxxxxxxxxxxxxxxxxxxxxxxxxxxxxxxx"))
      by (rewrite H36; cbn; lia).
    rewrite !orb_false_r. rewrite parse36_matches by lia.
    rewrite <- H36, firstn_all. done. }
  destruct (decide (length s = 45%nat)) as [H45|H45].
  { unfold Parse. fold s. rewrite H45.
    rewrite (Hno (list_ascii_of_string "xxxxxxxx-xxxx-xxxx-xxxx-xxxxxxxxxxxx"))
      by (rewrite H45; cbn; lia).
    rewrite (Hno (list_ascii_of_string "?xxxxxxxx-xxxx-xxxx-xxxx-xxxxxxxxxxxx?"))
      by (rewrite H45; cbn; lia).
    rewrite (Hno (list_ascii_of_string "xxxxxxxxxxxxxxxxxxxxxxxxxxxxxxxx"))
      by (rewrite H45; cbn; lia).
    rewrite orb_false_l, !orb_false_r.
    change (list_ascii_of_string "urn:uuid:xxxxxxxx-xxxx-xxxx-xxxx-xxxxxxxxxxxx")
      with (list_ascii_of_string "urn:uuid:" ++ pat36)%list.
    rewrite matches_app.
    change (length (list_ascii_of_string "urn:uuid:")) with 9%nat.
    rewrite <- EqualFold_matches
      by (repeat (constructor; [by vm_compute|]); constructor).
    destruct (EqualFold _ _); [|split; [intros [? ?]; done | done]].
    rewrite orb_true_l || rewrite andb_true_l.
    rewrite parse36_matches by (rewrite length_skipn; lia).
    rewrite firstn_all2 by (rewrite length_skipn; lia). done. }
  destruct (decide (length s = 38%nat)) as [H38|H38].
  { unfold Parse. fold s. rewrite H38.
    rewrite (Hno (list_ascii_of_string "xxxxxxxx-xxxx-xxxx-xxxx-xxxxxxxxxxxx"))
      by (rewrite H38; cbn; lia).
    rewrite (Hno (list_ascii_of_string "urn:uuid:xxxxxxxx-xxxx-xxxx-xxxx-xxxxxxxxxxxx"))
      by (rewrite H38; cbn; lia).
    rewrite (Hno (list_ascii_of_string "xxxxxxxxxxxxxxxxxxxxxxxxxxxxxxxx"))
      by (rewrite H38; cbn; lia).
    rewrite !orb_false_l, !orb_false_r.
    rewrite parse36_matches by (rewrite length_skipn; lia).
    destruct s as [|c0 t] eqn:Hs; [done|]. cbn [skipn].
    change (list_ascii_of_string "?xxxxxxxx-xxxx-xxxx-xxxx-xxxxxxxxxxxx?")
      with ("?"%char :: pat36 ++ ["?"%char])%list.
    cbn [matches]. unfold matches_byte at 1. cbn [Ascii.eqb Bool.eqb andb].
    rewrite matches_app.
    change (length pat36) with 36%nat.
    cbn in H38.
    destruct (skipn 36 t) as [|c37 [|? ?]] eqn:Ht.
    - apply (f_equal length) in Ht. rewrite length_skipn in Ht. cbn in Ht. lia.
    - cbn. rewrite andb_true_r. done.
    - apply (f_equal length) in Ht. rewrite length_skipn in Ht. cbn in Ht. lia. }
  destruct (decide (length s = 32%nat)) as [H32|H32].
  { unfold Parse. fold s. rewrite H32.
    rewrite (Hno (list_ascii_of_string "xxxxxxxx-xxxx-xxxx-xxxx-xxxxxxxxxxxx"))
      by (rewrite H32; cbn; lia).
    rewrite (Hno (list_ascii_of_string "urn:uuid:xxxxxxxx-xxxx-xxxx-xxxx-xxxxxxxxxxxx"))
      by (rewrite H32; cbn; lia).
    rewrite (Hno (list_ascii_of_string "?xxxxxxxx-xxxx-xxxx-xxxx-xxxxxxxxxxxx?"))
      by (rewrite H32; cbn; lia).
    rewrite !orb_false_l.
    by apply hex32_matches. }
  rewrite Parse_other_length by done.
  rewrite !Hno by (cbn; fold s; lia).
  split; [intros [? ?]; done | done].
Qed.

End UUIDTextFacts.

(* ===================================================================== *)
(** * The insecure stateful manager                                       *)
(* ===================================================================== *)

Section ManagerFacts.
Context {UUID Notification Response : Type}
  {libs : GoLibs UUID Notification Response}.

Lemma InsecureStateful_Validate_terminated (sessionID : string) :
  fst (InsecureStateful_Validate sessionID) = false.
Proof.
  unfold InsecureStateful_Validate.
  destruct (negb _); [done|]. by destruct (uuid_Parse _).
Qed.

(** [Validate] accepts exactly the prefix followed by text that
    [uuid.Parse] accepts. *)
Lemma InsecureStateful_Validate_ok (sessionID : string) :
  snd (InsecureStateful_Validate sessionID) = None <->
  exists rest, sessionID = idPrefix +:+ rest /\ is_Some (uuid_Parse rest).
Proof.
  unfold InsecureStateful_Validate. split.
  - destruct (GoString.HasPrefix sessionID idPrefix) eqn:Hp; cbn [negb]; [|done].
    apply GoStringFacts.HasPrefix_inv in Hp.
    destruct (uuid_Parse _) eqn:Hu; [|done].
    intros _. eexists. split; [exact Hp|]. rewrite Hu. eauto.
  - intros (rest & -> & [u Hu]).
    rewrite GoStringFacts.HasPrefix_app. cbn [negb].
    rewrite GoStringFacts.drop_app, Hu. done.
Qed.

End ManagerFacts.

(** Under the uuid package as modelled, [Validate] accepts exactly the
    prefix followed by one of the forms [uuid.Parse] decodes. *)
Lemma InsecureStateful_Validate_decoded (sessionID : string) :
  snd (InsecureStateful_Validate (libs := Sample.libs) sessionID) = None <->
  exists rest, sessionID = idPrefix +:+ rest /\ UUIDText.decoded rest = true.
Proof.
  rewrite InsecureStateful_Validate_ok.
  split; intros (rest & Heq & H); exists rest; (split; [exact Heq|]);
    by apply UUIDTextFacts.Parse_decoded.
Qed.

(** C7, as amended.  Under the insecure stateful manager, on the uuid
    package as modelled: [Validate] of every generated id returns
    (false, nil); [Validate] returns an error on every string that is not
    the prefix [mcp-session-] followed by text in one of the forms
    [uuid.Parse] decodes - the 36 bytes of the hyphenated form, that form
    after [urn:uuid:] in either letter case, that form between two further
    bytes that are not examined, or 32 hexadecimal digits; and [Validate]
    never reports a terminated session. *)
Theorem InsecureStateful_roundtrip :
  let m := InsecureStatefulSessionIdManager (libs := Sample.libs) in
  (forall (u : GoogleUUID.UUID) (ms : unit),
     Validate m ms (fst (Generate m ms u)) = ((false, None), ms))
  /\ (forall (sessionID : string) (ms : unit),
        ~ (exists rest, sessionID = idPrefix +:+ rest
                        /\ UUIDText.decoded rest = true) ->
        exists e, snd (fst (Validate m ms sessionID)) = Some e)
  /\ (forall (sessionID : string) (ms : unit),
        fst (fst (Validate m ms sessionID)) = false).
Proof.
  intros m. subst m. repeat split.
  - intros u ms. cbn [Validate Generate InsecureStatefulSessionIdManager fst].
    f_equal.
    pose proof (InsecureStateful_Validate_terminated (libs := Sample.libs)
                  (InsecureStateful_Generate u)) as Ht.
    assert (snd (InsecureStateful_Validate (libs := Sample.libs)
                   (InsecureStateful_Generate u)) = None) as He.
    { apply InsecureStateful_Validate_ok. exists (GoogleUUID.String u).
      split; [done|]. apply GoogleUUIDFacts.Parse_String. }
    destruct (InsecureStateful_Validate _) as [t e]. cbn in Ht, He. by subst.
  - intros sessionID ms Hno.
    cbn [Validate InsecureStatefulSessionIdManager fst].
    destruct (snd (InsecureStateful_Validate sessionID)) as [e|] eqn:He;
      [eauto|].
    apply InsecureStateful_Validate_decoded in He. contradiction.
  - intros sessionID ms. cbn [Validate InsecureStatefulSessionIdManager fst].
    apply InsecureStateful_Validate_terminated.
Qed.

(** The id generated for the UUID of zero bytes is accepted; an id whose
    text after the prefix has a letter that is no hexadecimal digit is
    rejected. *)
Lemma InsecureStateful_roundtrip_witness :
  Validate (InsecureStatefulSessionIdManager (libs := Sample.libs)) tt
    ("mcp-session-" +:+ Sample.uuid0_text) = ((false, None), tt)
  /\ (exists e,
        snd (fst (Validate
                    (InsecureStatefulSessionIdManager (libs := Sample.libs)) tt
                    "mcp-session-0000000g-0000-0000-0000-000000000000"))
        = Some e).
Proof.
  destruct InsecureStateful_roundtrip as (Hgen & Hrej & _).
  split.
  - exact (Hgen Sample.uuid0 tt).
  - apply Hrej. intros (rest & Heq & Hd).
    apply (f_equal (GoString.drop (String.length idPrefix))) in Heq.
    rewrite GoStringFacts.drop_app in Heq. subst rest.
    vm_compute in Hd. discriminate Hd.
Defined.

(** C7 as stated fails for the id made of the prefix, the byte X, a
    hyphenated UUID and the byte Y: what follows the prefix is no UUID in
    any textual form, yet [Validate] returns (false, nil), since
    [uuid.Parse] drops the first byte of a text of 38 bytes and examines
    the 36 that follow. *)
Lemma InsecureStateful_roundtrip_counterexample :
  let sessionID := "mcp-session-X0123abcd-4567-89ef-0123-456789abcdefY" in
  ~ (exists rest, sessionID = idPrefix +:+ rest
                  /\ UUIDText.syntactically_valid rest = true)
  /\ Validate (InsecureStatefulSessionIdManager (libs := Sample.libs)) tt
       sessionID = ((false, None), tt).
Proof.
  intros sessionID. subst sessionID. split.
  - intros (rest & Heq & Hv).
    apply (f_equal (GoString.drop (String.length idPrefix))) in Heq.
    rewrite GoStringFacts.drop_app in Heq. subst rest.
    vm_compute in Hv. discriminate Hv.
  - vm_compute. reflexivity.
Qed.

(* ===================================================================== *)
(** * Replies of the sequential code                                      *)
(* ===================================================================== *)

Section ReplyFacts.

Lemma status_WriteHeader_fresh (code : Z) (w : ResponseWriter) :
  wroteHeader w = false ->
  status (WriteHeader code w) = code
  /\ sentHeader (WriteHeader code w) = header w
  /\ wroteHeader (WriteHeader code w) = true
  /\ body (WriteHeader code w) = body w.
Proof. intros Hw. unfold WriteHeader. rewrite Hw. done. Qed.

Lemma WriteHeader_sent (code : Z) (w : ResponseWriter) :
  wroteHeader w = true -> WriteHeader code w = w.
Proof. intros Hw. unfold WriteHeader. by rewrite Hw. Qed.


Lemma body_WriteHeader (code : Z) (w : ResponseWriter) :
  body (WriteHeader code w) = body w.
Proof. unfold WriteHeader. by destruct (wroteHeader w). Qed.

Lemma Write_sent (data : string) (w : ResponseWriter) :
  wroteHeader w = true ->
  status (Write data w) = status w
  /\ sentHeader (Write data w) = sentHeader w
  /\ body (Write data w) = (body w ++ [data])%list
  /\ wroteHeader (Write data w) = true.
Proof. intros Hw. unfold Write. rewrite (WriteHeader_sent _ _ Hw). done. Qed.

Lemma body_Write (data : string) (w : ResponseWriter) :
  body (Write data w) = (body w ++ [data])%list.
Proof. unfold Write. cbn. by rewrite body_WriteHeader. Qed.

Lemma body_Flush (w : ResponseWriter) : body (Flush w) = body w.
Proof. unfold Flush. cbn. apply body_WriteHeader. Qed.

(** What [http.Error] sends on a writer that has sent nothing. *)
Lemma http_Error_fresh (fl : bool) (msg : string) (code : Z) :
  let w := http_Error (newResponseWriter fl) msg code in
  status w = code
  /\ sentHeader w !! "Content-Type" = Some "text/plain; charset=utf-8"
  /\ body w = [msg +:+ LF].
Proof. cbn. repeat split. Qed.

End ReplyFacts.

Section HandlerFacts.
Context {UUID Notification Response : Type}
  {libs : GoLibs UUID Notification Response}.
Context {ServerTool S : Type}.
Implicit Types s : @StreamableHTTPServer UUID Notification Response ServerTool S.

(** C6.  A DELETE whose [Terminate] returns an error is answered 500; one
    that is not allowed, 405; otherwise the entries of the session id in
    the tool store, the log level store and the request counters are
    removed and the answer is 200.  Under the two built-in managers a
    DELETE and its repetition are both answered 200 and the entries are
    absent after each. *)
Theorem handleDelete_status_and_purge :
  (forall s (fl : bool) (r : Request),
     let sid := Header_Get (Header r) headerKeySessionID in
     let res := handleDelete s (newResponseWriter fl) r in
     match fst (Terminate (sessionIdManager s) (managerState s) sid) with
     | (_, Some _) => status res.1.1 = StatusInternalServerError
     | (true, None) => status res.1.1 = StatusMethodNotAllowed
     | (false, None) =>
         status res.1.1 = StatusOK
         /\ sessionTools res.1.2 !! sid = None
         /\ sessionLogLevels res.1.2 !! sid = None
         /\ sessionRequestIDs res.1.2 !! sid = None
     end)
  /\ (forall (s : @StreamableHTTPServer UUID Notification Response ServerTool unit)
          (fl fl' : bool) (r : Request),
        sessionIdManager s = StatelessSessionIdManager
        \/ sessionIdManager s = InsecureStatefulSessionIdManager ->
        let sid := Header_Get (Header r) headerKeySessionID in
        let first := handleDelete s (newResponseWriter fl) r in
        let second := handleDelete first.1.2 (newResponseWriter fl') r in
        status first.1.1 = StatusOK
        /\ status second.1.1 = StatusOK
        /\ sessionTools first.1.2 !! sid = None
        /\ sessionLogLevels first.1.2 !! sid = None
        /\ sessionRequestIDs first.1.2 !! sid = None
        /\ sessionTools second.1.2 !! sid = None
        /\ sessionLogLevels second.1.2 !! sid = None
        /\ sessionRequestIDs second.1.2 !! sid = None).
Proof.
  split.
  - intros s fl r sid res. subst res. unfold handleDelete. fold sid.
    destruct (Terminate _ _ sid) as [[[] [e|]] ms]; cbn; try done.
    unfold sessionToolsStore_delete, sessionLogLevelsStore_delete.
    by rewrite !lookup_delete_eq.
  - intros s fl fl' r Hm sid first second. subst first second.
    destruct s as [e tools ids cf m ms hb logs]. cbn in Hm.
    unfold handleDelete. fold sid.
    destruct Hm as [-> | ->]; cbn;
      unfold sessionToolsStore_delete, sessionLogLevelsStore_delete;
      by rewrite !lookup_delete_eq.
Qed.

End HandlerFacts.

(** A server with entries for the session ["s1"] under the insecure
    stateful manager: both DELETE requests for ["s1"] are answered 200. *)
Lemma handleDelete_status_and_purge_witness :
  let s := SetLogLevel (newStreamableHttpSession "s1" ∅) "debug"
             (Sample.newServer InsecureStatefulSessionIdManager tt
                (Sample.engine [] None) 0) in
  let r := Sample.request "DELETE" "" "s1" "" in
  let first := handleDelete s (newResponseWriter true) r in
  let second := handleDelete first.1.2 (newResponseWriter true) r in
  sessionLogLevels s !! "s1" = Some "debug"
  /\ status first.1.1 = 200 /\ status second.1.1 = 200
  /\ sessionLogLevels first.1.2 !! "s1" = None.
Proof.
  intros s r first second.
  destruct (handleDelete_status_and_purge (libs := Sample.libs)
              (ServerTool := string) (S := unit)) as [_ Hrep].
  specialize (Hrep s true true r (or_intror eq_refl)).
  cbv zeta in Hrep. fold first second in Hrep.
  split; [reflexivity|].
  destruct Hrep as (H1 & H2 & _ & H4 & _).
  exact (conj H1 (conj H2 H4)).
Defined.

Section IntakeFacts.
Context {UUID Notification Response : Type}
  {libs : GoLibs UUID Notification Response}.
Context {ServerTool S : Type}.
Implicit Types s : @StreamableHTTPServer UUID Notification Response ServerTool S.

(** What [writeJSONRPCError] sends on a writer that has sent nothing. *)
Lemma writeJSONRPCError_fresh (fl : bool) (id : option string) (code : Z)
  (message : string) :
  let w := (writeJSONRPCError (newResponseWriter fl) id code message).1 in
  status w = StatusBadRequest
  /\ sentHeader w !! "Content-Type" = Some "application/json"
  /\ body w = match json_Marshal (PError id code message) with
              | Some j => [j +:+ LF]
              | None => []
              end.
Proof.
  unfold writeJSONRPCError, json_Encode, createErrorResponse.
  destruct (json_Marshal _); cbn; repeat split.
Qed.

(** C2, as the code has it.  A POST whose Content-Type does not parse to
    the media type application/json is answered 400 with the plain text
    "Invalid content type: must be 'application/json'"; a POST whose body
    cannot be read, or is rejected by json.Unmarshal, is answered 400 with
    Content-Type application/json and the JSON-RPC error of code -32700
    and id null.  In the three cases [HandleMessage] is not called and the
    server is unchanged. *)
Theorem handlePost_malformed s (u : UUID) (fl : bool) (r : Request) :
  let res := handlePost s u (newResponseWriter fl) r in
  let mediaType := mime_ParseMediaType (Header_Get (Header r) "Content-Type") in
  let parse_error (message : string) (w : ResponseWriter) :=
    status w = StatusBadRequest
    /\ sentHeader w !! "Content-Type" = Some "application/json"
    /\ body w = match json_Marshal (PError None (-32700) message) with
                | Some j => [j +:+ LF]
                | None => []
                end in
  (mediaType <> Some "application/json" ->
   exists w, res = (PostReturned w [], s, [])
     /\ status w = StatusBadRequest
     /\ sentHeader w !! "Content-Type" = Some "text/plain; charset=utf-8"
     /\ body w = ["Invalid content type: must be 'application/json'" +:+ LF])
  /\ (forall err, mediaType = Some "application/json" -> Body r = inr err ->
      exists w l, res = (PostReturned w l, s, [])
        /\ parse_error ("read request body error: " +:+ err) w)
  /\ (forall rawData, mediaType = Some "application/json" ->
      Body r = inl rawData -> json_Unmarshal_Method rawData = None ->
      exists w l, res = (PostReturned w l, s, [])
        /\ parse_error "request body is not valid json" w).
Proof.
  intros res mediaType parse_error. subst res parse_error.
  unfold handlePost. fold mediaType. repeat split.
  - intros Hbad. eexists. split; [|apply http_Error_fresh].
    destruct mediaType as [m|]; [|done].
    destruct (String.eqb_spec m "application/json") as [->|Hne]; [done|].
    done.
  - intros err -> Hbody. rewrite Hbody. cbn [String.eqb Ascii.eqb Bool.eqb negb].
    pose proof (writeJSONRPCError_fresh fl None PARSE_ERROR
                  ("read request body error: " +:+ err)) as Hw.
    destruct (writeJSONRPCError _ _ _ _) as [w1 l]. eauto.
  - intros rawData -> Hbody Hjson. rewrite Hbody, Hjson.
    cbn [String.eqb Ascii.eqb Bool.eqb negb].
    pose proof (writeJSONRPCError_fresh fl None PARSE_ERROR
                  "request body is not valid json") as Hw.
    destruct (writeJSONRPCError _ _ _ _) as [w1 l]. eauto.
Qed.

(** C3.  For a POST that passed the content type check and whose method
    is not "initialize", the value of the Mcp-Session-Id header is given to
    [Validate]: on an error the answer is 400 with the body
    "Invalid session ID" (and a line feed), on a terminated session 404
    with the body "Session terminated" (and a line feed), and in both cases
    [HandleMessage] is not called. *)
Theorem handlePost_session_check s (u : UUID) (fl : bool) (r : Request)
  (rawData method : string) :
  mime_ParseMediaType (Header_Get (Header r) "Content-Type")
    = Some "application/json" ->
  Body r = inl rawData ->
  json_Unmarshal_Method rawData = Some method ->
  method <> MethodInitialize ->
  let sid := Header_Get (Header r) headerKeySessionID in
  let res := handlePost s u (newResponseWriter fl) r in
  match fst (Validate (sessionIdManager s) (managerState s) sid) with
  | (_, Some _) =>
      exists w, res.1.1 = PostReturned w []
        /\ status w = StatusBadRequest
        /\ body w = ["Invalid session ID" +:+ LF]
        /\ res.2 = [CallValidate sid]
  | (true, None) =>
      exists w, res.1.1 = PostReturned w []
        /\ status w = StatusNotFound
        /\ body w = ["Session terminated" +:+ LF]
        /\ res.2 = [CallValidate sid]
  | (false, None) =>
      exists st, res.1.1 = PostDispatched st
        /\ res.2 = [CallValidate sid; CallHandleMessage rawData]
  end.
Proof.
  intros Hct Hbody Hjson Hm sid res. subst res.
  unfold handlePost. rewrite Hct, Hbody, Hjson. fold sid.
  cbn [String.eqb Ascii.eqb Bool.eqb negb].
  destruct (String.eqb_spec method MethodInitialize) as [->|_]; [done|].
  destruct (Validate _ _ sid) as [[[] [e|]] ms]; cbn [fst snd];
    eexists; repeat split.
Qed.

(** C10.  [handleGet] calls nothing but the engine's [RegisterSession]
    and [UnregisterSession] - no method of the session id manager -
    whatever the manager; the session id is the Mcp-Session-Id header, and
    the text of a new UUID exactly when that is empty; when the
    registration succeeds the status is 200 with Content-Type
    text/event-stream, and on a writer that can flush the stream is
    open. *)
Theorem handleGet_no_validation s (u : UUID) (fl : bool) (r : Request) :
  let hdr := Header_Get (Header r) headerKeySessionID in
  let sid := if String.eqb hdr "" then uuid_String u else hdr in
  let session := newStreamableHttpSession sid (fst <$> Query r) in
  let res := handleGet s u (newResponseWriter fl) r in
  (exists rest, res.2 = CallRegisterSession sid :: rest
     /\ (rest = [] \/ rest = [CallUnregisterSession sid]))
  /\ (RegisterSession (server s) session = None ->
      match res.1 with
      | GetReturned w =>
          fl = false /\ status w = StatusOK
          /\ sentHeader w !! "Content-Type" = Some "text/event-stream"
      | GetStreaming st =>
          fl = true /\ status (gw st) = StatusOK
          /\ sentHeader (gw st) !! "Content-Type" = Some "text/event-stream"
          /\ gsessionID st = sid /\ getMainPc st = GLoop
          /\ requestIDs st = sessionRequestIDs s
      end).
Proof.
  intros hdr sid session res. subst res. unfold handleGet. fold hdr sid session.
  destruct (RegisterSession (server s) session) as [e|].
  - split; [eauto|done].
  - destruct fl; cbn; split; eauto 10.
Qed.

End IntakeFacts.

(** A request with Content-Type text/plain, one whose body cannot be read
    and one whose body is cut short: each is answered 400 without a call
    of the engine. *)
Lemma handlePost_malformed_witness :
  let s := Sample.newServer InsecureStatefulSessionIdManager tt
             (Sample.engine [] None) 0 in
  (exists w,
     handlePost s Sample.uuid0 (newResponseWriter true)
       (Sample.request "POST" "text/plain" "" Sample.call_body)
     = (PostReturned w [], s, [])
     /\ status w = 400
     /\ sentHeader w !! "Content-Type" = Some "text/plain; charset=utf-8"
     /\ body w = ["Invalid content type: must be 'application/json'" +:+ LF])
  /\ (exists w l,
        handlePost s Sample.uuid0 (newResponseWriter true)
          {| Method := "POST";
             Header := Sample.headers "application/json" "";
             Body := inr "unexpected EOF"; Query := ∅ |}
        = (PostReturned w l, s, []) /\ status w = 400)
  /\ (exists w l,
        handlePost s Sample.uuid0 (newResponseWriter true)
          (Sample.request "POST" "application/json" "" "[1,")
        = (PostReturned w l, s, []) /\ status w = 400).
Proof.
  intros s. repeat split.
  - apply (handlePost_malformed (libs := Sample.libs) s Sample.uuid0 true
             (Sample.request "POST" "text/plain" "" Sample.call_body)).
    vm_compute. discriminate.
  - destruct (handlePost_malformed (libs := Sample.libs) s Sample.uuid0 true
                {| Method := "POST";
                   Header := Sample.headers "application/json" "";
                   Body := inr "unexpected EOF"; Query := ∅ |})
      as (_ & Herr & _).
    destruct (Herr "unexpected EOF" eq_refl eq_refl) as (w & l & Hres & Hst & _).
    exists w, l. split; [exact Hres | exact Hst].
  - destruct (handlePost_malformed (libs := Sample.libs) s Sample.uuid0 true
                (Sample.request "POST" "application/json" "" "[1,"))
      as (_ & _ & Hjson).
    destruct (Hjson "[1," eq_refl eq_refl eq_refl) as (w & l & Hres & Hst & _).
    exists w, l. split; [exact Hres | exact Hst].
Defined.

(** C2 as stated fails at a POST with Content-Type text/plain: the answer
    is 400 but Content-Type is text/plain and the body is the plain
    message, where the JSON-RPC error would start with a brace. *)
Lemma handlePost_malformed_counterexample :
  let s := Sample.newServer InsecureStatefulSessionIdManager tt
             (Sample.engine [] None) 0 in
  let r := Sample.request "POST" "text/plain" "" Sample.call_body in
  mime_ParseMediaType (Header_Get (Header r) "Content-Type") = Some "text/plain"
  /\ exists w,
       handlePost s Sample.uuid0 (newResponseWriter true) r
       = (PostReturned w [], s, [])
       /\ sentHeader w !! "Content-Type" <> Some "application/json"
       /\ forall message j,
            json_Marshal (PError None PARSE_ERROR message) = Some j ->
            body w <> [j +:+ LF].
Proof.
  intros s r. split; [reflexivity|].
  eexists. split; [reflexivity|]. split.
  - vm_compute. discriminate.
  - intros message j Hj. cbn in Hj. injection Hj as <-.
    vm_compute. discriminate.
Qed.

(** A POST of tools/call without session id under the insecure stateful
    manager is answered 400; under a manager that reports every id as
    terminated it is answered 404. *)
Lemma handlePost_session_check_witness :
  (exists w,
     (handlePost (Sample.newServer InsecureStatefulSessionIdManager tt
                    (Sample.engine [] None) 0)
        Sample.uuid0 (newResponseWriter true)
        (Sample.request "POST" "application/json" "" Sample.call_body)).1.1
     = PostReturned w []
     /\ status w = 400 /\ body w = ["Invalid session ID" +:+ LF])
  /\ (exists w,
        (handlePost (Sample.newServer Sample.strictManager tt
                       (Sample.engine [] None) 0)
           Sample.uuid0 (newResponseWriter true)
           (Sample.request "POST" "application/json" "abc" Sample.call_body)).1.1
        = PostReturned w []
        /\ status w = 404 /\ body w = ["Session terminated" +:+ LF]).
Proof.
  split.
  - destruct (handlePost_session_check (libs := Sample.libs)
                (Sample.newServer InsecureStatefulSessionIdManager tt
                   (Sample.engine [] None) 0)
                Sample.uuid0 true
                (Sample.request "POST" "application/json" "" Sample.call_body)
                Sample.call_body "tools/call" eq_refl eq_refl eq_refl)
      as (w & Hres & Hst & Hb & _); [discriminate|].
    exists w. exact (conj Hres (conj Hst Hb)).
  - destruct (handlePost_session_check (libs := Sample.libs)
                (Sample.newServer Sample.strictManager tt
                   (Sample.engine [] None) 0)
                Sample.uuid0 true
                (Sample.request "POST" "application/json" "abc" Sample.call_body)
                Sample.call_body "tools/call" eq_refl eq_refl eq_refl)
      as (w & Hres & Hst & Hb & _); [discriminate|].
    exists w. exact (conj Hres (conj Hst Hb)).
Defined.

(** A GET with the malformed session id "bogus", under a manager whose
    [Validate] reports every id as terminated: the stream opens with
    status 200 for the session "bogus". *)
Lemma handleGet_no_validation_witness :
  let s := Sample.newServer Sample.strictManager tt (Sample.engine [] None) 0 in
  let r := Sample.request "GET" "" "bogus" "" in
  Validate (sessionIdManager s) (managerState s) "bogus" = ((true, None), tt)
  /\ exists st,
       handleGet s Sample.uuid0 (newResponseWriter true) r
       = (GetStreaming st, [CallRegisterSession "bogus"])
       /\ status (gw st) = 200 /\ gsessionID st = "bogus".
Proof.
  intros s r. split; [reflexivity|].
  destruct (handleGet_no_validation (libs := Sample.libs) s Sample.uuid0 true r) as [_ Hopen].
  specialize (Hopen eq_refl).
  eexists. split; [reflexivity|].
  cbn in Hopen. destruct Hopen as (_ & Hst & _ & Hsid & _).
  exact (conj Hst Hsid).
Defined.

(* ===================================================================== *)
(** * The two goroutines of a POST                                        *)
(* ===================================================================== *)

Section PostFacts.
Context {UUID Notification Response : Type}
  {libs : GoLibs UUID Notification Response}.

Lemma body_sseHeaders (w : ResponseWriter) : body (sseHeaders w) = body w.
Proof. unfold sseHeaders. by rewrite body_WriteHeader. Qed.

Lemma notification_frames_app (a b : list Notification) :
  notification_frames (a ++ b) = (notification_frames a ++ notification_frames b)%list.
Proof. unfold notification_frames. apply omap_app. Qed.

Lemma reader_section_frame (nt : Notification) (st : PostState) :
  let st' := reader_section nt st in
  mainPc st' = mainPc st /\ readerPc st' = readerPc st
  /\ notificationChannel st' = notificationChannel st /\ mu st' = mu st
  /\ done st' = done st /\ ctxErr st' = ctxErr st
  /\ upgradeToSSE st' = upgradeToSSE st.
Proof.
  unfold reader_section, writeSSEEvent.
  destruct (done st) eqn:Hd; [done|].
  destruct (json_Marshal _), (upgradedHeader st); cbn;
    repeat match goal with |- context [if ?b then _ else _] => destruct b end;
    done.
Qed.

Lemma body_reader_section (nt : Notification) (st : PostState) :
  done st = false ->
  body (w (reader_section nt st))
  = (body (w st) ++ notification_frames [nt])%list.
Proof.
  intros Hd. unfold reader_section, writeSSEEvent, notification_frames.
  rewrite Hd. cbn [omap list_omap].
  destruct (json_Marshal _), (upgradedHeader st); cbn;
    repeat match goal with |- context [if ?b then _ else _] => destruct b end;
    cbn;
    rewrite ?body_WriteHeader, ?body_Flush, ?body_Write, ?body_sseHeaders,
      ?body_WriteHeader, ?app_nil_r; done.
Qed.

Lemma final_section_frame (r : Response) (st : PostState) :
  let st' := final_section r st in
  mainPc st' = mainPc st /\ readerPc st' = readerPc st
  /\ notificationChannel st' = notificationChannel st /\ mu st' = mu st
  /\ done st' = done st /\ ctxErr st' = ctxErr st
  /\ upgradeToSSE st' = upgradeToSSE st.
Proof.
  unfold final_section, writeSSEEvent, json_Encode.
  destruct (ctxErr st) eqn:Hc; [done|].
  destruct (upgradeToSSE st) eqn:Hu, (json_Marshal _); cbn; done.
Qed.

(** The final write appends at most one chunk: the response as an event,
    or as a JSON line. *)
Lemma body_final_section (r : Response) (st : PostState) :
  exists fin,
    body (w (final_section r st)) = (body (w st) ++ fin)%list
    /\ (fin = []
        \/ exists j, json_Marshal (PResponse r) = Some j
             /\ (fin = [sseFrame j] \/ fin = [j +:+ LF])).
Proof.
  unfold final_section, writeSSEEvent, json_Encode.
  destruct (ctxErr st); [exists []; by rewrite app_nil_r; auto|].
  destruct (upgradeToSSE st), (json_Marshal _) as [j|]; cbn.
  - exists [sseFrame j]. rewrite body_WriteHeader.
    destruct (upgradedHeader st); rewrite ?body_sseHeaders; eauto 10.
  - exists []. rewrite app_nil_r.
    destruct (upgradedHeader st); rewrite ?body_sseHeaders; eauto.
  - exists [j +:+ LF]. rewrite !body_WriteHeader.
    destruct (_ && _); cbn; eauto 10.
  - exists []. rewrite app_nil_r, !body_WriteHeader.
    destruct (_ && _); cbn; eauto.
Qed.


Lemma post_inv_start (fl isInit : bool) (sid : string)
  (script : list EngineAct) (resp : option Response) :
  post_inv fl (script_notifications script) resp
    (post_start (newResponseWriter fl) isInit sid (script, resp)).
Proof.
  split; cbn; try done.
  exists 0%nat, []. cbn. auto.
Qed.

Lemma mainPc_reader_section nt st : mainPc (reader_section nt st) = mainPc st.
Proof. apply reader_section_frame. Qed.
Lemma readerPc_reader_section nt st : readerPc (reader_section nt st) = readerPc st.
Proof. apply reader_section_frame. Qed.
Lemma channel_reader_section nt st :
  notificationChannel (reader_section nt st) = notificationChannel st.
Proof. apply reader_section_frame. Qed.
Lemma mu_reader_section nt st : mu (reader_section nt st) = mu st.
Proof. apply reader_section_frame. Qed.
Lemma done_reader_section nt st : done (reader_section nt st) = done st.
Proof. apply reader_section_frame. Qed.
Lemma ctxErr_reader_section nt st : ctxErr (reader_section nt st) = ctxErr st.
Proof. apply reader_section_frame. Qed.
Lemma upgradeToSSE_reader_section nt st :
  upgradeToSSE (reader_section nt st) = upgradeToSSE st.
Proof. apply reader_section_frame. Qed.

Lemma mainPc_final_section r st : mainPc (final_section r st) = mainPc st.
Proof. apply final_section_frame. Qed.
Lemma readerPc_final_section r st : readerPc (final_section r st) = readerPc st.
Proof. apply final_section_frame. Qed.
Lemma channel_final_section r st :
  notificationChannel (final_section r st) = notificationChannel st.
Proof. apply final_section_frame. Qed.
Lemma mu_final_section r st : mu (final_section r st) = mu st.
Proof. apply final_section_frame. Qed.
Lemma done_final_section r st : done (final_section r st) = done st.
Proof. apply final_section_frame. Qed.
Lemma ctxErr_final_section r st : ctxErr (final_section r st) = ctxErr st.
Proof. apply final_section_frame. Qed.
Lemma upgradeToSSE_final_section r st :
  upgradeToSSE (final_section r st) = upgradeToSSE st.
Proof. apply final_section_frame. Qed.

Ltac post_frame :=
  rewrite ?mainPc_reader_section, ?readerPc_reader_section,
    ?channel_reader_section, ?mu_reader_section, ?done_reader_section,
    ?ctxErr_reader_section, ?upgradeToSSE_reader_section,
    ?mainPc_final_section, ?readerPc_final_section, ?channel_final_section,
    ?mu_final_section, ?done_final_section, ?ctxErr_final_section,
    ?upgradeToSSE_final_section.

Ltac step_cases Hstep :=
  repeat match type of Hstep with
         | context [match ?x with _ => _ end] => destruct x eqn:?
         end;
  simplify_eq.

(** A step that writes nothing and keeps [k] and [fin]. *)
Ltac keep_body Hb :=
  destruct Hb as (k & fin & Hbody & Heq & Hfin);
  exists k, fin; cbn; post_frame;
  rewrite ?body_WriteHeader;
  split; [exact Hbody|];
  split;
  [ intros Hdone; try discriminate Hdone; try congruence;
    specialize (Heq Hdone);
    cbn in Heq |- *; rewrite <- ?app_assoc in *; cbn in Heq |- *;
    try exact Heq
  | destruct Hfin as [Hfin | [Hcond Hfin]];
    [ by left
    | right; split; [|exact Hfin];
      destruct Hcond as [Hpc | Hdn];
      [ try discriminate Hpc; try (left; congruence); try (right; congruence)
      | by right ] ] ].

Lemma take_S_of_split {A : Type} (l : list A) (k : nat) (x : A) (r : list A) :
  (take k l ++ x :: r)%list = l -> take (S k) l = (take k l ++ [x])%list.
Proof.
  intros Heq. apply take_S_r.
  assert (length (take k l) = k) as Hlen.
  { rewrite length_take. apply Nat.min_l.
    apply (f_equal length) in Heq. rewrite length_app, length_take in Heq.
    cbn in Heq. lia. }
  rewrite <- Heq at 1. by apply list_lookup_middle.
Qed.

Lemma reader_section_done (nt : Notification) (st : PostState) :
  done st = true -> reader_section nt st = st.
Proof. intros Hd. unfold reader_section. by rewrite Hd. Qed.

Lemma sse_sent_Write (fl : bool) (data : string) (w : ResponseWriter) :
  sse_sent fl w -> sse_sent fl (Write data w).
Proof.
  intros (Hw & Hs & Hh).
  destruct (Write_sent data w Hw) as (Es & Eh & _ & Ew).
  unfold sse_sent. by rewrite Es, Eh, Ew.
Qed.

Lemma sse_sent_Flush (fl : bool) (w : ResponseWriter) :
  sse_sent fl w -> sse_sent fl (Flush w).
Proof.
  intros (Hw & Hs & Hh). unfold Flush, sse_sent.
  rewrite (WriteHeader_sent _ _ Hw). done.
Qed.

Lemma sse_sent_sseHeaders (fl : bool) :
  sse_sent fl (sseHeaders (newResponseWriter fl)).
Proof. done. Qed.

Lemma reader_section_header (fl : bool) (nt : Notification) (st : PostState) :
  done st = false ->
  (if upgradedHeader st then sse_sent fl (w st)
   else w st = newResponseWriter fl) ->
  upgradedHeader (reader_section nt st) = true
  /\ sse_sent fl (w (reader_section nt st)).
Proof.
  intros Hd Hh. unfold reader_section, writeSSEEvent. rewrite Hd.
  assert (sse_sent fl (if upgradedHeader st then w st else sseHeaders (w st)))
    as Hw1.
  { destruct (upgradedHeader st); [done|]. rewrite Hh. apply sse_sent_sseHeaders. }
  destruct (json_Marshal _) as [j|]; cbn.
  - split; [done|].
    destruct (isFlusher _);
      [apply sse_sent_Flush|]; by apply sse_sent_Write.
  - split; [done|].
    destruct (isFlusher _); [apply sse_sent_Flush|]; done.
Qed.

Lemma post_inv_step (fl : bool) (E : list Notification)
  (resp : option Response) (a : Action) (st st' : PostState) :
  post_inv fl E resp st -> post_step a st = Some st' -> post_inv fl E resp st'.
Proof.
  intros [Hmm Hmr Hd Hu Hc Hb Hh] Hstep.
  unfold post_step in Hstep.
  split.
  1-5: clear Hb Hh; destruct a; step_cases Hstep; cbn;
       post_frame; cbn in *;
       intuition (try congruence; try discriminate).
  - destruct a; step_cases Hstep; try (keep_body Hb; fail).
    + (* the final write *)
      destruct Hb as (k & fin & Hbody & Heq & Hfin).
      assert (done st = false) as Hdone.
      { destruct (done st); [|done]. destruct Hd as [|]; done. }
      assert (fin = []) as ->.
      { destruct Hfin as [|[[|] _]]; [done|done|congruence]. }
      destruct (body_final_section response st) as (fin' & Hbody' & Hfin').
      exists k, fin'. cbn. post_frame.
      split; [by rewrite Hbody', Hbody, app_nil_r|].
      split; [intros _; by apply Heq|].
      destruct Hfin' as [->|(j & Hj & Hfin')]; [by left|].
      right. split; [by left|]. cbn in Hc. eauto.
    + (* the reader's write *)
      destruct Hb as (k & fin & Hbody & Heq & Hfin).
      assert (mu st = Some HReader) as Hmu by (by apply Hmr).
      destruct (done st) eqn:Hdone.
      * rewrite reader_section_done by done.
        exists k, fin. cbn. rewrite Hdone.
        split; [done|]. split; [done|].
        destruct Hfin as [|[_ Hfin]]; [by left|]. right. by split; [right|].
      * assert (fin = []) as ->.
        { destruct Hfin as [|[[Hpc|] _]]; [done| |done].
          rewrite Hpc in Hmm. cbn in Hmm.
          assert (mu st = Some HMain) by (by apply Hmm). congruence. }
        specialize (Heq eq_refl). cbn in Heq.
        exists (Datatypes.S k), []. cbn. post_frame.
        rewrite (take_S_of_split _ _ _ _ Heq).
        split.
        { rewrite body_reader_section by done.
          by rewrite Hbody, notification_frames_app, !app_nil_r. }
        split; [|by left].
        intros _. by rewrite <- app_assoc.
  - destruct a; step_cases Hstep; cbn; post_frame;
      try (cbn in Hh; exact Hh); try done.
    intros Hbf.
    assert (done st = false) as Hdone.
    { destruct (done st); [|done].
      destruct Hd as [Hpc|Hpc]; [done| |]; rewrite Hpc in Hbf; done. }
    destruct (reader_section_header fl nt st Hdone (Hh Hbf)) as [-> Hs].
    exact Hs.
Qed.

Lemma post_inv_run (fl isInit : bool) (sid : string)
  (script : list EngineAct) (resp : option Response)
  (acts : list Action) (st : PostState) :
  post_run acts (post_start (newResponseWriter fl) isInit sid (script, resp))
    = Some st ->
  post_inv fl (script_notifications script) resp st.
Proof.
  generalize (post_inv_start fl isInit sid script resp).
  generalize (post_start (newResponseWriter fl) isInit sid (script, resp)).
  induction acts as [|a acts IH]; intros st0 Hinv Hrun; cbn in Hrun.
  - by simplify_eq.
  - destruct (post_step a st0) as [st1|] eqn:Hstep; [|done].
    eapply IH; [|exact Hrun]. by eapply post_inv_step.
Qed.





(** What the final write sends. *)
Lemma final_section_sent (fl : bool) (E : list Notification)
  (resp : option Response) (st : PostState) (r : Response) (j : string) :
  post_inv fl E resp st ->
  mainPc st = MLocked r ->
  ctxErr st = false ->
  json_Marshal (PResponse r) = Some j ->
  let st' := final_section r st in
  (upgradeToSSE st = true ->
   body (w st') = (body (w st) ++ [sseFrame j])%list
   /\ status (w st') = StatusOK
   /\ sentHeader (w st') = header (sseHeaders (newResponseWriter fl)))
  /\ (upgradeToSSE st = false -> upgradedHeader st = false ->
      body (w st') = [j +:+ LF]
      /\ status (w st') = StatusOK
      /\ sentHeader (w st') !! "Content-Type" = Some "application/json"
      /\ sentHeader (w st') !! headerKeySessionID
         = if isInitializeRequest st && negb (String.eqb (postSessionID st) "")
           then Some (postSessionID st) else None).
Proof.
  intros Hinv Hpc Hctx Hj st'. subst st'.
  pose proof (inv_header _ _ _ _ Hinv) as Hh. rewrite Hpc in Hh.
  specialize (Hh I).
  unfold final_section, writeSSEEvent, json_Encode. rewrite Hctx, Hj.
  split.
  - intros ->.
    assert (sse_sent fl (if upgradedHeader st then w st else sseHeaders (w st)))
      as Hw1.
    { destruct (upgradedHeader st); [done|]. rewrite Hh. done. }
    assert (body (if upgradedHeader st then w st else sseHeaders (w st))
            = body (w st)) as Hb1.
    { destruct (upgradedHeader st); [done|]. apply body_sseHeaders. }
    cbn. rewrite body_WriteHeader, Hb1.
    destruct (sse_sent_Write fl (sseFrame j) _ Hw1) as (_ & Hs & Hsent).
    done.
  - intros -> Hup. rewrite Hup in Hh. rewrite Hh.
    destruct (isInitializeRequest st && _); cbn; repeat split.
Qed.


(** C4, where the code departs from it.  Whatever the interleaving, a
    final write under the upgrade flag leaves the response without
    Mcp-Session-Id header, also for an initialize request with a
    generated session id; the header is sent only in the JSON branch. *)
Theorem post_sse_response_lacks_session_id (fl isInit : bool) (sid : string)
  (script : list EngineAct) (resp : option Response)
  (acts : list Action) (st : PostState) (r : Response) (j : string) :
  post_run acts (post_start (newResponseWriter fl) isInit sid (script, resp))
    = Some st ->
  mainPc st = MLocked r ->
  ctxErr st = false ->
  json_Marshal (PResponse r) = Some j ->
  exists st', post_step AMainWrite st = Some st'
    /\ (upgradeToSSE st = true ->
        body (w st') = (body (w st) ++ [sseFrame j])%list
        /\ sentHeader (w st') !! headerKeySessionID = None)
    /\ (upgradeToSSE st = false -> upgradedHeader st = false ->
        sentHeader (w st') !! headerKeySessionID
        = if isInitializeRequest st && negb (String.eqb (postSessionID st) "")
          then Some (postSessionID st) else None).
Proof.
  intros Hrun Hpc Hctx Hj.
  pose proof (post_inv_run _ _ _ _ _ _ _ Hrun) as Hinv.
  destruct (final_section_sent _ _ _ _ _ _ Hinv Hpc Hctx Hj) as [Hsse Hjson].
  eexists. split; [unfold post_step; rewrite Hpc; reflexivity|]. cbn.
  split.
  - intros Hup. destruct (Hsse Hup) as (Hb & Hs & Hh).
    rewrite Hh. done.
  - intros Hup Hhd. destruct (Hjson Hup Hhd) as (_ & _ & _ & Hsid). done.
Qed.


(** X1.  Mutual exclusion on the mutex of a POST.  In every state a POST
    can reach, the handler and the notification reader are never both
    inside their critical sections; the mutex is free exactly when neither
    is; and a handler that has returned does not hold it. *)
Theorem post_mutual_exclusion (fl isInit : bool) (sid : string)
  (script : list EngineAct) (resp : option Response)
  (acts : list Action) (st : PostState) :
  post_run acts (post_start (newResponseWriter fl) isInit sid (script, resp))
    = Some st ->
  ~ (main_holds (mainPc st) /\ reader_holds (readerPc st))
  /\ (mu st = None <->
      ~ main_holds (mainPc st) /\ ~ reader_holds (readerPc st))
  /\ (mainPc st = MReturned -> mu st <> Some HMain).
Proof.
  intros Hrun. pose proof (post_inv_run _ _ _ _ _ _ _ Hrun) as [Hm Hr _ _ _ _ _].
  split; [|split].
  - intros [H1 H2]. apply Hm in H1. apply Hr in H2. congruence.
  - split.
    + intros Hn. split; intros H; [apply Hm in H | apply Hr in H]; congruence.
    + intros [H1 H2]. destruct (mu st) as [[]|] eqn:Hmu; [| |done].
      * exfalso. by apply H1, Hm.
      * exfalso. by apply H2, Hr.
  - intros Hpc Hmu. apply Hm in Hmu. by rewrite Hpc in Hmu.
Qed.

(** The handler's final phase runs to the end. *)
Lemma post_final_phase (fl : bool) (E : list Notification)
  (resp : option Response) (st : PostState) (r : Response) :
  post_inv fl E resp st ->
  mainPc st = MWaitLock r ->
  mu st = None ->
  exists st',
    post_run [AMainLock; AMainWrite; AMainCloseDone; AMainUnlock] st = Some st'
    /\ mainPc st' = MReturned /\ done st' = true /\ mu st' = None
    /\ readerPc st' = readerPc st.
Proof.
  intros Hinv Hpc Hmu.
  set (st1 := set_mainPc (MLocked r) (set_mu (Some HMain) st)).
  set (st2 := set_mainPc MCloseDone (final_section r st1)).
  set (st3 := set_mainPc MUnlock (set_done true st2)).
  set (st4 := set_mainPc MReturned (set_mu None st3)).
  assert (post_step AMainLock st = Some st1) as H1.
  { unfold post_step. by rewrite Hpc, Hmu. }
  assert (post_step AMainWrite st1 = Some st2) as H2 by done.
  assert (post_step AMainCloseDone st2 = Some st3) as H3 by done.
  assert (post_step AMainUnlock st3 = Some st4) as H4 by done.
  exists st4. split.
  - cbn [post_run]. by rewrite H1, H2, H3, H4.
  - subst st4 st3 st2 st1. cbn. post_frame. done.
Qed.

(** X2.  The final write cannot be locked out.  From every reachable
    state in which the handler waits for the mutex with the engine's
    response, at most five steps - the end of the reader's critical
    section if it holds the mutex, then the handler's lock, final write,
    [close(done)] and unlock - bring the handler to its return, with [done]
    closed and the mutex free. *)
Theorem post_final_write_can_complete (fl isInit : bool) (sid : string)
  (script : list EngineAct) (resp : option Response)
  (acts : list Action) (st : PostState) (r : Response) :
  post_run acts (post_start (newResponseWriter fl) isInit sid (script, resp))
    = Some st ->
  mainPc st = MWaitLock r ->
  exists acts' st',
    (length acts' <= 5)%nat
    /\ post_run acts' st = Some st'
    /\ mainPc st' = MReturned /\ done st' = true /\ mu st' = None.
Proof.
  intros Hrun Hpc. pose proof (post_inv_run _ _ _ _ _ _ _ Hrun) as Hinv.
  destruct (mu st) as [[]|] eqn:Hmu.
  - exfalso. apply (inv_mu_main _ _ _ _ Hinv) in Hmu. by rewrite Hpc in Hmu.
  - pose proof Hmu as Hrd. apply (inv_mu_reader _ _ _ _ Hinv) in Hrd.
    destruct (readerPc st) as [|nt|nt|] eqn:Hr; try done.
    assert (post_step AReaderWrite st
            = Some (set_readerPc RSelect (set_mu None (reader_section nt st))))
      as Hstep.
    { unfold post_step. rewrite Hr. by destruct (mainPc st). }
    destruct (post_final_phase fl (script_notifications script) resp
                (set_readerPc RSelect (set_mu None (reader_section nt st))) r)
      as (st' & Hrun' & H1 & H2 & H3 & _).
    + eapply post_inv_step; [exact Hinv | exact Hstep].
    + cbn. by post_frame.
    + done.
    + exists (AReaderWrite :: [AMainLock; AMainWrite; AMainCloseDone; AMainUnlock]), st'.
      split; [cbn; lia|]. split; [|done].
      change (post_run (AReaderWrite :: ?l) st)
        with (match post_step AReaderWrite st with
              | Some st1 => post_run l st1
              | None => None
              end).
      by rewrite Hstep.
  - destruct (post_final_phase fl (script_notifications script) resp st r
                Hinv Hpc Hmu) as (st' & Hrun' & H1 & H2 & H3 & _).
    exists [AMainLock; AMainWrite; AMainCloseDone; AMainUnlock], st'.
    split; [cbn; lia|]. done.
Qed.




Lemma post_run_invariant_from (fl : bool) (E : list Notification)
  (resp : option Response)
  (P : PostState (Notification := Notification) (Response := Response) -> Prop)
  (st0 : PostState) :
  post_inv fl E resp st0 ->
  P st0 ->
  (forall a st st',
     post_inv fl E resp st -> P st -> post_step a st = Some st' -> P st') ->
  forall acts st, post_run acts st0 = Some st -> P st.
Proof.
  intros Hinv H0 Hstep acts. revert st0 Hinv H0.
  induction acts as [|a acts IH]; intros st0 Hinv HP st Hrun; cbn in Hrun.
  - by simplify_eq.
  - destruct (post_step a st0) as [st1|] eqn:Hs; [|done].
    eapply IH; [|  |exact Hrun].
    + by eapply post_inv_step.
    + by eapply Hstep.
Qed.

Lemma final_section_cancelled (r : Response) (st : PostState) :
  ctxErr st = true -> final_section r st = st.
Proof. intros Hc. unfold final_section. by rewrite Hc. Qed.

Lemma cancelled_step (fl : bool) (E : list Notification)
  (resp : option Response) (a : Action) (st st' : PostState) :
  post_inv fl E resp st ->
  ctxErr st = true /\ only_notifications E st ->
  post_step a st = Some st' ->
  ctxErr st' = true /\ only_notifications E st'.
Proof.
  intros Hinv [Hc (k & Hbody & Heq)] Hstep.
  unfold post_step in Hstep.
  destruct a; step_cases Hstep;
    rewrite ?final_section_cancelled by done;
    (split; [cbn; post_frame; done|]).
  all: try (exists k; cbn; post_frame; rewrite ?body_WriteHeader;
            split; [exact Hbody|];
            intros Hdone;
            first [ discriminate Hdone
                  | congruence
                  | specialize (Heq Hdone); cbn in Heq |- *;
                    rewrite <- ?app_assoc in *; cbn in Heq |- *;
                    exact Heq ]).
  (* the reader's write *)
  destruct (done st) eqn:Hdone.
  - rewrite reader_section_done by done. exists k. cbn. by rewrite Hdone.
  - specialize (Heq eq_refl). cbn in Heq.
    exists (Datatypes.S k). cbn. post_frame.
    rewrite (take_S_of_split _ _ _ _ Heq).
    split.
    + rewrite body_reader_section by done.
      by rewrite Hbody, notification_frames_app.
    + intros _. by rewrite <- app_assoc.
Qed.

(** X4.  A cancelled request gets no response (lines 336-338).  When the
    request context is cancelled before the handler's final write, then
    whatever happens afterwards the context stays cancelled and the body
    holds frames of notifications only: the engine's response is never
    written. *)
Theorem post_cancelled_writes_no_response (fl isInit : bool) (sid : string)
  (script : list EngineAct) (resp : option Response)
  (acts acts' : list Action) (st st' : PostState) :
  post_run acts (post_start (newResponseWriter fl) isInit sid (script, resp))
    = Some st ->
  ctxErr st = true ->
  before_final (mainPc st) ->
  post_run acts' st = Some st' ->
  ctxErr st' = true
  /\ exists k : nat,
       body (w st')
       = notification_frames (take k (script_notifications script)).
Proof.
  intros Hrun Hc Hbf Hrun'.
  pose proof (post_inv_run _ _ _ _ _ _ _ Hrun) as Hinv.
  assert (ctxErr st' = true
          /\ only_notifications (script_notifications script) st')
    as [Hc' (k & Hb & _)]; [|eauto].
  revert acts' st' Hrun'.
  apply (post_run_invariant_from fl (script_notifications script) resp);
    [exact Hinv| |].
  - split; [done|].
    destruct (inv_body _ _ _ _ Hinv) as (k & fin & Hb & Heq & Hfin).
    exists k.
    assert (fin = []) as ->.
    { destruct Hfin as [|[[Hpc|Hd] _]]; [done| |].
      - by rewrite Hpc in Hbf.
      - destruct (inv_done _ _ _ _ Hinv Hd) as [Hpc|Hpc]; by rewrite Hpc in Hbf. }
    by rewrite app_nil_r in Hb.
  - intros a s1 s2. apply cancelled_step.
Qed.

Lemma writer_ok_Header_Set (isInit : bool) (sid k v : string)
  (w : ResponseWriter) :
  k <> headerKeySessionID ->
  writer_ok isInit sid w -> writer_ok isInit sid (Header_Set k v w).
Proof.
  intros Hk [Hh Hs]. split; [|done].
  unfold session_header_ok. cbn. by rewrite lookup_insert_ne.
Qed.

Lemma writer_ok_Header_Set_sid (sid : string) (w : ResponseWriter) :
  sid <> "" ->
  writer_ok true sid w -> writer_ok true sid (Header_Set headerKeySessionID sid w).
Proof.
  intros Hk [Hh Hs]. split; [|done].
  unfold session_header_ok. cbn. by rewrite lookup_insert_eq.
Qed.

Lemma writer_ok_WriteHeader (isInit : bool) (sid : string) (code : Z)
  (w : ResponseWriter) :
  writer_ok isInit sid w -> writer_ok isInit sid (WriteHeader code w).
Proof.
  intros [Hh Hs]. unfold WriteHeader. by destruct (wroteHeader w).
Qed.

Lemma writer_ok_Write (isInit : bool) (sid data : string)
  (w : ResponseWriter) :
  writer_ok isInit sid w -> writer_ok isInit sid (Write data w).
Proof.
  intros H. apply (writer_ok_WriteHeader _ _ StatusOK) in H.
  unfold Write. exact H.
Qed.

Lemma writer_ok_Flush (isInit : bool) (sid : string) (w : ResponseWriter) :
  writer_ok isInit sid w -> writer_ok isInit sid (Flush w).
Proof.
  intros H. apply (writer_ok_WriteHeader _ _ StatusOK) in H.
  unfold Flush. exact H.
Qed.

Lemma writer_ok_sseHeaders (isInit : bool) (sid : string)
  (w : ResponseWriter) :
  writer_ok isInit sid w -> writer_ok isInit sid (sseHeaders w).
Proof.
  intros H. unfold sseHeaders.
  apply writer_ok_WriteHeader.
  repeat (apply writer_ok_Header_Set; [done|]). exact H.
Qed.

Lemma header_inv_reader_section (isInit : bool) (sid : string)
  (nt : Notification) (st : PostState) :
  header_inv isInit sid st -> header_inv isInit sid (reader_section nt st).
Proof.
  intros [Hi Hs Hw]. unfold reader_section, writeSSEEvent.
  destruct (done st); [done|].
  assert (writer_ok isInit sid
            (if upgradedHeader st then w st else sseHeaders (w st))) as Hw1.
  { destruct (upgradedHeader st); [done|]. by apply writer_ok_sseHeaders. }
  destruct (json_Marshal _); cbn;
    (split; [done|done|]); cbn;
    destruct (isFlusher _);
    repeat first [apply writer_ok_Flush | apply writer_ok_Write]; done.
Qed.

Lemma header_inv_final_section (isInit : bool) (sid : string)
  (r : Response) (st : PostState) :
  header_inv isInit sid st -> header_inv isInit sid (final_section r st).
Proof.
  intros [Hi Hs Hw]. unfold final_section, writeSSEEvent, json_Encode.
  destruct (ctxErr st); [done|].
  destruct (upgradeToSSE st).
  - assert (writer_ok isInit sid
              (if upgradedHeader st then w st else sseHeaders (w st))) as Hw1.
    { destruct (upgradedHeader st); [done|]. by apply writer_ok_sseHeaders. }
    destruct (json_Marshal _); cbn; (split; [done|done|]); cbn;
      [by apply writer_ok_Write | done].
  - assert (writer_ok isInit sid
              (WriteHeader StatusOK
                 (if isInitializeRequest st
                     && negb (String.eqb (postSessionID st) "")
                  then Header_Set headerKeySessionID (postSessionID st)
                         (Header_Set "Content-Type" "application/json" (w st))
                  else Header_Set "Content-Type" "application/json" (w st))))
      as Hw1.
    { apply writer_ok_WriteHeader. rewrite Hi, Hs.
      destruct isInit; cbn; [|by apply writer_ok_Header_Set].
      destruct (String.eqb_spec sid "") as [->|Hne]; cbn;
        [by apply writer_ok_Header_Set|].
      apply writer_ok_Header_Set_sid; [done|].
      by apply writer_ok_Header_Set. }
    destruct (json_Marshal _); cbn; (split; [done|done|]); cbn;
      [by apply writer_ok_Write | done].
Qed.

Lemma header_inv_step (isInit : bool) (sid : string) (a : Action)
  (st st' : PostState) :
  header_inv isInit sid st -> post_step a st = Some st' ->
  header_inv isInit sid st'.
Proof.
  intros Hinv Hstep. unfold post_step in Hstep.
  destruct a; step_cases Hstep;
    try (destruct Hinv; by split).
  - destruct Hinv as [? ? Hw]. split; [done|done|].
    by apply writer_ok_WriteHeader.
  - apply (header_inv_final_section _ _ response) in Hinv.
    destruct Hinv. by split.
  - apply (header_inv_reader_section _ _ nt) in Hinv.
    destruct Hinv. by split.
Qed.

Lemma header_inv_run (fl isInit : bool) (sid : string)
  (run : list EngineAct * option Response)
  (acts : list Action) (st : PostState) :
  post_run acts (post_start (newResponseWriter fl) isInit sid run) = Some st ->
  header_inv isInit sid st.
Proof.
  assert (header_inv isInit sid
            (post_start (newResponseWriter fl) isInit sid run)) as H0.
  { by split. }
  revert H0. generalize (post_start (newResponseWriter fl) isInit sid run).
  induction acts as [|a acts IH]; intros st0 H0 Hrun; cbn in Hrun.
  - by simplify_eq.
  - destruct (post_step a st0) as [st1|] eqn:Hs; [|done].
    eapply IH; [|exact Hrun]. by eapply header_inv_step.
Qed.

End PostFacts.




(** An initialize request under the insecure stateful manager whose
    handler raises the upgrade flag: the response is an event frame under
    a header without Mcp-Session-Id, although the session id
    [mcp-session-00000000-0000-0000-0000-000000000000] was generated. *)
Lemma post_sse_response_lacks_session_id_witness :
  let s := Sample.newServer InsecureStatefulSessionIdManager tt
             (Sample.engine [Sample.upgrade] (Some Sample.result7)) 0 in
  let r := Sample.request "POST" "application/json" "" Sample.initialize_body in
  exists st0 st st',
    (handlePost s Sample.uuid0 (newResponseWriter true) r).1.1
    = PostDispatched st0
    /\ (handlePost s Sample.uuid0 (newResponseWriter true) r).2
       = [CallGenerate; CallHandleMessage Sample.initialize_body]
    /\ isInitializeRequest st0 = true
    /\ postSessionID st0 = "mcp-session-" +:+ Sample.uuid0_text
    /\ post_run [AEngine; AEngineReturn; AMainLock] st0 = Some st
    /\ post_step AMainWrite st = Some st'
    /\ status (w st') = 200
    /\ body (w st') = [sseFrame Sample.result7]
    /\ sentHeader (w st') !! "Mcp-Session-Id" = None.
Proof.
  intros s r. subst s r.
  edestruct (post_sse_response_lacks_session_id (libs := Sample.libs) true true
               ("mcp-session-" +:+ Sample.uuid0_text)
               [Sample.upgrade] (Some Sample.result7)
               [AEngine; AEngineReturn; AMainLock])
    as (st' & Hstep & Hsse & _);
    [vm_compute; reflexivity | vm_compute; reflexivity
      | vm_compute; reflexivity | vm_compute; reflexivity |].
  destruct (Hsse eq_refl) as (Hb & Hsid).
  eexists _, _, st'. split; [vm_compute; reflexivity|].
  split; [vm_compute; reflexivity|].
  split; [vm_compute; reflexivity|]. split; [vm_compute; reflexivity|].
  split; [vm_compute; reflexivity|].
  split; [exact Hstep|].
  split; [|split; [exact Hb | exact Hsid]].
  vm_compute in Hstep. injection Hstep as <-. reflexivity.
Defined.

(* ===================================================================== *)
(** * The listening stream                                                *)
(* ===================================================================== *)

Section GetFacts.
Context {UUID Notification Response : Type}
  {libs : GoLibs UUID Notification Response}.
Implicit Types st : GetState (Notification := Notification)
                             (Response := Response).

Lemma wrap64_small (z : Z) : - 2^63 <= z < 2^63 -> wrap64 z = z.
Proof. intros Hz. unfold wrap64. rewrite Z.mod_small; lia. Qed.

Lemma seqZ_prefix (l1 l2 : list Z) (a : Z) (n : nat) :
  (l1 ++ l2)%list = seqZ a (Z.of_nat n) ->
  l1 = seqZ a (Z.of_nat (length l1)).
Proof.
  intros Heq. apply list_eq. intros i.
  destruct (decide (i < length l1)%nat) as [Hi|Hi].
  - rewrite lookup_seqZ_lt by lia.
    assert ((l1 ++ l2)%list !! i = l1 !! i) as Hl by (by apply lookup_app_l).
    rewrite Heq in Hl.
    destruct (l1 !! i) as [x|] eqn:Hx.
    + apply lookup_seqZ in Hl. destruct Hl as [-> _]. done.
    + apply lookup_ge_None in Hx. lia.
  - rewrite lookup_seqZ_ge by lia. apply lookup_ge_None. lia.
Qed.

Lemma request_ids_app (a b : list (Payload Notification Response)) :
  request_ids (a ++ b) = (request_ids a ++ request_ids b)%list.
Proof. apply omap_app. Qed.

Lemma frames_app (a b : list (Payload Notification Response)) :
  frames (a ++ b) = (frames a ++ frames b)%list.
Proof. apply omap_app. Qed.

Lemma counter_at_next_other (x sid : string) (ids : gmap string Z) :
  x <> sid ->
  counter_at (sessionRequestIDs_next x ids).2 sid = counter_at ids sid.
Proof.
  intros Hne. unfold counter_at, sessionRequestIDs_next. cbn.
  by rewrite lookup_insert_ne.
Qed.

Lemma counter_at_delete_other (x sid : string) (ids : gmap string Z) :
  x <> sid -> counter_at (delete x ids) sid = counter_at ids sid.
Proof. intros Hne. unfold counter_at. by rewrite lookup_delete_ne. Qed.

Lemma sessionRequestIDs_next_spec (sid : string) (ids : gmap string Z) :
  let c := counter_at ids sid in
  sessionRequestIDs_next sid ids = (wrap64 (c + 1), <[sid := wrap64 (c + 1)]> ids).
Proof. reflexivity. Qed.

Ltac gstep_cases Hstep :=
  repeat match type of Hstep with
         | context [match ?x with _ => _ end] => destruct x eqn:?
         end;
  simplify_eq.

Lemma writeSSEEvent_body (w0 : ResponseWriter) (data : Payload Notification Response) :
  body (writeSSEEvent w0 data).1 = (body w0 ++ frames [data])%list
  /\ (is_Some (writeSSEEvent w0 data).2 -> frames [data] = []).
Proof.
  unfold writeSSEEvent, frames. cbn [omap list_omap].
  destruct (json_Marshal data) as [j|]; cbn.
  - rewrite body_WriteHeader. split; [done|]. intros [? ?]; done.
  - by rewrite app_nil_r.
Qed.

Lemma foreign_next_ne (sid x : string) :
  foreign (Notification := Notification) sid (GOtherNext x) = true -> x <> sid.
Proof. cbn. destruct (String.eqb_spec x sid); [done|auto]. Qed.

Lemma foreign_delete_ne (sid x : string) :
  foreign (Notification := Notification) sid (GOtherDelete x) = true -> x <> sid.
Proof. cbn. destruct (String.eqb_spec x sid); [done|auto]. Qed.

Ltac gsimpl :=
  cbn -[request_ids frames counter_at seqZ Z.of_nat Z.add
        sessionRequestIDs_next writeSSEEvent].

(** A step that leaves the pings where they are. *)
Ltac keep_pings written rest n :=
  exists written, rest, n;
  repeat (split; [solve [done | lia | eauto]|]);
  try solve [done | intros; eauto].

Lemma get_inv_step (sid : string) (c0 : Z) (m : nat) (a : GetAction) st st' :
  - 2^63 <= c0 -> c0 + Z.of_nat m + 1 < 2^63 ->
  get_inv sid c0 m st ->
  foreign sid a = true ->
  get_step a st = Some st' ->
  get_inv sid c0 (Datatypes.S m) st'.
Proof.
  intros Hlo Hhi [Hsid Hdone Hp] Hfor Hstep.
  unfold get_step in Hstep.
  split.
  - destruct a; gstep_cases Hstep; cbn; done.
  - destruct a; gstep_cases Hstep; cbn in *; intuition congruence.
  - destruct Hp as (written & rest & n & Hbody & Hids & Hcnt & Hn & Hrest).
    subst sid. destruct a.
    + (* GNotify *)
      gstep_cases Hstep. gsimpl. keep_pings written rest n.
    + (* GFwdRecv *)
      gstep_cases Hstep. gsimpl. keep_pings written rest n.
    + (* GFwdSend *)
      gstep_cases Hstep. gsimpl. keep_pings written rest n.
      intros Hg. rewrite request_ids_app, (Hrest Hg). cbn.
      by rewrite app_nil_r.
    + (* GFwdDone *)
      gstep_cases Hstep; gsimpl; keep_pings written rest n.
    + (* GTick *)
      destruct (pingerPc st) eqn:Hpc; try discriminate Hstep.
      rewrite sessionRequestIDs_next_spec in Hstep.
      rewrite Hcnt in Hstep.
      rewrite wrap64_small in Hstep by lia. simplify_eq. gsimpl.
      exists written, (rest ++ [c0 + Z.of_nat n + 1])%list, (Datatypes.S n).
      split; [done|]. split.
      { rewrite app_assoc, Hids, seqZ_S. do 2 f_equal. lia. }
      split.
      { unfold counter_at. rewrite lookup_insert_eq. lia. }
      split; [lia|].
      intros Hg. rewrite (Hrest Hg). cbn. by rewrite app_nil_r.
    + (* GPingSend *)
      gstep_cases Hstep. gsimpl. keep_pings written rest n.
      intros Hg. rewrite (Hrest Hg), request_ids_app. cbn.
      by rewrite app_nil_r.
    + (* GPingDone *)
      gstep_cases Hstep; gsimpl; keep_pings written rest n.
      all: intros Hg; rewrite (Hdone eq_refl) in Hg; done.
    + (* GMainWrite *)
      destruct (getMainPc st) eqn:Hpc; [|done].
      destruct (writeChan st) as [|data wc] eqn:Hwc; [done|].
      cbn -[writeSSEEvent] in Hstep.
      destruct (writeSSEEvent_body (gw st) data) as [Hwb Hwe].
      destruct (writeSSEEvent (gw st) data) as [w1 [e|]] eqn:Hw;
        simplify_eq; gsimpl; cbn [fst snd] in Hwb, Hwe.
      * exists written, rest, n.
        rewrite Hwe, app_nil_r in Hwb by eauto.
        rewrite Hwb. repeat (split; [first [done | lia]|]). done.
      * exists (written ++ [data])%list,
               (request_ids wc ++ request_ids (ping_in_hand (pingerPc st)))%list,
               n.
        rewrite body_WriteHeader, Hwb, frames_app, Hbody.
        split; [done|]. split.
        { rewrite <- Hids, (Hrest eq_refl), request_ids_app.
          change (data :: wc) with ([data] ++ wc)%list.
          by rewrite request_ids_app, <- !app_assoc. }
        repeat (split; [first [done | lia]|]). done.
    + (* GMainCtxDone *)
      gstep_cases Hstep. gsimpl. keep_pings written rest n.
    + (* GCancel *)
      gstep_cases Hstep. gsimpl. keep_pings written rest n.
    + (* GOtherNext *)
      apply foreign_next_ne in Hfor. simplify_eq. gsimpl.
      rewrite counter_at_next_other by done. keep_pings written rest n.
    + (* GOtherDelete *)
      apply foreign_delete_ne in Hfor. simplify_eq. gsimpl.
      rewrite counter_at_delete_other by done. keep_pings written rest n.
Qed.

Lemma get_inv_run (sid : string) (c0 : Z) (acts : list GetAction) :
  forall (m : nat) st st',
    - 2^63 <= c0 -> c0 + Z.of_nat (m + length acts) < 2^63 ->
    get_inv sid c0 m st ->
    forallb (foreign sid) acts = true ->
    get_run acts st = Some st' ->
    get_inv sid c0 (m + length acts) st'.
Proof.
  induction acts as [|a acts IH]; intros m st st' Hlo Hhi Hinv Hfor Hrun;
    cbn in Hrun, Hfor.
  - simplify_eq. by rewrite Nat.add_0_r.
  - apply andb_true_iff in Hfor as [Ha Hfor].
    destruct (get_step a st) as [st1|] eqn:Hstep; [|done].
    cbn [length] in *.
    replace (m + Datatypes.S (length acts))%nat
      with (Datatypes.S m + length acts)%nat in * by lia.
    eapply IH; [done|done| |done|done].
    eapply get_inv_step; [done| |done|done|done]. lia.
Qed.

Lemma get_inv_start {ServerTool S : Type}
  (s : @StreamableHTTPServer UUID Notification Response ServerTool S)
  (u : UUID) (fl : bool) (r : Request) st0 :
  streaming (handleGet s u (newResponseWriter fl) r).1 = Some st0 ->
  get_inv (gsessionID st0)
    (counter_at (sessionRequestIDs s) (gsessionID st0)) 0 st0.
Proof.
  unfold handleGet.
  destruct (RegisterSession _ _); [done|].
  destruct fl; cbn; [|done]. intros [= <-].
  split; cbn; [done|done|].
  exists [], [], 0%nat. cbn. repeat split; try done.
  - lia.
  - intros _. by destruct (bool_decide _).
Qed.

(** C8, as the code has it.  [nextRequestID] adds one to the counter of
    the session id, creating it at 0 on first use, stores and returns the
    sum (below 2^63): the first call for a session returns 1, and every
    call one more than the counter held.  On a listening stream the
    pinger gives these values to its pings and the pings are written in
    that order: when no other goroutine touches the counter of the session
    meanwhile, the ids of the requests written on the stream are
    c+1, c+2, ... where c is the value the counter of the session held
    when the stream opened - hence 1, 2, 3, ... exactly when the session
    had no counter then. *)
Theorem heartbeat_ids_follow_counter {ServerTool S : Type} :
  (forall (s : @StreamableHTTPServer UUID Notification Response ServerTool S)
          (sid : string),
     let c := counter_at (sessionRequestIDs s) sid in
     - 2^63 <= c + 1 < 2^63 ->
     (nextRequestID sid s).1 = c + 1
     /\ sessionRequestIDs (nextRequestID sid s).2 !! sid = Some (c + 1)
     /\ (sessionRequestIDs s !! sid = None -> (nextRequestID sid s).1 = 1))
  /\ (forall (s : @StreamableHTTPServer UUID Notification Response ServerTool S)
             (u : UUID) (fl : bool) (r : Request)
             (acts : list GetAction) st0 st,
        streaming (handleGet s u (newResponseWriter fl) r).1 = Some st0 ->
        let c := counter_at (sessionRequestIDs s) (gsessionID st0) in
        forallb (foreign (gsessionID st0)) acts = true ->
        - 2^63 <= c -> c + Z.of_nat (length acts) < 2^63 ->
        get_run acts st0 = Some st ->
        exists (written : list (Payload Notification Response)) (k : nat),
          body (gw st) = frames written
          /\ request_ids written = seqZ (c + 1) (Z.of_nat k)
          /\ (sessionRequestIDs s !! gsessionID st0 = None ->
              request_ids written = seqZ 1 (Z.of_nat k))).
Proof.
  split.
  - intros s sid c Hc. unfold nextRequestID.
    rewrite sessionRequestIDs_next_spec. fold c. cbn.
    rewrite (wrap64_small _ Hc), lookup_insert_eq.
    split; [done|]. split; [done|].
    intros Hnone. subst c. unfold counter_at. by rewrite Hnone.
  - intros s u fl r acts st0 st Hopen c Hfor Hlo Hhi Hrun.
    pose proof (get_inv_start s u fl r st0 Hopen) as Hinv. fold c in Hinv.
    pose proof (get_inv_run _ _ acts 0%nat st0 st Hlo Hhi Hinv Hfor Hrun) as Hinv'.
    destruct (ginv_pings _ _ _ _ Hinv')
      as (written & rest & n & Hbody & Hids & _ & _ & _).
    exists written, (length (request_ids written)).
    split; [done|].
    pose proof (seqZ_prefix _ _ _ _ Hids) as Hpre.
    split; [done|].
    intros Hnone. rewrite Hpre at 1. subst c. unfold counter_at.
    by rewrite Hnone.
Qed.

Lemma notifications_of_app (a b : list (Payload Notification Response)) :
  notifications_of (a ++ b) = (notifications_of a ++ notifications_of b)%list.
Proof. apply omap_app. Qed.

Lemma notified_app (a b : list GetAction) :
  notified (Notification := Notification) (a ++ b)
  = (notified a ++ notified b)%list.
Proof. apply omap_app. Qed.

Lemma life_inv_step (sid : string) (a : GetAction) st st' :
  life_inv sid st -> get_step a st = Some st' -> life_inv sid st'.
Proof.
  intros [Hsid Hl Hr Hf Hp] Hstep. unfold get_step in Hstep.
  destruct a; gstep_cases Hstep; split; cbn in *; intros;
    try done; try (intuition congruence).
  all: destruct Hl as [-> _]; done.
Qed.

Lemma life_inv_run (sid : string) (acts : list GetAction) st st' :
  life_inv sid st -> get_run acts st = Some st' -> life_inv sid st'.
Proof.
  revert st. induction acts as [|a acts IH]; intros st Hinv Hrun; cbn in Hrun.
  - by simplify_eq.
  - destruct (get_step a st) as [st1|] eqn:Hs; [|done].
    eapply IH; [|exact Hrun]. by eapply life_inv_step.
Qed.

Lemma life_inv_start {ServerTool S : Type}
  (s : @StreamableHTTPServer UUID Notification Response ServerTool S)
  (u : UUID) (fl : bool) (r : Request) st0 :
  streaming (handleGet s u (newResponseWriter fl) r).1 = Some st0 ->
  life_inv (gsessionID st0) st0
  /\ (handleGet s u (newResponseWriter fl) r).2
     = [CallRegisterSession (gsessionID st0)].
Proof.
  unfold handleGet.
  destruct (RegisterSession _ _); [done|].
  destruct fl; cbn; [|done]. intros [= <-]. cbn.
  split; [|done]. split; cbn; try done.
  by destruct (bool_decide _).
Qed.




Lemma get_run_app (a b : list GetAction) st :
  get_run (a ++ b) st
  = match get_run a st with
    | Some st1 => get_run b st1
    | None => None
    end.
Proof.
  revert st. induction a as [|x a IH]; intros st; cbn; [done|].
  destruct (get_step x st); [apply IH | done].
Qed.

(** The three parts of [closing_schedule]. *)
Lemma close_loop st :
  exists st1,
    get_run (match getMainPc st with
             | GLoop => [GCancel; GMainCtxDone]
             | GReturned => []
             end) st = Some st1
    /\ getMainPc st1 = GReturned
    /\ (getMainPc st = GReturned -> st1 = st)
    /\ (getMainPc st = GLoop -> gdone st1 = true)
    /\ forwarderPc st1 = forwarderPc st /\ pingerPc st1 = pingerPc st
    /\ gw st1 = gw st.
Proof.
  destruct (getMainPc st) eqn:Hpc.
  - exists (get_return [] (set_gctxDone true st)). split; [|done].
    cbn. unfold get_step. cbn. by rewrite Hpc.
  - exists st. done.
Qed.

Lemma close_forwarder st :
  gdone st = true ->
  exists st1,
    get_run (match forwarderPc st with
             | FSelect | FSend _ => [GFwdDone]
             | FReturned => []
             end) st = Some st1
    /\ forwarderPc st1 = FReturned
    /\ getMainPc st1 = getMainPc st /\ gdone st1 = gdone st
    /\ pingerPc st1 = pingerPc st /\ gw st1 = gw st.
Proof.
  intros Hd. destruct (forwarderPc st) eqn:Hpc.
  1,2: exists (set_forwarderPc FReturned st); split; [|done];
       cbn; unfold get_step; by rewrite Hpc, Hd.
  exists st. done.
Qed.

Lemma close_pinger st :
  gdone st = true ->
  exists st1,
    get_run (match pingerPc st with
             | PTick | PSend _ => [GPingDone]
             | PNotStarted | PReturned => []
             end) st = Some st1
    /\ (pingerPc st1 = PReturned
        \/ (pingerPc st1 = PNotStarted /\ pingerPc st = PNotStarted))
    /\ getMainPc st1 = getMainPc st /\ forwarderPc st1 = forwarderPc st
    /\ gw st1 = gw st.
Proof.
  intros Hd. destruct (pingerPc st) eqn:Hpc.
  2,3: exists (set_pingerPc PReturned st); split; [|by auto];
       cbn; unfold get_step; by rewrite Hpc, Hd.
  all: exists st; split; [done|]; rewrite Hpc; auto.
Qed.

(** The pinger is started exactly when the heartbeat interval is
    positive. *)
Lemma get_step_pinger (a : GetAction) st st' :
  get_step a st = Some st' ->
  pingerPc st' = PNotStarted <-> pingerPc st = PNotStarted.
Proof.
  intros Hstep. unfold get_step in Hstep.
  destruct a; gstep_cases Hstep; cbn; try done; split; congruence.
Qed.

Lemma get_run_pinger (acts : list GetAction) st st' :
  get_run acts st = Some st' ->
  pingerPc st' = PNotStarted <-> pingerPc st = PNotStarted.
Proof.
  revert st. induction acts as [|a acts IH]; intros st Hrun; cbn in Hrun.
  - by simplify_eq.
  - destruct (get_step a st) as [st1|] eqn:Hs; [|done].
    rewrite (IH _ Hrun). by eapply get_step_pinger.
Qed.

Lemma pinger_start {ServerTool S : Type}
  (s : @StreamableHTTPServer UUID Notification Response ServerTool S)
  (u : UUID) (fl : bool) (r : Request) st0 :
  streaming (handleGet s u (newResponseWriter fl) r).1 = Some st0 ->
  pingerPc st0 = PNotStarted <-> listenHeartbeatInterval s <= 0.
Proof.
  unfold handleGet.
  destruct (RegisterSession _ _); [done|].
  destruct fl; cbn; [|done]. intros [= <-]. cbn.
  case_bool_decide; split; try done; lia.
Qed.

(** X6.  A listening stream can always be closed.  From every state a
    stream can reach - also with a full [writeChan], or with the forwarder
    or the pinger waiting to send - the schedule [closing_schedule] runs:
    the client goes away, the loop returns, and the forwarder and the
    pinger return through [done].  The response is not written to on the
    way, and a pinger that does not return was never started, the
    heartbeat interval being at most zero. *)
Theorem get_stream_can_close {ServerTool S : Type}
  (s : @StreamableHTTPServer UUID Notification Response ServerTool S)
  (u : UUID) (fl : bool) (r : Request) (acts : list GetAction) st0 st :
  streaming (handleGet s u (newResponseWriter fl) r).1 = Some st0 ->
  get_run acts st0 = Some st ->
  exists st',
    get_run (closing_schedule st) st = Some st'
    /\ getMainPc st' = GReturned
    /\ forwarderPc st' = FReturned
    /\ (pingerPc st' = PReturned
        \/ (pingerPc st' = PNotStarted /\ listenHeartbeatInterval s <= 0))
    /\ gw st' = gw st.
Proof.
  intros Hopen Hrun.
  destruct (life_inv_start s u fl r st0 Hopen) as [H0 _].
  destruct (life_inv_run _ _ _ _ H0 Hrun) as [_ _ Hr _ _].
  unfold closing_schedule.
  destruct (close_loop st) as (st1 & Hrun1 & Hpc1 & Hsame & Hd1 & Hf1 & Hp1 & Hw1).
  assert (gdone st1 = true) as Hdone1.
  { destruct (getMainPc st) eqn:Hpc; [by apply Hd1|].
    rewrite (Hsame eq_refl). by apply Hr. }
  destruct (close_forwarder st1 Hdone1)
    as (st2 & Hrun2 & Hf2 & Hpc2 & Hd2 & Hp2 & Hw2).
  assert (gdone st2 = true) as Hdone2 by congruence.
  destruct (close_pinger st2 Hdone2) as (st3 & Hrun3 & Hp3 & Hpc3 & Hf3 & Hw3).
  exists st3. split.
  - rewrite get_run_app, Hrun1, get_run_app.
    rewrite <- Hf1, Hrun2. by rewrite <- Hp1, <- Hp2.
  - split; [congruence|]. split; [congruence|]. split; [|congruence].
    destruct Hp3 as [|[Hn3 Hn2]]; [by left|right]. split; [done|].
    apply (pinger_start s u fl r st0 Hopen).
    apply (get_run_pinger _ _ _ Hrun). congruence.
Qed.

Ltac osimpl :=
  cbn -[request_ids frames notifications_of notification_frames notified
        sessionRequestIDs_next writeSSEEvent].

Lemma order_inv_step (sent : list Notification) (a : GetAction) st st' :
  order_inv sent st -> get_step a st = Some st' ->
  order_inv (sent ++ notified [a]) st'.
Proof.
  intros [Hdone Hping (written & rest & Hbody & Hsent & Hrest & Hnp)] Hstep.
  subst sent. unfold get_step in Hstep.
  destruct a.
  - (* GNotify *)
    gstep_cases Hstep. split; osimpl; [by auto|by auto|].
    exists written, (rest ++ [nt])%list. osimpl.
    split; [done|]. split; [by rewrite app_assoc|].
    split; [|done].
    intros Hg. rewrite (Hrest Hg). by rewrite <- !app_assoc.
  - (* GFwdRecv *)
    gstep_cases Hstep. split; osimpl; [by auto|by auto|].
    exists written, rest. osimpl. rewrite app_nil_r.
    split; [done|]. split; [done|]. split; [|done].
    intros Hg. by rewrite (Hrest Hg).
  - (* GFwdSend *)
    gstep_cases Hstep. split; osimpl; [by auto|by auto|].
    exists written, rest. osimpl. rewrite app_nil_r.
    split; [done|]. split; [done|]. split.
    + intros Hg. rewrite (Hrest Hg), notifications_of_app.
      osimpl. by rewrite <- app_assoc.
    + intros Hp. destruct (Hnp Hp) as [? Hw]. split; [done|].
      apply Forall_app. split; [done|]. apply Forall_singleton. by eexists.
  - (* GFwdDone *)
    gstep_cases Hstep; (split; osimpl; [by auto|by auto|]);
      exists written, rest; osimpl; rewrite app_nil_r;
      (split; [done|]); (split; [done|]); (split; [|done]);
      intros Hg; specialize (Hdone eq_refl); congruence.
  - (* GTick *)
    destruct (pingerPc st) eqn:Hpc; try discriminate Hstep.
    rewrite sessionRequestIDs_next_spec in Hstep. simplify_eq.
    split; osimpl; [done| |].
    + intros m [= <-]. by eexists.
    + exists written, rest. osimpl. rewrite app_nil_r. done.
  - (* GPingSend *)
    gstep_cases Hstep. split; osimpl; [by auto|by auto|].
    exists written, rest. osimpl. rewrite app_nil_r.
    split; [done|]. split; [done|]. split; [|done].
    intros Hg. rewrite (Hrest Hg), notifications_of_app.
    destruct (Hping message eq_refl) as [id ->].
    osimpl. by rewrite app_nil_r.
  - (* GPingDone *)
    gstep_cases Hstep; (split; osimpl; [by auto|by auto|]);
      exists written, rest; osimpl; rewrite app_nil_r; done.
  - (* GMainWrite *)
    destruct (getMainPc st) eqn:Hpc; [|done].
    destruct (writeChan st) as [|data wc] eqn:Hwc; [done|].
    cbn -[writeSSEEvent] in Hstep.
    destruct (writeSSEEvent_body (gw st) data) as [Hwb Hwe].
    destruct (writeSSEEvent (gw st) data) as [w1 [e|]] eqn:Hw;
      simplify_eq; cbn [fst snd] in Hwb, Hwe.
    + split; osimpl; [by auto|by auto|].
      exists written, rest. osimpl. rewrite app_nil_r.
      rewrite Hwe, app_nil_r in Hwb by eauto.
      split; [congruence|]. split; [done|]. split; [done|].
      intros Hp. destruct (Hnp Hp) as [? Hq]. split; [done|].
      by apply Forall_cons in Hq as [_ ?].
    + split; osimpl; [intros Hd; rewrite Hpc; by apply Hdone|by auto|].
      specialize (Hrest eq_refl). cbn -[notifications_of] in Hrest.
      exists (written ++ [data])%list,
             (notifications_of wc ++ fwd_in_hand (forwarderPc st)
                ++ gchannel st)%list.
      osimpl. rewrite app_nil_r.
      split; [by rewrite body_WriteHeader, Hwb, frames_app, Hbody|].
      split.
      { rewrite Hrest, notifications_of_app.
        change (data :: wc) with ([data] ++ wc)%list.
        by rewrite notifications_of_app, <- !app_assoc. }
      split; [done|].
      intros Hp. destruct (Hnp Hp) as [Hq1 Hq2].
      apply Forall_cons in Hq2 as [Hq2 Hq3]. split; [|done].
      apply Forall_app. split; [done|]. by apply Forall_singleton.
  - (* GMainCtxDone *)
    gstep_cases Hstep. split; osimpl; [by auto|by auto|].
    exists written, rest. osimpl. rewrite app_nil_r. done.
  - (* GCancel *)
    gstep_cases Hstep. split; osimpl; [by auto|by auto|].
    exists written, rest. osimpl. rewrite app_nil_r. done.
  - (* GOtherNext *)
    gstep_cases Hstep. split; osimpl; [by auto|by auto|].
    exists written, rest. osimpl. rewrite app_nil_r. done.
  - (* GOtherDelete *)
    gstep_cases Hstep. split; osimpl; [by auto|by auto|].
    exists written, rest. osimpl. rewrite app_nil_r. done.
Qed.

Lemma order_inv_run (acts : list GetAction) :
  forall (sent : list Notification) st st',
    order_inv sent st -> get_run acts st = Some st' ->
    order_inv (sent ++ notified acts) st'.
Proof.
  induction acts as [|a acts IH]; intros sent st st' Hinv Hrun; cbn in Hrun.
  - simplify_eq. by rewrite app_nil_r.
  - destruct (get_step a st) as [st1|] eqn:Hs; [|done].
    change (a :: acts) with ([a] ++ acts)%list.
    rewrite notified_app, app_assoc.
    eapply IH; [|exact Hrun]. by eapply order_inv_step.
Qed.

Lemma order_inv_start {ServerTool S : Type}
  (s : @StreamableHTTPServer UUID Notification Response ServerTool S)
  (u : UUID) (fl : bool) (r : Request) st0 :
  streaming (handleGet s u (newResponseWriter fl) r).1 = Some st0 ->
  order_inv [] st0.
Proof.
  unfold handleGet.
  destruct (RegisterSession _ _); [done|].
  destruct fl; cbn; [|done]. intros [= <-].
  split; cbn; [done| |].
  - intros m. by destruct (bool_decide _).
  - exists [], []. cbn. repeat split; by try apply Forall_nil.
Qed.

(** Messages without requests are notifications and responses. *)
Lemma frames_notifications (ms : list (Payload Notification Response)) :
  all_notifications ms ->
  frames ms = notification_frames (notifications_of ms).
Proof.
  induction 1 as [|m ms [nt ->] _ IH]; [done|].
  unfold frames, notification_frames, notifications_of in *.
  cbn. rewrite IH. by destruct (json_Marshal _).
Qed.

(** X7.  Notifications reach a listening stream in the order the engine
    sent them.  In every state of a stream the body is the frames of the
    messages written, and the notifications among these are a prefix of
    the notifications the engine has sent to the session, in the same
    order, without gaps or repetitions; when the heartbeat interval is at
    most zero the body holds nothing but these frames (no ping). *)
Theorem get_notifications_in_order {ServerTool S : Type}
  (s : @StreamableHTTPServer UUID Notification Response ServerTool S)
  (u : UUID) (fl : bool) (r : Request) (acts : list GetAction) st0 st :
  streaming (handleGet s u (newResponseWriter fl) r).1 = Some st0 ->
  get_run acts st0 = Some st ->
  exists (written : list (Payload Notification Response)) (k : nat),
    body (gw st) = frames written
    /\ notifications_of written = take k (notified acts)
    /\ (listenHeartbeatInterval s <= 0 ->
        body (gw st) = notification_frames (take k (notified acts))).
Proof.
  intros Hopen Hrun.
  pose proof (order_inv_start s u fl r st0 Hopen) as H0.
  destruct (order_inv_run _ _ _ _ H0 Hrun)
    as [_ _ (written & rest & Hbody & Hsent & _ & Hnp)].
  cbn in Hsent.
  exists written, (length (notifications_of written)).
  assert (notifications_of written
          = take (length (notifications_of written)) (notified acts)) as Hk.
  { rewrite <- Hsent. by rewrite take_app_length. }
  split; [done|]. split; [done|].
  intros Hhb. rewrite <- Hk, Hbody.
  apply frames_notifications, Hnp.
  apply (get_run_pinger _ _ _ Hrun).
  by apply (pinger_start s u fl r st0 Hopen).
Qed.

End GetFacts.


(** A listening stream of a session without counter, heartbeat 100: three
    ticks give the pings 1, 2, 3, written in this order. *)
Lemma heartbeat_ids_follow_counter_witness :
  let s := Sample.newServer InsecureStatefulSessionIdManager tt
             (Sample.engine [] None) 100 in
  let r := Sample.request "GET" "" "s1" "" in
  exists st0 st,
    streaming (handleGet s Sample.uuid0 (newResponseWriter true) r).1 = Some st0
    /\ get_run [GTick; GPingSend; GTick; GMainWrite; GPingSend; GMainWrite;
                GTick; GPingSend; GMainWrite; GCancel; GMainCtxDone;
                GPingDone; GFwdDone] st0 = Some st
    /\ body (gw st)
       = frames [PRequest 1 "ping"; PRequest 2 "ping"; PRequest 3 "ping"]
    /\ exists written k,
         body (gw st) = frames written
         /\ request_ids written = seqZ 1 (Z.of_nat k).
Proof.
  intros s r. subst s r.
  destruct (heartbeat_ids_follow_counter (libs := Sample.libs)
              (ServerTool := string) (S := unit)) as [_ Hstream].
  edestruct (Hstream
               (Sample.newServer InsecureStatefulSessionIdManager tt
                  (Sample.engine [] None) 100)
               Sample.uuid0 true (Sample.request "GET" "" "s1" "")
               [GTick; GPingSend; GTick; GMainWrite; GPingSend; GMainWrite;
                GTick; GPingSend; GMainWrite; GCancel; GMainCtxDone;
                GPingDone; GFwdDone])
    as (written & k & Hbody & _ & Hids);
    [vm_compute; reflexivity | vm_compute; reflexivity | vm_compute; discriminate
     | vm_compute; reflexivity | vm_compute; reflexivity |].
  eexists _, _. split; [vm_compute; reflexivity|].
  split; [vm_compute; reflexivity|]. split; [vm_compute; reflexivity|].
  exists written, k. split; [exact Hbody|]. apply Hids.
  vm_compute. reflexivity.
Defined.

(** C8 as stated fails for the second listening stream of a session: the
    first stream of "s1" receives the pings 1, 2, 3 and is closed; the
    counter of "s1" stays at 3, and the first ping of the next stream of
    "s1" has the id 4. *)
Lemma heartbeat_ids_counterexample :
  let s := Sample.newServer InsecureStatefulSessionIdManager tt
             (Sample.engine [] None) 100 in
  let r := Sample.request "GET" "" "s1" "" in
  exists st0 st1 st2 st3,
    streaming (handleGet s Sample.uuid0 (newResponseWriter true) r).1 = Some st0
    /\ get_run [GTick; GPingSend; GMainWrite; GTick; GPingSend; GMainWrite;
                GTick; GPingSend; GMainWrite; GCancel; GMainCtxDone;
                GPingDone; GFwdDone] st0 = Some st1
    /\ body (gw st1)
       = frames [PRequest 1 "ping"; PRequest 2 "ping"; PRequest 3 "ping"]
    /\ getMainPc st1 = GReturned
    /\ streaming (handleGet (set_sessionRequestIDs (fun _ => requestIDs st1) s)
                    Sample.uuid0 (newResponseWriter true) r).1 = Some st2
    /\ get_run [GTick; GPingSend; GMainWrite] st2 = Some st3
    /\ body (gw st3) = frames [PRequest 4 "ping"]
    /\ body (gw st3) <> frames [PRequest 1 "ping"].
Proof.
  intros s r. subst s r. eexists _, _, _, _.
  split; [vm_compute; reflexivity|]. split; [vm_compute; reflexivity|].
  split; [vm_compute; reflexivity|]. split; [vm_compute; reflexivity|].
  split; [vm_compute; reflexivity|]. split; [vm_compute; reflexivity|].
  split; [vm_compute; reflexivity|]. vm_compute. discriminate.
Qed.

(* ===================================================================== *)
(** * Sessions under the stateless manager                                *)
(* ===================================================================== *)

Section StatelessFacts.
Context {UUID Notification Response : Type}
  {libs : GoLibs UUID Notification Response}.
Context {ServerTool : Type}.
Implicit Types s : @StreamableHTTPServer UUID Notification Response ServerTool unit.

(** The session id of a POST that reached the engine under the stateless
    manager. *)
Lemma stateless_post_session_id s (u : UUID) (fl : bool) (r : Request)
  (st : PostState) :
  sessionIdManager s = StatelessSessionIdManager ->
  (handlePost s u (newResponseWriter fl) r).1.1 = PostDispatched st ->
  exists rawData method,
    Body r = inl rawData
    /\ json_Unmarshal_Method rawData = Some method
    /\ postSessionID st
       = if String.eqb method MethodInitialize then ""
         else Header_Get (Header r) headerKeySessionID.
Proof.
  destruct s as [e tools ids cf m ms hb logs]. cbn. intros ->.
  unfold handlePost.
  destruct (mime_ParseMediaType _) as [mt|]; [|done].
  destruct (negb _); [done|].
  destruct (Body r) as [rawData|err].
  2:{ destruct (writeJSONRPCError _ _ _ _). done. }
  destruct (json_Unmarshal_Method rawData) as [method|] eqn:Hm.
  2:{ destruct (writeJSONRPCError _ _ _ _). done. }
  exists rawData, method. split; [done|]. split; [done|].
  destruct (String.eqb method MethodInitialize); cbn in *; by simplify_eq.
Qed.

(** C9, as the code has it.  Under the stateless manager the session of a
    POST has the empty id for an initialize request and the value of the
    Mcp-Session-Id header otherwise (empty when the header is absent).
    The tool and log level stores are keyed by session id: what one POST
    session sets is read by another exactly when the two ids are equal,
    and a session with another id reads what it read before. *)
Theorem stateless_sessions_share_by_id s (u1 u2 : UUID) (fl1 fl2 : bool)
  (r1 r2 : Request) (st1 st2 : PostState) :
  sessionIdManager s = StatelessSessionIdManager ->
  (handlePost s u1 (newResponseWriter fl1) r1).1.1 = PostDispatched st1 ->
  (handlePost s u2 (newResponseWriter fl2) r2).1.1 = PostDispatched st2 ->
  let id_of (r : Request) (st : PostState) :=
    exists rawData method,
      Body r = inl rawData
      /\ json_Unmarshal_Method rawData = Some method
      /\ postSessionID st
         = if String.eqb method MethodInitialize then ""
           else Header_Get (Header r) headerKeySessionID in
  let ss1 := newStreamableHttpSession (postSessionID st1) (fst <$> Query r1) in
  let ss2 := newStreamableHttpSession (postSessionID st2) (fst <$> Query r2) in
  id_of r1 st1 /\ id_of r2 st2
  /\ forall (s' : @StreamableHTTPServer UUID Notification Response ServerTool unit)
            (level : string) (tools : option (gmap string ServerTool)),
       if decide (postSessionID st1 = postSessionID st2)
       then GetLogLevel ss2 (SetLogLevel ss1 level s') = level
            /\ GetSessionTools ss2 (SetSessionTools ss1 tools s') = tools
       else GetLogLevel ss2 (SetLogLevel ss1 level s') = GetLogLevel ss2 s'
            /\ GetSessionTools ss2 (SetSessionTools ss1 tools s')
               = GetSessionTools ss2 s'.
Proof.
  intros Hm H1 H2 id_of ss1 ss2. subst id_of.
  split; [by eapply stateless_post_session_id|].
  split; [by eapply stateless_post_session_id|].
  intros s' level tools.
  unfold GetLogLevel, SetLogLevel, GetSessionTools, SetSessionTools,
    sessionLogLevelsStore_get, sessionLogLevelsStore_set,
    sessionToolsStore_get, sessionToolsStore_set. cbn.
  destruct (decide _) as [->|Hne].
  - by rewrite !lookup_insert_eq.
  - by rewrite !lookup_insert_ne.
Qed.

End StatelessFacts.

(** Two tool calls without Mcp-Session-Id header on a stateless server:
    both sessions have the empty id and the second reads the log level
    the first has set. *)
Lemma stateless_sessions_share_by_id_witness :
  let s := Sample.newServer StatelessSessionIdManager tt
             (Sample.engine [] (Some Sample.result7)) 0 in
  let r := Sample.request "POST" "application/json" "" Sample.call_body in
  exists st,
    (handlePost s Sample.uuid0 (newResponseWriter true) r).1.1
    = PostDispatched st
    /\ postSessionID st = ""
    /\ GetLogLevel (newStreamableHttpSession (postSessionID st) ∅)
         (SetLogLevel (newStreamableHttpSession (postSessionID st) ∅)
            "debug" s) = "debug".
Proof.
  intros s r. subst s r.
  eexists. split; [vm_compute; reflexivity|]. split; [vm_compute; reflexivity|].
  edestruct (stateless_sessions_share_by_id (libs := Sample.libs)
               (Sample.newServer StatelessSessionIdManager tt
                  (Sample.engine [] (Some Sample.result7)) 0)
               Sample.uuid0 Sample.uuid0 true true
               (Sample.request "POST" "application/json" "" Sample.call_body)
               (Sample.request "POST" "application/json" "" Sample.call_body))
    as (_ & _ & Hshare);
    [reflexivity | vm_compute; reflexivity | vm_compute; reflexivity |].
  specialize (Hshare
                (Sample.newServer StatelessSessionIdManager tt
                   (Sample.engine [] (Some Sample.result7)) 0)
                "debug" None).
  destruct (decide _) as [_|Hne]; [|exfalso; by apply Hne].
  exact (proj1 Hshare).
Defined.

(** C9 as stated fails on a stateless server for a tool call that carries
    the header Mcp-Session-Id: abc.  Its session has the id "abc", not the
    empty id, and the log level it sets is not read by the session of a
    tool call without the header, which still reads "error". *)
Lemma stateless_sessions_counterexample :
  let s := Sample.newServer StatelessSessionIdManager tt
             (Sample.engine [] (Some Sample.result7)) 0 in
  let r1 := Sample.request "POST" "application/json" "abc" Sample.call_body in
  let r2 := Sample.request "POST" "application/json" "" Sample.call_body in
  exists st1 st2,
    (handlePost s Sample.uuid0 (newResponseWriter true) r1).1.1
    = PostDispatched st1
    /\ (handlePost s Sample.uuid0 (newResponseWriter true) r2).1.1
       = PostDispatched st2
    /\ postSessionID st1 = "abc"
    /\ postSessionID st1 <> ""
    /\ postSessionID st2 = ""
    /\ GetLogLevel (newStreamableHttpSession (postSessionID st2) ∅)
         (SetLogLevel (newStreamableHttpSession (postSessionID st1) ∅)
            "debug" s) = "error"
    /\ GetLogLevel (newStreamableHttpSession (postSessionID st2) ∅)
         (SetLogLevel (newStreamableHttpSession (postSessionID st1) ∅)
            "debug" s) <> "debug".
Proof.
  intros s r1 r2. subst s r1 r2. eexists _, _.
  split; [vm_compute; reflexivity|]. split; [vm_compute; reflexivity|].
  split; [vm_compute; reflexivity|]. split; [vm_compute; discriminate|].
  split; [vm_compute; reflexivity|]. split; [vm_compute; reflexivity|].
  vm_compute. discriminate.
Qed.

(* ===================================================================== *)
(** * Runs of a POST and of a stream, evaluated                            *)
(* ===================================================================== *)

(** The reader has taken the mutex for a notification while the engine
    returns: the handler waits outside its critical section. *)
Lemma post_mutual_exclusion_witness :
  exists st,
    post_run [AEngine; AReaderRecv; AReaderLock; AEngineReturn]
      (post_start (newResponseWriter true) false "s1"
         ([Sample.notify Sample.progress], Some Sample.result7)) = Some st
    /\ mu st = Some HReader
    /\ ~ (main_holds (mainPc st) /\ reader_holds (readerPc st)).
Proof.
  edestruct (post_mutual_exclusion (libs := Sample.libs) true false "s1"
               [Sample.notify Sample.progress] (Some Sample.result7)
               [AEngine; AReaderRecv; AReaderLock; AEngineReturn])
    as (H & _); [vm_compute; reflexivity|].
  eexists. split; [vm_compute; reflexivity|].
  split; [vm_compute; reflexivity|]. exact H.
Defined.

(** The handler waits while the reader holds the mutex for a notification:
    it returns after the reader's section and its own four steps. *)
Lemma post_final_write_can_complete_witness :
  exists st acts' st',
    post_run [AEngine; AReaderRecv; AReaderLock; AEngineReturn]
      (post_start (newResponseWriter true) false "s1"
         ([Sample.notify Sample.progress], Some Sample.result7)) = Some st
    /\ mu st = Some HReader
    /\ post_run acts' st = Some st'
    /\ mainPc st' = MReturned /\ done st' = true /\ mu st' = None.
Proof.
  edestruct (post_final_write_can_complete (libs := Sample.libs)
               true false "s1"
               [Sample.notify Sample.progress] (Some Sample.result7)
               [AEngine; AReaderRecv; AReaderLock; AEngineReturn])
    as (acts' & st' & _ & H);
    [vm_compute; reflexivity | vm_compute; reflexivity |].
  eexists _, acts', st'. split; [vm_compute; reflexivity|].
  split; [vm_compute; reflexivity|]. exact H.
Defined.


(** The context is cancelled after one notification was written and
    before the engine returns: the handler runs its final section and
    returns, and the body is the one notification frame. *)
Lemma post_cancelled_writes_no_response_witness :
  exists st st',
    post_run [AEngine; AReaderRecv; AReaderLock; AReaderWrite; ACancel;
              AEngineReturn; AMainLock]
      (post_start (newResponseWriter true) false "s1"
         ([Sample.notify Sample.progress], Some Sample.result7)) = Some st
    /\ post_run [AMainWrite; AMainCloseDone; AMainUnlock] st = Some st'
    /\ mainPc st' = MReturned
    /\ body (w st') = [sseFrame Sample.progress]
    /\ exists k : nat,
         body (w st') = notification_frames (take k [Sample.progress]).
Proof.
  edestruct (post_cancelled_writes_no_response (libs := Sample.libs)
               true false "s1"
               [Sample.notify Sample.progress] (Some Sample.result7)
               [AEngine; AReaderRecv; AReaderLock; AReaderWrite; ACancel;
                AEngineReturn; AMainLock]
               [AMainWrite; AMainCloseDone; AMainUnlock])
    as (_ & H);
    [vm_compute; reflexivity | vm_compute; reflexivity | exact I
    | vm_compute; reflexivity |].
  eexists _, _. split; [vm_compute; reflexivity|].
  split; [vm_compute; reflexivity|].
  split; [vm_compute; reflexivity|].
  split; [vm_compute; reflexivity|]. exact H.
Defined.


(** The forwarder holds a notification and the pinger a ping when the
    client goes away: four steps end the three goroutines. *)
Lemma get_stream_can_close_witness :
  let s := Sample.newServer InsecureStatefulSessionIdManager tt
             (Sample.engine [] None) 100 in
  let r := Sample.request "GET" "" "s1" "" in
  exists st0 st st',
    streaming (handleGet s Sample.uuid0 (newResponseWriter true) r).1 = Some st0
    /\ get_run [GNotify Sample.progress; GFwdRecv; GTick] st0 = Some st
    /\ closing_schedule st = [GCancel; GMainCtxDone; GFwdDone; GPingDone]
    /\ get_run (closing_schedule st) st = Some st'
    /\ getMainPc st' = GReturned /\ forwarderPc st' = FReturned.
Proof.
  intros s r. subst s r.
  edestruct (get_stream_can_close (libs := Sample.libs)
               (Sample.newServer InsecureStatefulSessionIdManager tt
                  (Sample.engine [] None) 100)
               Sample.uuid0 true (Sample.request "GET" "" "s1" "")
               [GNotify Sample.progress; GFwdRecv; GTick])
    as (st' & H1 & H2 & H3 & _);
    [vm_compute; reflexivity | vm_compute; reflexivity |].
  eexists _, _, st'. split; [vm_compute; reflexivity|].
  split; [vm_compute; reflexivity|].
  split; [vm_compute; reflexivity|].
  exact (conj H1 (conj H2 H3)).
Defined.

(** Two notifications are sent; the first is written, the second is in
    the forwarder's hands. *)
Lemma get_notifications_in_order_witness :
  let s := Sample.newServer InsecureStatefulSessionIdManager tt
             (Sample.engine [] None) 0 in
  let r := Sample.request "GET" "" "s1" "" in
  exists st0 st (k : nat),
    streaming (handleGet s Sample.uuid0 (newResponseWriter true) r).1 = Some st0
    /\ get_run [GNotify Sample.progress; GNotify Sample.result7; GFwdRecv;
                GFwdSend; GMainWrite; GFwdRecv] st0 = Some st
    /\ body (gw st) = [sseFrame Sample.progress]
    /\ body (gw st)
       = notification_frames (take k [Sample.progress; Sample.result7]).
Proof.
  intros s r. subst s r.
  edestruct (get_notifications_in_order (libs := Sample.libs)
               (Sample.newServer InsecureStatefulSessionIdManager tt
                  (Sample.engine [] None) 0)
               Sample.uuid0 true (Sample.request "GET" "" "s1" "")
               [GNotify Sample.progress; GNotify Sample.result7; GFwdRecv;
                GFwdSend; GMainWrite; GFwdRecv])
    as (written & k & _ & _ & H);
    [vm_compute; reflexivity | vm_compute; reflexivity |].
  eexists _, _, k. split; [vm_compute; reflexivity|].
  split; [vm_compute; reflexivity|].
  split; [vm_compute; reflexivity|].
  apply H. vm_compute. discriminate.
Defined.

(* ===================================================================== *)
(** * [strings.Trim]                                                      *)
(* ===================================================================== *)

Module GoStringTrimFacts.
Import GoString GoStringFacts.

Lemma trimLeftByte_first (s : string) (c : ascii) :
  firstByte (trimLeftByte s c) <> Some c.
Proof.
  induction s as [|x s IH]; cbn; [done|].
  destruct (Ascii.eqb_spec x c) as [->|Hne]; [done|].
  cbn. congruence.
Qed.

Lemma trimRightByte_last (s : string) (c : ascii) :
  lastByte (trimRightByte s c) <> Some c.
Proof.
  induction s as [|x s IH]; cbn; [done|].
  destruct (trimRightByte s c) as [|y t] eqn:Ht.
  - destruct (Ascii.eqb_spec x c) as [->|Hne]; cbn; congruence.
  - exact IH.
Qed.

Lemma trimLeftByte_split (s : string) (c : ascii) :
  exists a, s = Repeat c a +:+ trimLeftByte s c.
Proof.
  induction s as [|x s [a IH]]; cbn.
  - by exists 0%nat.
  - destruct (Ascii.eqb_spec x c) as [->|Hne].
    + exists (S a). cbn. rewrite app_cons. by rewrite <- IH.
    + by exists 0%nat.
Qed.

Lemma Repeat_snoc (c : ascii) (n : nat) :
  String c (Repeat c n) = Repeat c n +:+ String c "".
Proof.
  induction n as [|n IH]; [done|].
  cbn [Repeat]. rewrite app_cons. by rewrite <- IH.
Qed.

Lemma trimRightByte_split (s : string) (c : ascii) :
  exists b, s = trimRightByte s c +:+ Repeat c b.
Proof.
  induction s as [|x s [b IH]]; cbn.
  - by exists 0%nat.
  - destruct (trimRightByte s c) as [|y t] eqn:Ht.
    + destruct (Ascii.eqb_spec x c) as [->|Hne].
      * exists (S b). cbn in IH. rewrite IH. by rewrite app_nil.
      * exists b. rewrite app_cons. by rewrite <- IH.
    + exists b. rewrite app_cons. by rewrite <- IH.
Qed.

Lemma lastByte_trimLeftByte (s : string) (c : ascii) :
  lastByte s <> Some c -> lastByte (trimLeftByte s c) <> Some c.
Proof.
  induction s as [|x s IH]; cbn [trimLeftByte]; [done|].
  destruct (Ascii.eqb_spec x c) as [->|Hne]; [|done].
  intros Hl. apply IH. destruct s as [|y s]; [done|]. exact Hl.
Qed.

Lemma trimLeftByte_id (s : string) (c : ascii) :
  firstByte s <> Some c -> trimLeftByte s c = s.
Proof.
  destruct s as [|x s]; cbn; [done|].
  destruct (Ascii.eqb_spec x c) as [->|Hne]; done.
Qed.

Lemma trimRightByte_id (s : string) (c : ascii) :
  lastByte s <> Some c -> trimRightByte s c = s.
Proof.
  induction s as [|x s IH]; [done|].
  intros Hl. cbn [trimRightByte].
  destruct s as [|y s].
  - cbn in *. destruct (Ascii.eqb_spec x c) as [->|Hne]; done.
  - rewrite IH by exact Hl. done.
Qed.

Lemma trimRightByte_app_Repeat (s : string) (c : ascii) (b : nat) :
  trimRightByte (s +:+ Repeat c b) c = trimRightByte s c.
Proof.
  induction s as [|x s IH].
  - rewrite app_nil. induction b as [|b IHb]; [done|].
    cbn [Repeat trimRightByte]. cbn [trimRightByte] in IHb. rewrite IHb.
    by rewrite Ascii.eqb_refl.
  - rewrite app_cons. cbn [trimRightByte]. by rewrite IH.
Qed.

Lemma trimLeftByte_Repeat_app (s : string) (c : ascii) (a : nat) :
  trimLeftByte (Repeat c a +:+ s) c = trimLeftByte s c.
Proof.
  induction a as [|a IH]; [done|].
  cbn [Repeat]. rewrite app_cons. cbn [trimLeftByte].
  by rewrite Ascii.eqb_refl.
Qed.

Lemma append_assoc (a b c : string) : a +:+ b +:+ c = (a +:+ b) +:+ c.
Proof.
  induction a as [|x a IH]; [done|]. by rewrite !app_cons, IH.
Qed.

Lemma append_nil_r (a : string) : a +:+ "" = a.
Proof. induction a as [|x a IH]; [done|]. by rewrite app_cons, IH. Qed.

Lemma lastByte_cons (x : ascii) (s : string) :
  s <> "" -> lastByte (String x s) = lastByte s.
Proof. by destruct s. Qed.

Lemma lastByte_Repeat_app (t : string) (c : ascii) (a : nat) :
  t <> "" -> lastByte (Repeat c a +:+ t) = lastByte t.
Proof.
  intros Ht. induction a as [|a IH]; [done|].
  cbn [Repeat]. rewrite app_cons, lastByte_cons; [done|].
  destruct a; [by rewrite app_nil|]. cbn [Repeat]. by rewrite app_cons.
Qed.

(** [Trim] strips the bytes around a core that neither starts nor ends
    with the byte, and nothing else. *)
Lemma Trim_around (t : string) (c : ascii) (a b : nat) :
  firstByte t <> Some c -> lastByte t <> Some c ->
  Trim (Repeat c a +:+ t +:+ Repeat c b) c = t.
Proof.
  intros Hf Hl. unfold Trim.
  destruct t as [|x t].
  - rewrite app_nil.
    assert (forall n, trimRightByte (Repeat c n) c = "") as Hr.
    { intros n. rewrite <- (app_nil (Repeat c n)).
      by rewrite trimRightByte_app_Repeat. }
    assert (Repeat c a +:+ Repeat c b = Repeat c (a + b)) as ->.
    { induction a as [|a IH]; [done|]. cbn [Repeat Nat.add].
      by rewrite app_cons, IH. }
    by rewrite Hr.
  - rewrite append_assoc, trimRightByte_app_Repeat.
    rewrite trimRightByte_id.
    + rewrite trimLeftByte_Repeat_app. by apply trimLeftByte_id.
    + by rewrite lastByte_Repeat_app.
Qed.

Lemma Trim_split (s : string) (c : ascii) :
  exists a b,
    s = Repeat c a +:+ Trim s c +:+ Repeat c b
    /\ firstByte (Trim s c) <> Some c
    /\ lastByte (Trim s c) <> Some c.
Proof.
  destruct (trimRightByte_split s c) as [b Hb].
  destruct (trimLeftByte_split (trimRightByte s c) c) as [a Ha].
  exists a, b. split; [|split].
  - unfold Trim. rewrite append_assoc, <- Ha. exact Hb.
  - apply trimLeftByte_first.
  - apply lastByte_trimLeftByte, trimRightByte_last.
Qed.

End GoStringTrimFacts.

(* ===================================================================== *)
(** * Options, construction, [Start] and [Shutdown]                       *)
(* ===================================================================== *)

Section LifecycleFacts.
Context {UUID Notification Response : Type}
  {libs : GoLibs UUID Notification Response}.
Context {ServerTool Logger Handler : Type}.
Implicit Types s : @Transport UUID Notification Response ServerTool Logger Handler.

(** X8.  [WithEndpointPath] stores a slash followed by the argument without
    its leading and trailing slashes.  The argument is some slashes, a core
    [t] that neither starts nor ends with a slash, and some slashes, and the
    path stored is the slash followed by [t]; every argument with the core
    [t] gives this path; and the option applied to a path it has produced
    gives that path again. *)
Theorem WithEndpointPath_normal_form :
  (forall (p : string) s,
     exists (t : string) (a b : nat),
       endpointPath (WithEndpointPath p s) = "/" +:+ t
       /\ p = GoString.Repeat "/" a +:+ t +:+ GoString.Repeat "/" b
       /\ GoString.firstByte t <> Some "/"%char
       /\ GoString.lastByte t <> Some "/"%char)
  /\ (forall (t : string) (a b : nat) s,
        GoString.firstByte t <> Some "/"%char ->
        GoString.lastByte t <> Some "/"%char ->
        endpointPath
          (WithEndpointPath (GoString.Repeat "/" a +:+ t +:+ GoString.Repeat "/" b) s)
        = "/" +:+ t)
  /\ (forall (p : string) s s',
        endpointPath (WithEndpointPath (endpointPath (WithEndpointPath p s)) s')
        = endpointPath (WithEndpointPath p s)).
Proof.
  split; [|split].
  - intros p s. cbn.
    destruct (GoStringTrimFacts.Trim_split p "/") as (a & b & Hp & Hf & Hl).
    by exists (GoString.Trim p "/"), a, b.
  - intros t a b s Hf Hl. cbn. by rewrite GoStringTrimFacts.Trim_around.
  - intros p s s'. cbn.
    destruct (GoStringTrimFacts.Trim_split p "/") as (a & b & _ & Hf & Hl).
    f_equal.
    apply (GoStringTrimFacts.Trim_around (GoString.Trim p "/") "/" 1 0 Hf) in Hl.
    cbn [GoString.Repeat] in Hl.
    by rewrite GoStringTrimFacts.append_nil_r in Hl.
Qed.

(** X9.  [NewStreamableHTTPServer] starts from the insecure stateful
    manager and applies the options in order, so the last option that sets
    the manager decides.  After [WithStateLess(true)] the manager is the
    stateless one, also when [WithSessionIdManager(m)] came just before;
    after [WithSessionIdManager(m)] it is [m]; [WithStateLess(false)] and
    the five other options leave the manager as it was. *)
Theorem NewStreamableHTTPServer_manager (dl : Logger) (e : MCPServer)
  (opts : list StreamableHTTPOption) :
  let new := NewStreamableHTTPServer (ServerTool := ServerTool)
               (Handler := Handler) dl e in
  managerOf (new []) = insecureStatefulValue
  /\ managerOf (new (opts ++ [WithStateLess true])%list) = statelessValue
  /\ managerOf (new (opts ++ [WithStateLess false])%list) = managerOf (new opts)
  /\ (forall m, managerOf (new (opts ++ [WithSessionIdManager m])%list) = m)
  /\ (forall m,
        managerOf (new (opts ++ [WithSessionIdManager m; WithStateLess true])%list)
        = statelessValue)
  /\ (forall p, managerOf (new (opts ++ [WithEndpointPath p])%list)
                = managerOf (new opts))
  /\ (forall i, managerOf (new (opts ++ [WithHeartbeatInterval i])%list)
                = managerOf (new opts))
  /\ (forall fn, managerOf (new (opts ++ [WithHTTPContextFunc fn])%list)
                 = managerOf (new opts))
  /\ (forall srv, managerOf (new (opts ++ [WithStreamableHTTPServer srv])%list)
                  = managerOf (new opts))
  /\ (forall l, managerOf (new (opts ++ [WithLogger l])%list)
                = managerOf (new opts)).
Proof.
  intros new. subst new. unfold NewStreamableHTTPServer.
  repeat split; try intros x; rewrite ?fold_left_app; try reflexivity.
  by destruct x.
Qed.

Lemma provided_fresh (e : MCPServer) (o : StreamableHTTPOption) s :
  provided o -> fresh e s -> fresh e (o s).
Proof.
  intros Ho Hs. destruct Ho as [p|[]|m|i|fn|srv|l]; exact Hs.
Qed.

Lemma fold_provided_fresh (e : MCPServer) (opts : list StreamableHTTPOption) :
  forall s, Forall provided opts -> fresh e s ->
            fresh e (fold_left (fun s opt => opt s) opts s).
Proof.
  induction opts as [|o opts IH]; intros s Hall Hs; [done|].
  apply Forall_cons in Hall as [Ho Hall]. cbn.
  apply IH; [done|]. by apply provided_fresh.
Qed.

(** X10.  A server built by [NewStreamableHTTPServer] with options of this
    file has no session state, whatever the options: its engine is the one
    given, its mutex is free, and every session reads the log level
    "error" and the nil tool map, and gets the request id 1. *)
Theorem NewStreamableHTTPServer_fresh (dl : Logger) (e : MCPServer)
  (opts : list StreamableHTTPOption) :
  Forall provided opts ->
  let s := NewStreamableHTTPServer (ServerTool := ServerTool)
             (Handler := Handler) dl e opts in
  server (handlers s) = e
  /\ serverMu s = false
  /\ forall ss : streamableHttpSession,
       GetLogLevel ss (handlers s) = LoggingLevelError
       /\ GetSessionTools ss (handlers s) = None
       /\ (nextRequestID (sessionID ss) (handlers s)).1 = 1.
Proof.
  intros Hall s.
  assert (fresh e s) as (He & Ht & Hl & Hi & Hmu).
  { apply fold_provided_fresh; [done|]. by repeat split. }
  split; [done|]. split; [done|]. intros ss.
  unfold GetLogLevel, GetSessionTools, nextRequestID, sessionRequestIDs_next,
    sessionLogLevelsStore_get, sessionToolsStore_get.
  rewrite Ht, Hl, Hi, !lookup_empty. done.
Qed.

(** X11.  [Start(addr)] on a server whose mutex is free and that has no
    [http.Server], or one whose address is empty or is [addr]: the result
    is that of [ListenAndServe] on a server with the address [addr] - a
    new one whose mux routes [endpointPath] to the transport when none was
    given, else the given one with its handler.  The server is stored and
    the mutex released: a following [Shutdown] shuts this server down and a
    second [Start(addr)] serves it again. *)
Theorem Start_serves (addr : string) s :
  serverMu s = false ->
  match httpServer s with
  | None => True
  | Some srv0 => Addr srv0 = "" \/ Addr srv0 = addr
  end ->
  exists srv,
    (Start addr s).1 = StartServing srv
    /\ Addr srv = addr
    /\ SrvHandler srv = match httpServer s with
                        | None => MuxTo (endpointPath s)
                        | Some srv0 => SrvHandler srv0
                        end
    /\ httpServer (Start addr s).2 = Some srv
    /\ serverMu (Start addr s).2 = false
    /\ Shutdown (Start addr s).2 = ShutdownServer srv
    /\ (Start addr (Start addr s).2).1 = StartServing srv.
Proof.
  destruct s as [T h hs mu ep lg]. cbn. intros -> Hsrv.
  unfold Start, Shutdown. cbn.
  destruct hs as [[a hd]|]; cbn in *.
  - destruct (String.eqb_spec a "") as [->|Hne]; cbn.
    + eexists. repeat split.
      destruct (String.eqb_spec addr "") as [->|Hne']; [done|].
      cbn. by rewrite String.eqb_refl.
    + destruct Hsrv as [-> | ->]; [done|]. rewrite String.eqb_refl. cbn.
      eexists. repeat split.
      destruct (String.eqb_spec addr ""); [done|].
      by rewrite String.eqb_refl.
  - eexists. repeat split.
    destruct (String.eqb_spec addr "") as [->|Hne']; [done|].
    cbn. by rewrite String.eqb_refl.
Qed.

(** X12.  [Start(addr)] on a server that has a [http.Server] whose address
    is neither empty nor [addr] returns the error of conflicting listen
    addresses, and it returns with [s.mu] still locked (the return of line
    185 comes before the [Unlock] of line 189): the stored server is
    unchanged, and every later [Start] and [Shutdown] blocks at the
    mutex. *)
Theorem Start_conflict_keeps_lock (addr : string) s (srv0 : HttpServer) :
  serverMu s = false ->
  httpServer s = Some srv0 ->
  Addr srv0 <> "" ->
  Addr srv0 <> addr ->
  (Start addr s).1 = StartConflict (Addr srv0) addr
  /\ serverMu (Start addr s).2 = true
  /\ httpServer (Start addr s).2 = Some srv0
  /\ Shutdown (Start addr s).2 = ShutdownBlocked
  /\ forall addr', Start addr' (Start addr s).2 = (StartBlocked, (Start addr s).2).
Proof.
  destruct s as [T h hs mu ep lg]. cbn. intros -> -> Hne Hne'.
  unfold Start, Shutdown. cbn.
  destruct (String.eqb_spec (Addr srv0) "") as [|_]; [done|].
  destruct (String.eqb_spec (Addr srv0) addr) as [|_]; [done|].
  cbn. repeat split.
Qed.

End LifecycleFacts.

(** The argument [//api/v1/] gives the path [/api/v1]. *)
Lemma WithEndpointPath_normal_form_witness :
  endpointPath
    (WithEndpointPath "//api/v1/"
       (NewStreamableHTTPServer (ServerTool := string) (Handler := unit) tt
          (Sample.engine [] None) []))
  = "/api/v1".
Proof.
  destruct (WithEndpointPath_normal_form (UUID := GoogleUUID.UUID)
              (Notification := string) (Response := string)
              (ServerTool := string) (Logger := unit) (Handler := unit))
    as (_ & Hcore & _).
  apply (Hcore "api/v1" 2%nat 1%nat); vm_compute; discriminate.
Defined.

(** A stateless server with a heartbeat and a path. *)
Lemma NewStreamableHTTPServer_fresh_witness :
  let s := NewStreamableHTTPServer (ServerTool := string) (Handler := unit) tt
             (Sample.engine [] None)
             [WithStateLess true; WithHeartbeatInterval 30;
              WithEndpointPath "api"] in
  GetLogLevel (newStreamableHttpSession "s1" ∅) (handlers s) = "error"
  /\ (nextRequestID "s1" (handlers s)).1 = 1.
Proof.
  intros s.
  destruct (NewStreamableHTTPServer_fresh (libs := Sample.libs)
              (ServerTool := string) (Handler := unit) tt
              (Sample.engine [] None)
              [WithStateLess true; WithHeartbeatInterval 30;
               WithEndpointPath "api"]) as (_ & _ & H).
  { repeat constructor. }
  destruct (H (newStreamableHttpSession "s1" ∅)) as (H1 & _ & H3).
  exact (conj H1 H3).
Defined.

(** A server built with the path [api/] and started on [:8080]. *)
Lemma Start_serves_witness :
  let s := NewStreamableHTTPServer (ServerTool := string) (Handler := unit) tt
             (Sample.engine [] None) [WithEndpointPath "api/"] in
  exists srv,
    (Start ":8080" s).1 = StartServing srv
    /\ Addr srv = ":8080"
    /\ SrvHandler srv = MuxTo "/api"
    /\ Shutdown (Start ":8080" s).2 = ShutdownServer srv.
Proof.
  intros s.
  destruct (Start_serves ":8080" s eq_refl I)
    as (srv & H1 & H2 & H3 & _ & _ & H6 & _).
  exists srv. exact (conj H1 (conj H2 (conj H3 H6))).
Defined.

(** A server started on [:8080] and then on [:9090]: the second [Start]
    reports the conflict and [Shutdown] blocks afterwards. *)
Lemma Start_conflict_keeps_lock_witness :
  let s := NewStreamableHTTPServer (ServerTool := string) (Handler := unit) tt
             (Sample.engine [] None) [] in
  let s1 := (Start ":8080" s).2 in
  (Start ":9090" s1).1 = StartConflict ":8080" ":9090"
  /\ Shutdown (Start ":9090" s1).2 = ShutdownBlocked.
Proof.
  intros s s1.
  destruct (Start_conflict_keeps_lock ":9090" s1
              {| Addr := ":8080"; SrvHandler := MuxTo "/mcp" |}
              eq_refl eq_refl)
    as (H1 & _ & _ & H4 & _); [discriminate | discriminate |].
  exact (conj H1 H4).
Defined.

(* ===================================================================== *)
(** * Dispatch and the sequential parts of the handlers                   *)
(* ===================================================================== *)

Section DispatchFacts.
Context {UUID Notification Response : Type}
  {libs : GoLibs UUID Notification Response}.
Context {ServerTool S : Type}.
Implicit Types s : @StreamableHTTPServer UUID Notification Response ServerTool S.

(** The calls [handlePost] makes before the engine runs. *)
Lemma handlePost_calls s (u : UUID) (w0 : ResponseWriter) (r : Request) :
  let calls := (handlePost s u w0 r).2 in
  let sid := Header_Get (Header r) headerKeySessionID in
  calls = []
  \/ (exists rawData, calls = [CallGenerate; CallHandleMessage rawData])
  \/ calls = [CallValidate sid]
  \/ (exists rawData, calls = [CallValidate sid; CallHandleMessage rawData]).
Proof.
  cbv zeta. unfold handlePost.
  destruct (mime_ParseMediaType _) as [mt|]; [|by left].
  destruct (negb _); [by left|].
  destruct (Body r) as [rawData|err].
  2:{ destruct (writeJSONRPCError _ _ _ _). by left. }
  destruct (json_Unmarshal_Method rawData) as [method|].
  2:{ destruct (writeJSONRPCError _ _ _ _). by left. }
  destruct (String.eqb method MethodInitialize).
  - destruct (Generate _ _ _). right; left. by eexists.
  - destruct (Validate _ _ _) as [[[] [e|]] ms]; cbn; eauto 6.
Qed.

(** What [handlePost] reads of the server: the engine, the context
    function, the manager and its state. *)
Lemma handlePost_reads s s' (u : UUID) (w0 : ResponseWriter) (r : Request) :
  server s' = server s ->
  contextFunc s' = contextFunc s ->
  sessionIdManager s' = sessionIdManager s ->
  managerState s' = managerState s ->
  (handlePost s' u w0 r).1.1 = (handlePost s u w0 r).1.1
  /\ (handlePost s' u w0 r).2 = (handlePost s u w0 r).2.
Proof.
  intros He Hc Hm Hs. unfold handlePost. rewrite Hm, Hs.
  destruct (mime_ParseMediaType _) as [mt|]; [|done].
  destruct (negb _); [done|].
  destruct (Body r) as [rawData|err].
  2:{ by destruct (writeJSONRPCError _ _ _ _). }
  destruct (json_Unmarshal_Method rawData) as [method|].
  2:{ by destruct (writeJSONRPCError _ _ _ _). }
  destruct (String.eqb method MethodInitialize).
  - destruct (Generate _ _ _). cbn. by rewrite He, Hc.
  - destruct (Validate _ _ _) as [[[] [e|]] ms]; cbn; try done.
    by rewrite He, Hc.
Qed.

(** X13.  [ServeHTTP] dispatches on the exact method.  [Generate],
    [Validate] and [HandleMessage] are called only for POST,
    [RegisterSession] and [UnregisterSession] only for GET, [Terminate]
    only for DELETE; any other method is answered 404 with the body
    "404 page not found" (and a line feed), without a call and with the
    server unchanged; and a GET changes nothing of the server before its
    stream runs. *)
Theorem ServeHTTP_dispatch s (u : UUID) (fl : bool) (r : Request) :
  let res := ServeHTTP s u (newResponseWriter fl) r in
  (forall c, c ∈ res.2 ->
     match c with
     | CallGenerate | CallValidate _ | CallHandleMessage _ => Method r = "POST"
     | CallRegisterSession _ | CallUnregisterSession _ => Method r = "GET"
     | CallTerminate _ => Method r = "DELETE"
     end)
  /\ (Method r <> "POST" -> Method r <> "GET" -> Method r <> "DELETE" ->
      exists w, res = (ServedNotFound w, s, [])
        /\ status w = StatusNotFound
        /\ body w = ["404 page not found" +:+ LF])
  /\ (Method r = "GET" -> res.1.2 = s).
Proof.
  intros res. subst res. unfold ServeHTTP.
  destruct (String.eqb_spec (Method r) "POST") as [Hp|Hp].
  { split; [|split; [done|intros Hg; congruence]].
    pose proof (handlePost_calls s u (newResponseWriter fl) r) as Hc.
    destruct (handlePost s u (newResponseWriter fl) r) as [[o s'] calls].
    cbn in *. intros c Hin.
    destruct Hc as [-> | [[raw ->] | [-> | [raw ->]]]];
      repeat (apply elem_of_cons in Hin as [-> | Hin]; [done|]);
      by apply elem_of_nil in Hin. }
  destruct (String.eqb_spec (Method r) "GET") as [Hg|Hg].
  { split; [|split; [done|]].
    - unfold handleGet.
      destruct (RegisterSession _ _); [|destruct (negb _)]; cbn;
        intros c Hin;
        repeat (apply elem_of_cons in Hin as [-> | Hin]; [done|]);
        by apply elem_of_nil in Hin.
    - intros _. by destruct (handleGet _ _ _ _). }
  destruct (String.eqb_spec (Method r) "DELETE") as [Hd|Hd].
  { split; [|split; [done|done]].
    unfold handleDelete.
    destruct (Terminate _ _ _) as [[[] [e|]] ms]; cbn;
      intros c Hin;
      repeat (apply elem_of_cons in Hin as [-> | Hin]; [done|]);
      by apply elem_of_nil in Hin. }
  split; [|split; [|done]].
  - cbn. intros c Hin. by apply elem_of_nil in Hin.
  - intros _ _ _. eexists. split; [done|]. cbn. done.
Qed.

(** X14.  An initialize request is not validated.  For a POST with the
    media type application/json whose method is "initialize", whatever
    Mcp-Session-Id header it carries: [Generate] is called once and
    [Validate] never, the session id is the generated one, the manager
    keeps the state [Generate] left, and the engine is entered with the
    context of this session, nothing written, the channel empty and the
    mutex free. *)
Theorem handlePost_initialize s (u : UUID) (w0 : ResponseWriter) (r : Request)
  (rawData : string) :
  mime_ParseMediaType (Header_Get (Header r) "Content-Type")
    = Some "application/json" ->
  Body r = inl rawData ->
  json_Unmarshal_Method rawData = Some MethodInitialize ->
  let gen := Generate (sessionIdManager s) (managerState s) u in
  let res := handlePost s u w0 r in
  res.1.1
  = PostDispatched
      (post_start w0 true gen.1
         (HandleMessage (server s) (post_context s r gen.1) rawData))
  /\ res.2 = [CallGenerate; CallHandleMessage rawData]
  /\ managerState res.1.2 = gen.2
  /\ sessionIdManager res.1.2 = sessionIdManager s.
Proof.
  intros Hct Hbody Hjson gen res. subst res gen.
  unfold handlePost. rewrite Hct, Hbody, Hjson.
  cbn [String.eqb Ascii.eqb Bool.eqb negb].
  rewrite String.eqb_refl.
  destruct (Generate _ _ _) as [sid ms]. cbn. done.
Qed.

(** X15.  What the engine is given.  Whenever [handlePost] reaches the
    engine, it calls [HandleMessage] last, on the bytes of the body, with a
    context in which the request's headers are stored - after the context
    function has run, so that it cannot replace them - and the handler's
    state is the initial one on the writer it was given.  Without a context
    function the session of the context has the session id of the request
    and, for every query key, the first of its values. *)
Theorem handlePost_engine_context s (u : UUID) (w0 : ResponseWriter)
  (r : Request) (st : PostState) :
  (handlePost s u w0 r).1.1 = PostDispatched st ->
  exists rawData,
    Body r = inl rawData
    /\ last (handlePost s u w0 r).2 = Some (CallHandleMessage rawData)
    /\ (let ctx := post_context s r (postSessionID st) in
        let run := HandleMessage (server s) ctx rawData in
        st = post_start w0 (isInitializeRequest st) (postSessionID st) run
        /\ ctxRequestHeader ctx = Some (Header r)
        /\ (contextFunc s = None ->
            sessionID (ctxSession ctx) = postSessionID st
            /\ forall k,
                 params (ctxSession ctx) !! k = fst <$> (Query r !! k))).
Proof.
  unfold handlePost.
  destruct (mime_ParseMediaType _) as [mt|]; [|done].
  destruct (negb _); [done|].
  destruct (Body r) as [rawData|err].
  2:{ destruct (writeJSONRPCError _ _ _ _). done. }
  destruct (json_Unmarshal_Method rawData) as [method|] eqn:Hm.
  2:{ destruct (writeJSONRPCError _ _ _ _). done. }
  intros H. exists rawData. split; [done|].
  assert (forall sid, (contextFunc s = None ->
            sessionID (ctxSession (post_context s r sid)) = sid
            /\ forall k, params (ctxSession (post_context s r sid)) !! k
                         = fst <$> (Query r !! k))) as Hctx.
  { intros sid Hn. unfold post_context. rewrite Hn. cbn. split; [done|].
    intros k. apply lookup_fmap. }
  destruct (String.eqb method MethodInitialize).
  - destruct (Generate _ _ _) as [sid ms]. cbn in H. simplify_eq.
    cbn. split; [done|]. split; [done|]. split; [done|]. apply Hctx.
  - destruct (Validate _ _ _) as [[[] [e|]] ms]; cbn in H; simplify_eq.
    cbn. split; [done|]. split; [done|]. split; [done|]. apply Hctx.
Qed.

(** X16.  The two early returns of [handleGet].  When [RegisterSession]
    fails, the answer is 400 with the plain text
    "Session registration failed: " and the error, and the session is not
    unregistered.  When the writer cannot flush, the session is registered
    and unregistered, and the answer has the status 200 and Content-Type
    text/event-stream that were sent before the check - not the status
    500 given to [http.Error] - with the body "Streaming unsupported". *)
Theorem handleGet_early_returns s (u : UUID) (fl : bool) (r : Request) :
  let hdr := Header_Get (Header r) headerKeySessionID in
  let sid := if String.eqb hdr "" then uuid_String u else hdr in
  let session := newStreamableHttpSession sid (fst <$> Query r) in
  let res := handleGet s u (newResponseWriter fl) r in
  (forall err, RegisterSession (server s) session = Some err ->
     exists w, res = (GetReturned w, [CallRegisterSession sid])
       /\ status w = StatusBadRequest
       /\ sentHeader w !! "Content-Type" = Some "text/plain; charset=utf-8"
       /\ body w = [("Session registration failed: " +:+ err) +:+ LF])
  /\ (RegisterSession (server s) session = None -> fl = false ->
      exists w,
        res = (GetReturned w,
               [CallRegisterSession sid; CallUnregisterSession sid])
        /\ status w = StatusOK
        /\ sentHeader w !! "Content-Type" = Some "text/event-stream"
        /\ body w = ["Streaming unsupported" +:+ LF]).
Proof.
  intros hdr sid session res. subst res. unfold handleGet.
  fold hdr sid session. split.
  - intros err ->. eexists. split; [done|]. apply http_Error_fresh.
  - intros -> ->. eexists. split; [done|]. cbn. done.
Qed.

(** What a DELETE leaves as it is. *)
Lemma handleDelete_keeps s (fl : bool) (r : Request) :
  let sid := Header_Get (Header r) headerKeySessionID in
  let res := handleDelete s (newResponseWriter fl) r in
  (forall x, x <> sid ->
     sessionTools res.1.2 !! x = sessionTools s !! x
     /\ sessionLogLevels res.1.2 !! x = sessionLogLevels s !! x
     /\ sessionRequestIDs res.1.2 !! x = sessionRequestIDs s !! x)
  /\ (status res.1.1 <> StatusOK ->
      sessionTools res.1.2 = sessionTools s
      /\ sessionLogLevels res.1.2 = sessionLogLevels s
      /\ sessionRequestIDs res.1.2 = sessionRequestIDs s)
  /\ res.2 = [CallTerminate sid]
  /\ server res.1.2 = server s
  /\ contextFunc res.1.2 = contextFunc s
  /\ sessionIdManager res.1.2 = sessionIdManager s
  /\ managerState res.1.2
     = (Terminate (sessionIdManager s) (managerState s) sid).2.
Proof.
  intros sid res. subst res. unfold handleDelete. fold sid.
  destruct (Terminate _ _ sid) as [[[] [e|]] ms]; cbn; repeat split; try done.
  all: unfold sessionToolsStore_delete, sessionLogLevelsStore_delete;
    by rewrite lookup_delete_ne.
Qed.

(** X17.  A DELETE touches one session.  Whatever the manager answers, the
    entries of every other session id in the tool store, the log level
    store and the request counters are untouched; when the answer is not
    200 the three stores are unchanged altogether; [Terminate] is the only
    call; and the engine, the context function and the manager stay, the
    manager with the state [Terminate] left. *)
Theorem handleDelete_other_sessions s (fl : bool) (r : Request) :
  let sid := Header_Get (Header r) headerKeySessionID in
  let res := handleDelete s (newResponseWriter fl) r in
  (forall x, x <> sid ->
     sessionTools res.1.2 !! x = sessionTools s !! x
     /\ sessionLogLevels res.1.2 !! x = sessionLogLevels s !! x
     /\ sessionRequestIDs res.1.2 !! x = sessionRequestIDs s !! x)
  /\ (status res.1.1 <> StatusOK ->
      sessionTools res.1.2 = sessionTools s
      /\ sessionLogLevels res.1.2 = sessionLogLevels s
      /\ sessionRequestIDs res.1.2 = sessionRequestIDs s)
  /\ res.2 = [CallTerminate sid]
  /\ server res.1.2 = server s
  /\ contextFunc res.1.2 = contextFunc s
  /\ sessionIdManager res.1.2 = sessionIdManager s
  /\ managerState res.1.2
     = (Terminate (sessionIdManager s) (managerState s) sid).2.
Proof.
  exact (handleDelete_keeps s fl r).
Qed.

(** X18.  A DELETE restarts the numbering of a session.  After a DELETE
    answered 200, whatever the counter of the session was, the next
    request id of the session is 1, and a listening stream opened
    afterwards for this session numbers its pings 1, 2, 3, ... as long as
    no other goroutine touches the counter. *)
Theorem handleDelete_restarts_request_ids s (u : UUID) (fl fl' : bool)
  (del r : Request) (acts : list GetAction)
  (st0 st : GetState (Notification := Notification) (Response := Response)) :
  let sid := Header_Get (Header del) headerKeySessionID in
  let after := (handleDelete s (newResponseWriter fl) del).1.2 in
  status (handleDelete s (newResponseWriter fl) del).1.1 = StatusOK ->
  (nextRequestID sid after).1 = 1
  /\ (streaming (handleGet after u (newResponseWriter fl') r).1 = Some st0 ->
      gsessionID st0 = sid ->
      forallb (foreign sid) acts = true ->
      Z.of_nat (length acts) < 2^63 ->
      get_run acts st0 = Some st ->
      exists (written : list (Payload Notification Response)) (k : nat),
        body (gw st) = frames written
        /\ request_ids written = seqZ 1 (Z.of_nat k)).
Proof.
  intros sid after Hok.
  assert (sessionRequestIDs after !! sid = None) as Hnone.
  { subst after. revert Hok. unfold handleDelete. fold sid.
    destruct (Terminate _ _ sid) as [[[] [e|]] ms]; cbn; try done.
    intros _. apply lookup_delete_eq. }
  split.
  - unfold nextRequestID, sessionRequestIDs_next. by rewrite Hnone.
  - intros Hopen Hsid Hfor Hlen Hrun.
    pose proof (get_inv_start after u fl' r st0 Hopen) as Hinv.
    rewrite Hsid in Hinv. unfold counter_at in Hinv. rewrite Hnone in Hinv.
    assert (get_inv sid 0 (0 + length acts) st) as Hinv'.
    { eapply get_inv_run; [lia| |exact Hinv|exact Hfor|exact Hrun]. cbn. lia. }
    destruct (ginv_pings _ _ _ _ Hinv')
      as (written & rest & n & Hbody & Hids & _).
    exists written, (length (request_ids written)).
    split; [done|]. exact (seqZ_prefix _ _ _ _ Hids).
Qed.

(** X19.  [nextRequestID] stays within int64 and within its session.  For
    a counter in the int64 range the value returned is the counter plus
    one, except at 2^63 - 1 where the addition wraps to -2^63; it is
    stored as the counter of the session; the counters of all other
    sessions, the tool store and the log level store are unchanged. *)
Theorem nextRequestID_int64 s (sid : string) :
  let c := counter_at (sessionRequestIDs s) sid in
  let v := (nextRequestID sid s).1 in
  let s' := (nextRequestID sid s).2 in
  - 2^63 <= c < 2^63 ->
  - 2^63 <= v < 2^63
  /\ v = (if c =? 2^63 - 1 then - 2^63 else c + 1)
  /\ sessionRequestIDs s' !! sid = Some v
  /\ (forall x, x <> sid ->
      sessionRequestIDs s' !! x = sessionRequestIDs s !! x)
  /\ sessionTools s' = sessionTools s
  /\ sessionLogLevels s' = sessionLogLevels s.
Proof.
  intros c v s' Hc. subst v s'. unfold nextRequestID.
  rewrite sessionRequestIDs_next_spec. fold c. cbn.
  rewrite lookup_insert_eq.
  assert (wrap64 (c + 1) = if c =? 2^63 - 1 then - 2^63 else c + 1) as ->.
  { destruct (Z.eqb_spec c (2^63 - 1)) as [->|Hne].
    - reflexivity.
    - apply wrap64_small. lia. }
  split; [destruct (Z.eqb_spec c (2^63 - 1)); lia|].
  split; [done|]. split; [done|]. split; [|done].
  intros x Hx. by rewrite lookup_insert_ne.
Qed.

End DispatchFacts.

(** A PUT is answered 404. *)
Lemma ServeHTTP_dispatch_witness :
  let s := Sample.newServer InsecureStatefulSessionIdManager tt
             (Sample.engine [] None) 0 in
  let r := Sample.request "PUT" "application/json" "" Sample.call_body in
  exists w,
    ServeHTTP s Sample.uuid0 (newResponseWriter true) r
    = (ServedNotFound w, s, [])
    /\ status w = 404
    /\ body w = ["404 page not found" +:+ LF].
Proof.
  intros s r.
  destruct (ServeHTTP_dispatch (libs := Sample.libs) s Sample.uuid0 true r)
    as (_ & H & _).
  apply H; discriminate.
Defined.

(** An initialize request carrying the header Mcp-Session-Id: bogus, under
    a manager whose [Validate] reports every id as terminated: the request
    is handled under the generated id. *)
Lemma handlePost_initialize_witness :
  let s := Sample.newServer Sample.strictManager tt
             (Sample.engine [] (Some Sample.result7)) 0 in
  let r := Sample.request "POST" "application/json" "bogus"
             Sample.initialize_body in
  (handlePost s Sample.uuid0 (newResponseWriter true) r).2
  = [CallGenerate; CallHandleMessage Sample.initialize_body]
  /\ exists st,
       (handlePost s Sample.uuid0 (newResponseWriter true) r).1.1
       = PostDispatched st
       /\ postSessionID st = "sid".
Proof.
  intros s r.
  destruct (handlePost_initialize (libs := Sample.libs) s Sample.uuid0
              (newResponseWriter true) r Sample.initialize_body
              eq_refl eq_refl eq_refl) as (H1 & H2 & _).
  split; [exact H2|]. eexists. split; [exact H1|]. reflexivity.
Defined.

(** A tool call with the query [debug=1&debug=2]: the session has the
    parameter [debug] equal to 1. *)
Lemma handlePost_engine_context_witness :
  let s := Sample.newServer StatelessSessionIdManager tt
             (Sample.engine [] (Some Sample.result7)) 0 in
  let r := {| Method := "POST";
              Header := Sample.headers "application/json" "abc";
              Body := inl Sample.call_body;
              Query := {[ "debug" := ("1", ["2"]) ]} |} in
  exists st,
    (handlePost s Sample.uuid0 (newResponseWriter true) r).1.1
    = PostDispatched st
    /\ ctxRequestHeader (post_context s r (postSessionID st))
       = Some (Header r)
    /\ params (ctxSession (post_context s r (postSessionID st))) !! "debug"
       = Some "1".
Proof.
  intros s r. subst s r.
  eexists. split; [vm_compute; reflexivity|].
  edestruct (handlePost_engine_context (libs := Sample.libs)
              (Sample.newServer StatelessSessionIdManager tt
                 (Sample.engine [] (Some Sample.result7)) 0)
              Sample.uuid0 (newResponseWriter true)
              {| Method := "POST";
                 Header := Sample.headers "application/json" "abc";
                 Body := inl Sample.call_body;
                 Query := {[ "debug" := ("1", ["2"]) ]} |})
    as (raw & _ & _ & _ & Hh & Hp); [vm_compute; reflexivity|].
  split; [exact Hh|].
  destruct (Hp eq_refl) as [_ Hq]. rewrite Hq. reflexivity.
Defined.

(** An engine that refuses the registration. *)
Lemma handleGet_early_returns_witness :
  let s := Sample.newServer InsecureStatefulSessionIdManager tt
             Sample.closedEngine 0 in
  let r := Sample.request "GET" "" "s1" "" in
  exists w,
    handleGet s Sample.uuid0 (newResponseWriter true) r
    = (GetReturned w, [CallRegisterSession "s1"])
    /\ status w = 400
    /\ body w = [("Session registration failed: " +:+ "server is full") +:+ LF].
Proof.
  intros s r.
  destruct (handleGet_early_returns (libs := Sample.libs) s Sample.uuid0 true r)
    as [H _].
  destruct (H "server is full" eq_refl) as (w & H1 & H2 & _ & H4).
  exists w. exact (conj H1 (conj H2 H4)).
Defined.

(** The sessions s1 and s2 have log levels; the DELETE of s1 leaves the
    level of s2. *)
Lemma handleDelete_other_sessions_witness :
  let s := SetLogLevel (newStreamableHttpSession "s2" ∅) "info"
             (SetLogLevel (newStreamableHttpSession "s1" ∅) "debug"
                (Sample.newServer InsecureStatefulSessionIdManager tt
                   (Sample.engine [] None) 0)) in
  let r := Sample.request "DELETE" "" "s1" "" in
  let after := (handleDelete s (newResponseWriter true) r).1.2 in
  sessionLogLevels s !! "s2" = Some "info"
  /\ sessionLogLevels after !! "s2" = sessionLogLevels s !! "s2".
Proof.
  intros s r after.
  destruct (handleDelete_other_sessions s true r)
    as (H & _).
  split; [reflexivity|].
  destruct (H "s2") as (_ & H2 & _); [discriminate|]. exact H2.
Defined.

(** The counter of s1 stands at 3: the next id would be 4; after the
    DELETE a new stream sends the ping 1. *)
Lemma handleDelete_restarts_request_ids_witness :
  let s := set_sessionRequestIDs (fun _ => {[ "s1" := 3 ]})
             (Sample.newServer InsecureStatefulSessionIdManager tt
                (Sample.engine [] None) 100) in
  let del := Sample.request "DELETE" "" "s1" "" in
  let r := Sample.request "GET" "" "s1" "" in
  let after := (handleDelete s (newResponseWriter true) del).1.2 in
  (nextRequestID "s1" s).1 = 4
  /\ (nextRequestID "s1" after).1 = 1
  /\ exists st0 st,
       streaming (handleGet after Sample.uuid0 (newResponseWriter true) r).1
       = Some st0
       /\ get_run [GTick; GPingSend; GMainWrite] st0 = Some st
       /\ body (gw st) = frames [PRequest 1 "ping"]
       /\ exists written k,
            body (gw st) = frames written
            /\ request_ids written = seqZ 1 (Z.of_nat k).
Proof.
  intros s del r after. subst s del r after.
  split; [vm_compute; reflexivity|].
  pose proof (handleDelete_restarts_request_ids (libs := Sample.libs)
               (set_sessionRequestIDs (fun _ => {[ "s1" := 3 ]})
                  (Sample.newServer InsecureStatefulSessionIdManager tt
                     (Sample.engine [] None) 100))
               Sample.uuid0 true true
               (Sample.request "DELETE" "" "s1" "")
               (Sample.request "GET" "" "s1" "")
               [GTick; GPingSend; GMainWrite]) as H.
  cbv zeta in H.
  match type of H with
  | forall a b, ?P -> _ => assert (Hp : P) by (vm_compute; reflexivity)
  end.
  assert (exists st0 st,
            streaming
              (handleGet
                 (handleDelete
                    (set_sessionRequestIDs (fun _ => {[ "s1" := 3 ]})
                       (Sample.newServer InsecureStatefulSessionIdManager tt
                          (Sample.engine [] None) 100))
                    (newResponseWriter true)
                    (Sample.request "DELETE" "" "s1" "")).1.2
                 Sample.uuid0 (newResponseWriter true)
                 (Sample.request "GET" "" "s1" "")).1 = Some st0
            /\ gsessionID st0 = "s1"
            /\ get_run [GTick; GPingSend; GMainWrite] st0 = Some st
            /\ body (gw st) = frames [PRequest 1 "ping"])
    as (st0 & st & Hs0 & Hsid & Hrun & Hbody).
  { eexists _, _. repeat (split; [vm_compute; reflexivity|]).
    vm_compute; reflexivity. }
  destruct (H st0 st Hp) as [H1 H2].
  split; [exact H1|]. exists st0, st.
  split; [exact Hs0|]. split; [exact Hrun|]. split; [exact Hbody|].
  apply H2; [exact Hs0 | exact Hsid | reflexivity | vm_compute; reflexivity
            | exact Hrun].
Defined.

(** At the largest int64 the next id is the smallest. *)
Lemma nextRequestID_int64_witness :
  let s := set_sessionRequestIDs (fun _ => {[ "s1" := 2^63 - 1 ]})
             (Sample.newServer InsecureStatefulSessionIdManager tt
                (Sample.engine [] None) 100) in
  (nextRequestID "s1" s).1 = - 2^63.
Proof.
  intros s.
  destruct (nextRequestID_int64 s "s1") as (_ & H & _).
  - vm_compute. split; [discriminate | reflexivity].
  - exact H.
Defined.

(* ===================================================================== *)
(** * The built-in managers and the session id header                     *)
(* ===================================================================== *)

Section BuiltinFacts.
Context {UUID Notification Response : Type}
  {libs : GoLibs UUID Notification Response}.
Context {ServerTool : Type}.
Implicit Types s : @StreamableHTTPServer UUID Notification Response ServerTool unit.

(** X20.  The built-in managers do not record a termination.  Under the
    stateless and the insecure stateful manager every DELETE is answered
    200, and a POST that follows passes the same checks as it would have
    before, also with the session id that was deleted: it makes the same
    calls, and it returns early with the same response or reaches the
    engine on the same writer and for the same session id.  What the
    engine answers then is not compared. *)
Theorem builtin_delete_keeps_ids_valid s (u : UUID) (fl : bool)
  (w0 : ResponseWriter) (del r : Request) :
  sessionIdManager s = StatelessSessionIdManager
  \/ sessionIdManager s = InsecureStatefulSessionIdManager ->
  let after := (handleDelete s (newResponseWriter fl) del).1.2 in
  status (handleDelete s (newResponseWriter fl) del).1.1 = StatusOK
  /\ match (handlePost s u w0 r).1.1, (handlePost after u w0 r).1.1 with
     | PostReturned w1 l1, PostReturned w2 l2 => w2 = w1 /\ l2 = l1
     | PostDispatched st1, PostDispatched st2 =>
         w st2 = w st1
         /\ postSessionID st2 = postSessionID st1
         /\ isInitializeRequest st2 = isInitializeRequest st1
     | _, _ => False
     end
  /\ (handlePost after u w0 r).2 = (handlePost s u w0 r).2.
Proof.
  intros Hm after.
  destruct (handleDelete_keeps s fl del)
    as (_ & _ & _ & He & Hc & Hmg & Hms).
  split.
  - destruct s as [e tools ids cf m ms hb logs]. cbn in Hm.
    unfold handleDelete. by destruct Hm as [-> | ->].
  - destruct (handlePost_reads s after u w0 r) as [Ho Hcalls]; try done.
    { by destruct (managerState after), (managerState s). }
    split; [|exact Hcalls].
    rewrite Ho. by destruct (handlePost s u w0 r).1.1.
Qed.

End BuiltinFacts.

(** A session id is deleted and then used for a tool call, which is
    validated and handed to the engine. *)
Lemma builtin_delete_keeps_ids_valid_witness :
  let s := Sample.newServer InsecureStatefulSessionIdManager tt
             (Sample.engine [] (Some Sample.result7)) 0 in
  let sid := "mcp-session-" +:+ Sample.uuid0_text in
  let del := Sample.request "DELETE" "" sid "" in
  let r := Sample.request "POST" "application/json" sid Sample.call_body in
  let after := (handleDelete s (newResponseWriter true) del).1.2 in
  status (handleDelete s (newResponseWriter true) del).1.1 = 200
  /\ (handlePost after Sample.uuid0 (newResponseWriter true) r).2
     = [CallValidate sid; CallHandleMessage Sample.call_body].
Proof.
  intros s sid del r after.
  destruct (builtin_delete_keeps_ids_valid (libs := Sample.libs)
              s Sample.uuid0 true (newResponseWriter true) del r
              (or_intror eq_refl)) as (H1 & _ & H3).
  split; [exact H1|]. fold after in H3. rewrite H3.
  subst s sid r. vm_compute. reflexivity.
Defined.

Section PostEntryFacts.
Context {UUID Notification Response : Type}
  {libs : GoLibs UUID Notification Response}.
Context {ServerTool S : Type}.
Implicit Types s : @StreamableHTTPServer UUID Notification Response ServerTool S.

(** The state in which [handlePost] enters the engine. *)
Lemma handlePost_dispatched s (u : UUID) (w0 : ResponseWriter) (r : Request)
  (st0 : PostState) :
  (handlePost s u w0 r).1.1 = PostDispatched st0 ->
  exists (rawData method : string) (run : list EngineAct * option Response),
    Body r = inl rawData
    /\ json_Unmarshal_Method rawData = Some method
    /\ st0 = post_start w0 (String.eqb method MethodInitialize)
               (if String.eqb method MethodInitialize
                then (Generate (sessionIdManager s) (managerState s) u).1
                else Header_Get (Header r) headerKeySessionID)
               run.
Proof.
  unfold handlePost.
  destruct (mime_ParseMediaType _) as [mt|]; [|done].
  destruct (negb _); [done|].
  destruct (Body r) as [rawData|err].
  2:{ destruct (writeJSONRPCError _ _ _ _). done. }
  destruct (json_Unmarshal_Method rawData) as [method|] eqn:Hm.
  2:{ destruct (writeJSONRPCError _ _ _ _). done. }
  intros H. exists rawData, method.
  destruct (String.eqb method MethodInitialize).
  - destruct (Generate _ _ _) as [sid ms]. cbn in H. simplify_eq.
    eexists. done.
  - destruct (Validate _ _ _) as [[[] [e|]] ms]; cbn in H; simplify_eq.
    eexists. done.
Qed.

End PostEntryFacts.

Section PostHeaderFacts.
Context {UUID Notification Response : Type}
  {libs : GoLibs UUID Notification Response}.
Context {ServerTool S : Type}.
Implicit Types s : @StreamableHTTPServer UUID Notification Response ServerTool S.

(** X21.  Which responses carry Mcp-Session-Id.  In every state a POST can
    reach after [handlePost] entered the engine, the header sent carries
    Mcp-Session-Id only if the request is an initialize request, and then
    its value is the session id [Generate] returned, which is not empty.
    Under the stateless manager no response carries the header. *)
Theorem post_session_id_header (u : UUID) (fl : bool) (r : Request)
  (acts : list Action) (st0 st : PostState) :
  (forall s,
     (handlePost s u (newResponseWriter fl) r).1.1 = PostDispatched st0 ->
     post_run acts st0 = Some st ->
     match sentHeader (w st) !! headerKeySessionID with
     | None => True
     | Some v =>
         (exists rawData, Body r = inl rawData
            /\ json_Unmarshal_Method rawData = Some MethodInitialize)
         /\ v = (Generate (sessionIdManager s) (managerState s) u).1
         /\ v <> ""
     end)
  /\ (forall s' : @StreamableHTTPServer UUID Notification Response ServerTool unit,
        sessionIdManager s' = StatelessSessionIdManager ->
        (handlePost s' u (newResponseWriter fl) r).1.1 = PostDispatched st0 ->
        post_run acts st0 = Some st ->
        sentHeader (w st) !! headerKeySessionID = None).
Proof.
  assert (forall (T : Type)
            (s : @StreamableHTTPServer UUID Notification Response ServerTool T),
     (handlePost s u (newResponseWriter fl) r).1.1 = PostDispatched st0 ->
     post_run acts st0 = Some st ->
     match sentHeader (w st) !! headerKeySessionID with
     | None => True
     | Some v =>
         (exists rawData, Body r = inl rawData
            /\ json_Unmarshal_Method rawData = Some MethodInitialize)
         /\ v = (Generate (sessionIdManager s) (managerState s) u).1
         /\ v <> ""
     end) as Hgen.
  { intros T s Hd Hrun.
    destruct (handlePost_dispatched (S := T) s u _ r st0 Hd)
      as (raw & method & run & Hb & Hm & ->).
    destruct (header_inv_run _ _ _ _ _ _ Hrun) as [_ _ [_ Hs]].
    unfold session_header_ok in Hs.
    destruct (sentHeader (w st) !! headerKeySessionID) as [v|]; [|done].
    destruct Hs as (Hi & -> & Hne).
    destruct (String.eqb_spec method MethodInitialize) as [->|]; [|done].
    eauto. }
  split; [apply Hgen|].
  intros s' Hm Hd Hrun. specialize (Hgen unit s' Hd Hrun).
  destruct (sentHeader (w st) !! headerKeySessionID) as [v|]; [|done].
  destruct Hgen as (_ & -> & Hne). rewrite Hm in Hne. done.
Qed.

End PostHeaderFacts.

(** An initialize request on a stateless server: the JSON response has no
    Mcp-Session-Id header. *)
Lemma post_session_id_header_witness :
  let s := Sample.newServer StatelessSessionIdManager tt
             (Sample.engine [] (Some Sample.result7)) 0 in
  let r := Sample.request "POST" "application/json" "" Sample.initialize_body in
  exists st0 st,
    (handlePost s Sample.uuid0 (newResponseWriter true) r).1.1
    = PostDispatched st0
    /\ post_run [AEngineReturn; AMainLock; AMainWrite] st0 = Some st
    /\ body (w st) = [Sample.result7 +:+ LF]
    /\ sentHeader (w st) !! headerKeySessionID = None.
Proof.
  intros s r. subst s r.
  eexists _, _. split; [vm_compute; reflexivity|].
  split; [vm_compute; reflexivity|].
  split; [vm_compute; reflexivity|].
  edestruct (post_session_id_header (libs := Sample.libs)
               (ServerTool := string) (S := unit)
               Sample.uuid0 true
               (Sample.request "POST" "application/json" ""
                  Sample.initialize_body)
               [AEngineReturn; AMainLock; AMainWrite]) as [_ H].
  eapply (H (Sample.newServer StatelessSessionIdManager tt
               (Sample.engine [] (Some Sample.result7)) 0));
    [reflexivity | vm_compute; reflexivity | vm_compute; reflexivity].
Defined.

(* ------------------------------------------------------------------ *)
(** ** The handshake: an id generated is an id accepted *)

Section HandshakeFacts.
Context {UUID Notification Response : Type}
  {libs : GoLibs UUID Notification Response}.
Context {ServerTool : Type}.
Implicit Types s : @StreamableHTTPServer UUID Notification Response ServerTool unit.

(** X22.  The handshake under the default manager.  With the insecure
    stateful manager and a uuid package whose [Parse] accepts what
    [String] prints, an initialize POST is dispatched under the id
    "mcp-session-" followed by the new uuid; when its response is written
    as JSON the answer is 200 with the one line of the response and the
    header Mcp-Session-Id equal to that id; and every later POST of another
    method that carries this id passes [Validate] and is handed to the
    engine under the same id. *)
Theorem insecure_stateful_handshake s (u : UUID) (fl : bool) (r1 : Request)
  (rawData : string) :
  (forall u : UUID, is_Some (uuid_Parse (uuid_String u))) ->
  sessionIdManager s = InsecureStatefulSessionIdManager ->
  mime_ParseMediaType (Header_Get (Header r1) "Content-Type")
    = Some "application/json" ->
  Body r1 = inl rawData ->
  json_Unmarshal_Method rawData = Some MethodInitialize ->
  let id := idPrefix +:+ uuid_String u in
  let first := handlePost s u (newResponseWriter fl) r1 in
  exists st0,
    first.1.1 = PostDispatched st0
    /\ (forall (acts : list Action) (st : PostState) (resp : Response)
               (j : string),
          post_run acts st0 = Some st ->
          mainPc st = MLocked resp ->
          ctxErr st = false ->
          upgradeToSSE st = false ->
          upgradedHeader st = false ->
          json_Marshal (PResponse resp) = Some j ->
          exists st',
            post_step AMainWrite st = Some st'
            /\ status (w st') = StatusOK
            /\ body (w st') = [j +:+ LF]
            /\ sentHeader (w st') !! headerKeySessionID = Some id)
    /\ (forall (u2 : UUID) (w2 : ResponseWriter) (r2 : Request)
               (raw2 method2 : string),
          mime_ParseMediaType (Header_Get (Header r2) "Content-Type")
            = Some "application/json" ->
          Body r2 = inl raw2 ->
          json_Unmarshal_Method raw2 = Some method2 ->
          method2 <> MethodInitialize ->
          Header_Get (Header r2) headerKeySessionID = id ->
          exists st2,
            (handlePost first.1.2 u2 w2 r2).1.1 = PostDispatched st2
            /\ postSessionID st2 = id
            /\ (handlePost first.1.2 u2 w2 r2).2
               = [CallValidate id; CallHandleMessage raw2]).
Proof.
  intros Hrt Hm Hct Hbody Hjson id first.
  destruct s as [e tools ids cf m ms hb logs]. cbn in Hm. subst m.
  assert (exists run,
            first = (PostDispatched
                       (post_start (newResponseWriter fl) true id run),
                     {| server := e; sessionTools := tools;
                        sessionRequestIDs := ids; contextFunc := cf;
                        sessionIdManager := InsecureStatefulSessionIdManager;
                        managerState := ms; listenHeartbeatInterval := hb;
                        sessionLogLevels := logs |},
                     [CallGenerate; CallHandleMessage rawData]))
    as [run Hfirst].
  { subst first. unfold handlePost. rewrite Hct, Hbody, Hjson.
    cbn [String.eqb Ascii.eqb Bool.eqb negb]. rewrite String.eqb_refl.
    cbn. eexists. reflexivity. }
  rewrite Hfirst. cbn [fst snd].
  eexists. split; [reflexivity|]. split.
  - intros acts st resp j Hrun Hpc Hctx Hup Hhd Hj.
    destruct run as [script resp0].
    pose proof (post_inv_run _ _ _ _ _ _ _ Hrun) as Hinv.
    destruct (header_inv_run _ _ _ _ _ _ Hrun) as [Hi Hs _].
    destruct (final_section_sent _ _ _ _ _ _ Hinv Hpc Hctx Hj) as [_ Hjs].
    destruct (Hjs Hup Hhd) as (Hb & Hst & _ & Hh).
    eexists. split; [unfold post_step; rewrite Hpc; reflexivity|].
    cbn. split; [done|]. split; [done|].
    rewrite Hh, Hi, Hs. done.
  - intros u2 w2 r2 raw2 method2 Hct2 Hbody2 Hjson2 Hne Hid.
    unfold handlePost. rewrite Hct2, Hbody2, Hjson2, Hid.
    cbn [String.eqb Ascii.eqb Bool.eqb negb].
    destruct (String.eqb_spec method2 MethodInitialize) as [|_]; [done|].
    cbn.
    pose proof (InsecureStateful_Validate_terminated id) as Ht.
    assert (snd (InsecureStateful_Validate id) = None) as Hok.
    { apply InsecureStateful_Validate_ok. exists (uuid_String u).
      split; [done|]. apply Hrt. }
    destruct (InsecureStateful_Validate id) as [t err]. cbn in Ht, Hok.
    subst t err. cbn. eexists. split; [reflexivity|]. done.
Qed.

End HandshakeFacts.

(** An initialize request and a tool call that carries the id returned. *)
Lemma insecure_stateful_handshake_witness :
  let s := Sample.newServer InsecureStatefulSessionIdManager tt
             (Sample.engine [] (Some Sample.result7)) 0 in
  let id := "mcp-session-" +:+ Sample.uuid0_text in
  let r1 := Sample.request "POST" "application/json" "" Sample.initialize_body in
  let r2 := Sample.request "POST" "application/json" id Sample.call_body in
  let first := handlePost s Sample.uuid0 (newResponseWriter true) r1 in
  exists st0 st st' st2,
    first.1.1 = PostDispatched st0
    /\ post_run [AEngineReturn; AMainLock] st0 = Some st
    /\ post_step AMainWrite st = Some st'
    /\ sentHeader (w st') !! "Mcp-Session-Id" = Some id
    /\ (handlePost first.1.2 Sample.uuid0 (newResponseWriter true) r2).1.1
       = PostDispatched st2
    /\ postSessionID st2 = id.
Proof.
  intros s id r1 r2 first.
  destruct (insecure_stateful_handshake (libs := Sample.libs) s Sample.uuid0
              true r1 Sample.initialize_body GoogleUUIDFacts.Parse_String
              eq_refl eq_refl eq_refl eq_refl) as (st0 & H0 & Hfin & Hnext).
  assert (exists st, post_run [AEngineReturn; AMainLock] st0 = Some st
                     /\ mainPc st = MLocked Sample.result7
                     /\ ctxErr st = false /\ upgradeToSSE st = false
                     /\ upgradedHeader st = false)
    as (st & Hrun & Hpc & Hc & Hu & Hh).
  { subst first s r1. vm_compute in H0. injection H0 as <-.
    eexists. repeat (split; [vm_compute; reflexivity|]).
    vm_compute; reflexivity. }
  destruct (Hfin _ st Sample.result7 Sample.result7 Hrun Hpc Hc Hu Hh eq_refl)
    as (st' & Hstep & _ & _ & Hid).
  destruct (Hnext Sample.uuid0 (newResponseWriter true) r2 Sample.call_body
              "tools/call" eq_refl eq_refl eq_refl) as (st2 & H2 & Hsid & _);
    [discriminate | reflexivity |].
  exists st0, st, st', st2. fold first. auto 10.
Defined.
